(** * LLGL: the OpenGL state cache and the validation layer

    A shallow embedding of [sources/Renderer/OpenGL/RenderState/GLStateManager.cpp]
    and of the command-buffer contract declared in
    [sources/Renderer/DebugLayer/DbgCommandBuffer.h].

    Every member function of [GLStateManager] is a computation in the monad
    [GL]: it reads and writes the manager object and appends the native
    OpenGL calls it issues to a log, in program order.  Undefined behaviour
    of the C++ code (indexing an array out of range, [top] on an empty
    [std::stack]) and the one exception the file throws are outcomes of
    their own. *)

From Stdlib Require Import ZArith List Bool String Lia.
From Stdlib Require Import Floats.SpecFloat.
From stdpp Require Import base tactics option list vector fin finite numbers.

Local Open Scope Z_scope.

(* ================================================================= *)
(** ** OpenGL scalar types and the constants the file names *)

(** [GLenum] and [GLuint] are 32-bit unsigned integers, [GLint] and
    [GLsizei] are 32-bit signed ones, [GLboolean] is an 8-bit unsigned
    one.  All are carried by [Z]. *)
Definition GLenum := Z.
Definition GLuint := Z.
Definition GLint := Z.
Definition GLsizei := Z.
Definition GLboolean := Z.

Definition GLuint_wrap (z : Z) : GLuint := z mod 2 ^ 32.

(** [GLfloat] is IEEE binary32 and [GLdouble] is IEEE binary64, both
    under round-to-nearest-even. *)
Definition GLfloat := spec_float.
Definition GLdouble := spec_float.

Definition GLfloat_prec : Z := 24.
Definition GLfloat_emax : Z := 128.

Definition GLfloat_sub (a b : GLfloat) : GLfloat :=
  SFsub GLfloat_prec GLfloat_emax a b.

(** [static_cast<GLfloat>(i)] *)
Definition GLfloat_of_GLint (i : GLint) : GLfloat :=
  binary_normalize GLfloat_prec GLfloat_emax i 0 false.

Definition GLint_min : Z := - 2 ^ 31.
Definition GLint_max : Z := 2 ^ 31 - 1.

(** [static_cast<GLint>(f)]: truncation towards zero; the conversion is
    undefined when the truncated value is not representable. *)
Definition GLint_of_GLfloat (f : GLfloat) : option GLint :=
  match f with
  | S754_zero _ => Some 0
  | S754_finite s m e =>
      let mag := if 0 <=? e then Z.shiftl (Z.pos m) e
                 else Z.shiftr (Z.pos m) (- e) in
      let v := if s then - mag else mag in
      if (GLint_min <=? v) && (v <=? GLint_max) then Some v else None
  | S754_infinity _ | S754_nan => None
  end.

(** Values of the OpenGL registry (glcorearb.h); the source only names
    them. *)
Definition GL_FALSE : GLboolean := 0.

Definition GL_BLEND : GLenum := 0x0BE2.
Definition GL_COLOR_LOGIC_OP : GLenum := 0x0BF2.
Definition GL_CULL_FACE : GLenum := 0x0B44.
Definition GL_DEBUG_OUTPUT : GLenum := 0x92E0.
Definition GL_DEBUG_OUTPUT_SYNCHRONOUS : GLenum := 0x8242.
Definition GL_DEPTH_CLAMP : GLenum := 0x864F.
Definition GL_DEPTH_TEST : GLenum := 0x0B71.
Definition GL_DITHER : GLenum := 0x0BD0.
Definition GL_FRAMEBUFFER_SRGB : GLenum := 0x8DB9.
Definition GL_LINE_SMOOTH : GLenum := 0x0B20.
Definition GL_MULTISAMPLE : GLenum := 0x809D.
Definition GL_POLYGON_OFFSET_FILL : GLenum := 0x8037.
Definition GL_POLYGON_OFFSET_LINE : GLenum := 0x2A02.
Definition GL_POLYGON_OFFSET_POINT : GLenum := 0x2A01.
Definition GL_POLYGON_SMOOTH : GLenum := 0x0B41.
Definition GL_PRIMITIVE_RESTART : GLenum := 0x8F9D.
Definition GL_PRIMITIVE_RESTART_FIXED_INDEX : GLenum := 0x8D69.
Definition GL_RASTERIZER_DISCARD : GLenum := 0x8C89.
Definition GL_SAMPLE_ALPHA_TO_COVERAGE : GLenum := 0x809E.
Definition GL_SAMPLE_ALPHA_TO_ONE : GLenum := 0x809F.
Definition GL_SAMPLE_COVERAGE : GLenum := 0x80A0.
Definition GL_SAMPLE_SHADING : GLenum := 0x8C36.
Definition GL_SAMPLE_MASK : GLenum := 0x8E51.
Definition GL_SCISSOR_TEST : GLenum := 0x0C11.
Definition GL_STENCIL_TEST : GLenum := 0x0B90.
Definition GL_TEXTURE_CUBE_MAP_SEAMLESS : GLenum := 0x884F.
Definition GL_PROGRAM_POINT_SIZE : GLenum := 0x8642.

Definition GL_ARRAY_BUFFER : GLenum := 0x8892.
Definition GL_ATOMIC_COUNTER_BUFFER : GLenum := 0x92C0.
Definition GL_COPY_READ_BUFFER : GLenum := 0x8F36.
Definition GL_COPY_WRITE_BUFFER : GLenum := 0x8F37.
Definition GL_DISPATCH_INDIRECT_BUFFER : GLenum := 0x90EE.
Definition GL_DRAW_INDIRECT_BUFFER : GLenum := 0x8F3F.
Definition GL_ELEMENT_ARRAY_BUFFER : GLenum := 0x8893.
Definition GL_PIXEL_PACK_BUFFER : GLenum := 0x88EB.
Definition GL_PIXEL_UNPACK_BUFFER : GLenum := 0x88EC.
Definition GL_QUERY_BUFFER : GLenum := 0x9192.
Definition GL_SHADER_STORAGE_BUFFER : GLenum := 0x90D2.
Definition GL_TEXTURE_BUFFER : GLenum := 0x8C2A.
Definition GL_TRANSFORM_FEEDBACK_BUFFER : GLenum := 0x8C8E.
Definition GL_UNIFORM_BUFFER : GLenum := 0x8A11.

Definition GL_TEXTURE_1D : GLenum := 0x0DE0.
Definition GL_TEXTURE_2D : GLenum := 0x0DE1.
Definition GL_TEXTURE_3D : GLenum := 0x806F.
Definition GL_TEXTURE_1D_ARRAY : GLenum := 0x8C18.
Definition GL_TEXTURE_2D_ARRAY : GLenum := 0x8C1A.
Definition GL_TEXTURE_RECTANGLE : GLenum := 0x84F5.
Definition GL_TEXTURE_CUBE_MAP : GLenum := 0x8513.
Definition GL_TEXTURE_CUBE_MAP_ARRAY : GLenum := 0x9009.
Definition GL_TEXTURE_2D_MULTISAMPLE : GLenum := 0x9100.
Definition GL_TEXTURE_2D_MULTISAMPLE_ARRAY : GLenum := 0x9102.

Definition GL_TEXTURE0 : GLenum := 0x84C0.
Definition GL_TEXTURE1 : GLenum := 0x84C1.
Definition GL_TEXTURE2 : GLenum := 0x84C2.
Definition GL_TEXTURE3 : GLenum := 0x84C3.
Definition GL_TEXTURE4 : GLenum := 0x84C4.
Definition GL_TEXTURE5 : GLenum := 0x84C5.
Definition GL_TEXTURE6 : GLenum := 0x84C6.
Definition GL_TEXTURE7 : GLenum := 0x84C7.
Definition GL_TEXTURE8 : GLenum := 0x84C8.
Definition GL_TEXTURE9 : GLenum := 0x84C9.
Definition GL_TEXTURE10 : GLenum := 0x84CA.
Definition GL_TEXTURE11 : GLenum := 0x84CB.
Definition GL_TEXTURE12 : GLenum := 0x84CC.
Definition GL_TEXTURE13 : GLenum := 0x84CD.
Definition GL_TEXTURE14 : GLenum := 0x84CE.
Definition GL_TEXTURE15 : GLenum := 0x84CF.
Definition GL_TEXTURE16 : GLenum := 0x84D0.
Definition GL_TEXTURE17 : GLenum := 0x84D1.
Definition GL_TEXTURE18 : GLenum := 0x84D2.
Definition GL_TEXTURE19 : GLenum := 0x84D3.
Definition GL_TEXTURE20 : GLenum := 0x84D4.
Definition GL_TEXTURE21 : GLenum := 0x84D5.
Definition GL_TEXTURE22 : GLenum := 0x84D6.
Definition GL_TEXTURE23 : GLenum := 0x84D7.
Definition GL_TEXTURE24 : GLenum := 0x84D8.
Definition GL_TEXTURE25 : GLenum := 0x84D9.
Definition GL_TEXTURE26 : GLenum := 0x84DA.
Definition GL_TEXTURE27 : GLenum := 0x84DB.
Definition GL_TEXTURE28 : GLenum := 0x84DC.
Definition GL_TEXTURE29 : GLenum := 0x84DD.
Definition GL_TEXTURE30 : GLenum := 0x84DE.
Definition GL_TEXTURE31 : GLenum := 0x84DF.

Definition GL_FRONT : GLenum := 0x0404.
Definition GL_BACK : GLenum := 0x0405.
Definition GL_FRONT_AND_BACK : GLenum := 0x0408.
Definition GL_UPPER_LEFT : GLenum := 0x8CA2.
Definition GL_COLOR_ATTACHMENT0 : GLenum := 0x8CE0.

(* ================================================================= *)
(** ** The lookup tables of the file *)

Definition stateCapsMap : vec GLenum 27 :=
  [# GL_BLEND;
     GL_COLOR_LOGIC_OP;
     GL_CULL_FACE;
     GL_DEBUG_OUTPUT;
     GL_DEBUG_OUTPUT_SYNCHRONOUS;
     GL_DEPTH_CLAMP;
     GL_DEPTH_TEST;
     GL_DITHER;
     GL_FRAMEBUFFER_SRGB;
     GL_LINE_SMOOTH;
     GL_MULTISAMPLE;
     GL_POLYGON_OFFSET_FILL;
     GL_POLYGON_OFFSET_LINE;
     GL_POLYGON_OFFSET_POINT;
     GL_POLYGON_SMOOTH;
     GL_PRIMITIVE_RESTART;
     GL_PRIMITIVE_RESTART_FIXED_INDEX;
     GL_RASTERIZER_DISCARD;
     GL_SAMPLE_ALPHA_TO_COVERAGE;
     GL_SAMPLE_ALPHA_TO_ONE;
     GL_SAMPLE_COVERAGE;
     GL_SAMPLE_SHADING;
     GL_SAMPLE_MASK;
     GL_SCISSOR_TEST;
     GL_STENCIL_TEST;
     GL_TEXTURE_CUBE_MAP_SEAMLESS;
     GL_PROGRAM_POINT_SIZE ].

Definition bufferTargetsMap : vec GLenum 14 :=
  [# GL_ARRAY_BUFFER;
     GL_ATOMIC_COUNTER_BUFFER;
     GL_COPY_READ_BUFFER;
     GL_COPY_WRITE_BUFFER;
     GL_DISPATCH_INDIRECT_BUFFER;
     GL_DRAW_INDIRECT_BUFFER;
     GL_ELEMENT_ARRAY_BUFFER;
     GL_PIXEL_PACK_BUFFER;
     GL_PIXEL_UNPACK_BUFFER;
     GL_QUERY_BUFFER;
     GL_SHADER_STORAGE_BUFFER;
     GL_TEXTURE_BUFFER;
     GL_TRANSFORM_FEEDBACK_BUFFER;
     GL_UNIFORM_BUFFER ].

Definition textureTargetsMap : vec GLenum 11 :=
  [# GL_TEXTURE_1D;
     GL_TEXTURE_2D;
     GL_TEXTURE_3D;
     GL_TEXTURE_1D_ARRAY;
     GL_TEXTURE_2D_ARRAY;
     GL_TEXTURE_RECTANGLE;
     GL_TEXTURE_CUBE_MAP;
     GL_TEXTURE_CUBE_MAP_ARRAY;
     GL_TEXTURE_BUFFER;
     GL_TEXTURE_2D_MULTISAMPLE;
     GL_TEXTURE_2D_MULTISAMPLE_ARRAY ].

Definition textureLayersMap : vec GLenum 32 :=
  [# GL_TEXTURE0; GL_TEXTURE1; GL_TEXTURE2; GL_TEXTURE3;
     GL_TEXTURE4; GL_TEXTURE5; GL_TEXTURE6; GL_TEXTURE7;
     GL_TEXTURE8; GL_TEXTURE9; GL_TEXTURE10; GL_TEXTURE11;
     GL_TEXTURE12; GL_TEXTURE13; GL_TEXTURE14; GL_TEXTURE15;
     GL_TEXTURE16; GL_TEXTURE17; GL_TEXTURE18; GL_TEXTURE19;
     GL_TEXTURE20; GL_TEXTURE21; GL_TEXTURE22; GL_TEXTURE23;
     GL_TEXTURE24; GL_TEXTURE25; GL_TEXTURE26; GL_TEXTURE27;
     GL_TEXTURE28; GL_TEXTURE29; GL_TEXTURE30; GL_TEXTURE31 ].

(** The sizes of the mirrored arrays.  GLStateManager.h is not among the
    sources; each abstract enumeration runs in lock-step with its table
    ([Reset] walks [stateCapsMap] with [i < numStates]), so the sizes are
    the lengths of the tables. *)
Definition numStates : nat := 27.
Definition numBufferTargets : nat := 14.
Definition numTextureTargets : nat := 11.
Definition numTextureLayers : nat := 32.

(* ================================================================= *)
(** ** The abstract enumerations *)

(** [enum class GLState], in the order of [stateCapsMap]. *)
Module GLState.
Inductive GLState :=
| BLEND
| COLOR_LOGIC_OP
| CULL_FACE
| DEBUG_OUTPUT
| DEBUG_OUTPUT_SYNCHRONOUS
| DEPTH_CLAMP
| DEPTH_TEST
| DITHER
| FRAMEBUFFER_SRGB
| LINE_SMOOTH
| MULTISAMPLE
| POLYGON_OFFSET_FILL
| POLYGON_OFFSET_LINE
| POLYGON_OFFSET_POINT
| POLYGON_SMOOTH
| PRIMITIVE_RESTART
| PRIMITIVE_RESTART_FIXED_INDEX
| RASTERIZER_DISCARD
| SAMPLE_ALPHA_TO_COVERAGE
| SAMPLE_ALPHA_TO_ONE
| SAMPLE_COVERAGE
| SAMPLE_SHADING
| SAMPLE_MASK
| SCISSOR_TEST
| STENCIL_TEST
| TEXTURE_CUBE_MAP_SEAMLESS
| PROGRAM_POINT_SIZE.

(** The underlying value of an enumerator. *)
Definition to_nat (s : GLState) : nat :=
  match s with
  | BLEND => 0 | COLOR_LOGIC_OP => 1 | CULL_FACE => 2 | DEBUG_OUTPUT => 3
  | DEBUG_OUTPUT_SYNCHRONOUS => 4 | DEPTH_CLAMP => 5 | DEPTH_TEST => 6
  | DITHER => 7 | FRAMEBUFFER_SRGB => 8 | LINE_SMOOTH => 9
  | MULTISAMPLE => 10 | POLYGON_OFFSET_FILL => 11
  | POLYGON_OFFSET_LINE => 12 | POLYGON_OFFSET_POINT => 13
  | POLYGON_SMOOTH => 14 | PRIMITIVE_RESTART => 15
  | PRIMITIVE_RESTART_FIXED_INDEX => 16 | RASTERIZER_DISCARD => 17
  | SAMPLE_ALPHA_TO_COVERAGE => 18 | SAMPLE_ALPHA_TO_ONE => 19
  | SAMPLE_COVERAGE => 20 | SAMPLE_SHADING => 21 | SAMPLE_MASK => 22
  | SCISSOR_TEST => 23 | STENCIL_TEST => 24
  | TEXTURE_CUBE_MAP_SEAMLESS => 25 | PROGRAM_POINT_SIZE => 26
  end%nat.

Lemma GLState_to_nat_lt (s : GLState) : (to_nat s < numStates)%nat.
Proof. destruct s; unfold numStates; simpl; lia. Qed.
End GLState.
Abbreviation GLState := GLState.GLState.

(** [enum class GLBufferTarget], in the order of [bufferTargetsMap]. *)
Module GLBufferTarget.
Inductive GLBufferTarget :=
| ARRAY_BUFFER
| ATOMIC_COUNTER_BUFFER
| COPY_READ_BUFFER
| COPY_WRITE_BUFFER
| DISPATCH_INDIRECT_BUFFER
| DRAW_INDIRECT_BUFFER
| ELEMENT_ARRAY_BUFFER
| PIXEL_PACK_BUFFER
| PIXEL_UNPACK_BUFFER
| QUERY_BUFFER
| SHADER_STORAGE_BUFFER
| TEXTURE_BUFFER
| TRANSFORM_FEEDBACK_BUFFER
| UNIFORM_BUFFER.

Definition to_nat (t : GLBufferTarget) : nat :=
  match t with
  | ARRAY_BUFFER => 0 | ATOMIC_COUNTER_BUFFER => 1 | COPY_READ_BUFFER => 2
  | COPY_WRITE_BUFFER => 3 | DISPATCH_INDIRECT_BUFFER => 4
  | DRAW_INDIRECT_BUFFER => 5 | ELEMENT_ARRAY_BUFFER => 6
  | PIXEL_PACK_BUFFER => 7 | PIXEL_UNPACK_BUFFER => 8 | QUERY_BUFFER => 9
  | SHADER_STORAGE_BUFFER => 10 | TEXTURE_BUFFER => 11
  | TRANSFORM_FEEDBACK_BUFFER => 12 | UNIFORM_BUFFER => 13
  end%nat.

Lemma GLBufferTarget_to_nat_lt (t : GLBufferTarget) : (to_nat t < numBufferTargets)%nat.
Proof. destruct t; unfold numBufferTargets; simpl; lia. Qed.
End GLBufferTarget.
Abbreviation GLBufferTarget := GLBufferTarget.GLBufferTarget.

(** [enum class GLTextureTarget], in the order of [textureTargetsMap]. *)
Module GLTextureTarget.
Inductive GLTextureTarget :=
| TEXTURE_1D
| TEXTURE_2D
| TEXTURE_3D
| TEXTURE_1D_ARRAY
| TEXTURE_2D_ARRAY
| TEXTURE_RECTANGLE
| TEXTURE_CUBE_MAP
| TEXTURE_CUBE_MAP_ARRAY
| TEXTURE_BUFFER
| TEXTURE_2D_MULTISAMPLE
| TEXTURE_2D_MULTISAMPLE_ARRAY.

Definition to_nat (t : GLTextureTarget) : nat :=
  match t with
  | TEXTURE_1D => 0 | TEXTURE_2D => 1 | TEXTURE_3D => 2
  | TEXTURE_1D_ARRAY => 3 | TEXTURE_2D_ARRAY => 4 | TEXTURE_RECTANGLE => 5
  | TEXTURE_CUBE_MAP => 6 | TEXTURE_CUBE_MAP_ARRAY => 7
  | TEXTURE_BUFFER => 8 | TEXTURE_2D_MULTISAMPLE => 9
  | TEXTURE_2D_MULTISAMPLE_ARRAY => 10
  end%nat.

Lemma GLTextureTarget_to_nat_lt (t : GLTextureTarget) : (to_nat t < numTextureTargets)%nat.
Proof. destruct t; unfold numTextureTargets; simpl; lia. Qed.
End GLTextureTarget.
Abbreviation GLTextureTarget := GLTextureTarget.GLTextureTarget.

(** [enum class TextureType] (LLGL/TextureFlags.h, not among the sources):
    the seven enumerators [GetTextureTarget] names, in its order, and the
    multi-sample ones that TextureFlags.cpp places after the array types. *)
Inductive TextureType :=
| Texture1D
| Texture2D
| Texture3D
| TextureCube
| Texture1DArray
| Texture2DArray
| TextureCubeArray
| Texture2DMS
| Texture2DMSArray.

#[global] Instance GLState_eq_dec : EqDecision GLState.
Proof. solve_decision. Defined.
#[global] Instance GLBufferTarget_eq_dec : EqDecision GLBufferTarget.
Proof. solve_decision. Defined.
#[global] Instance GLTextureTarget_eq_dec : EqDecision GLTextureTarget.
Proof. solve_decision. Defined.
#[global] Instance TextureType_eq_dec : EqDecision TextureType.
Proof. solve_decision. Defined.

(** [static_cast<std::size_t>(e)] as an index into the array that the
    enumeration runs in lock-step with. *)
Definition GLState_index (s : GLState) : fin numStates :=
  nat_to_fin (GLState.GLState_to_nat_lt s).
Definition GLBufferTarget_index (t : GLBufferTarget) : fin numBufferTargets :=
  nat_to_fin (GLBufferTarget.GLBufferTarget_to_nat_lt t).
Definition GLTextureTarget_index (t : GLTextureTarget) : fin numTextureTargets :=
  nat_to_fin (GLTextureTarget.GLTextureTarget_to_nat_lt t).

(** An [unsigned int] used as an index into an array of [n] elements:
    [None] when it is out of range. *)
Fixpoint fin_of_nat (n k : nat) : option (fin n) :=
  match n with
  | O => None
  | S n' =>
      match k with
      | O => Some Fin.F1
      | S k' => Fin.FS <$> fin_of_nat n' k'
      end
  end.

Definition layer_index (layer : GLuint) : option (fin numTextureLayers) :=
  if 0 <=? layer then fin_of_nat numTextureLayers (Z.to_nat layer) else None.

(* ================================================================= *)
(** ** The structures the cache mirrors *)

Module GLViewport.
Record GLViewport := Build
  { x : GLfloat; y : GLfloat; width : GLfloat; height : GLfloat }.
End GLViewport.
Abbreviation GLViewport := GLViewport.GLViewport.

Module GLDepthRange.
Record GLDepthRange := Build { minDepth : GLdouble; maxDepth : GLdouble }.
End GLDepthRange.
Abbreviation GLDepthRange := GLDepthRange.GLDepthRange.

Module GLScissor.
Record GLScissor := Build
  { x : GLint; y : GLint; width : GLsizei; height : GLsizei }.
End GLScissor.
Abbreviation GLScissor := GLScissor.GLScissor.

(** The colour mask, compared as a whole with [!=]. *)
Record ColorRGBA := { r : GLboolean; g : GLboolean; b : GLboolean; a : GLboolean }.

Module GLBlend.
Record GLBlend := Build
  { colorMask : ColorRGBA;
    srcColor : GLenum;
    destColor : GLenum;
    srcAlpha : GLenum;
    destAlpha : GLenum }.
End GLBlend.
Abbreviation GLBlend := GLBlend.GLBlend.

Record GLStencil :=
  { sfail : GLenum;
    dpfail : GLenum;
    dppass : GLenum;
    func : GLenum;
    ref : GLint;
    mask : GLuint;
    writeMask : GLuint }.

#[global] Instance ColorRGBA_eq_dec : EqDecision ColorRGBA.
Proof. solve_decision. Defined.
#[global] Instance GLStencil_eq_dec : EqDecision GLStencil.
Proof. solve_decision. Defined.

(** [renderState_]: the capability mirror and its save/restore stack.  A
    [std::stack] is a list whose head is the top. *)
Module RenderStackEntry.
Record StackEntry := Build { state : GLState; enabled : bool }.
End RenderStackEntry.

Record GLRenderState :=
  { values : vec bool numStates;
    valueStack : list RenderStackEntry.StackEntry }.

(** [bufferState_] *)
Module BufferStackEntry.
Record StackEntry := Build { target : GLBufferTarget; buffer : GLuint }.
End BufferStackEntry.

Record GLBufferState :=
  { boundBuffers : vec GLuint numBufferTargets;
    boundBufferStack : list BufferStackEntry.StackEntry }.

(** [textureState_] *)
Module TextureStackEntry.
Record StackEntry := Build
  { layer : GLuint; target : GLTextureTarget; texture : GLuint }.
End TextureStackEntry.

Record GLTextureLayer :=
  { boundTextures : vec GLuint numTextureTargets }.

Record GLTextureState :=
  { activeTexture : GLuint;
    layers : vec GLTextureLayer numTextureLayers;
    boundTextureStack : list TextureStackEntry.StackEntry }.

(** [shaderState_] *)
Record GLShaderState :=
  { boundProgram : GLuint;
    boundProgramStack : list GLuint }.

(** [commonState_]; [stencil] is the two-element array of the front and
    the back stencil state. *)
Record GLCommonState :=
  { colorMask : ColorRGBA;
    depthFunc : GLenum;
    stencil : vec GLStencil 2;
    polygonMode : GLenum;
    cullFace : GLenum;
    frontFace : GLenum;
    depthMask : GLboolean }.

(** The manager object.  [activeTextureLayer_] is a pointer to an element
    of [textureState_.layers]; it is carried as the index of the element it
    points to, so that a write through it lands in that element. *)
Record GLStateManager :=
  { renderState_ : GLRenderState;
    bufferState_ : GLBufferState;
    textureState_ : GLTextureState;
    shaderState_ : GLShaderState;
    commonState_ : GLCommonState;
    activeTextureLayer_ : fin numTextureLayers;
    currentContextHeight_ : GLint;
    emulateClipControl_ : bool }.

(** *** Member assignment *)

Definition set_renderState_ (v : GLRenderState) (m : GLStateManager) :=
  {| renderState_ := v;
     bufferState_ := bufferState_ m;
     textureState_ := textureState_ m;
     shaderState_ := shaderState_ m;
     commonState_ := commonState_ m;
     activeTextureLayer_ := activeTextureLayer_ m;
     currentContextHeight_ := currentContextHeight_ m;
     emulateClipControl_ := emulateClipControl_ m |}.

Definition set_bufferState_ (v : GLBufferState) (m : GLStateManager) :=
  {| renderState_ := renderState_ m;
     bufferState_ := v;
     textureState_ := textureState_ m;
     shaderState_ := shaderState_ m;
     commonState_ := commonState_ m;
     activeTextureLayer_ := activeTextureLayer_ m;
     currentContextHeight_ := currentContextHeight_ m;
     emulateClipControl_ := emulateClipControl_ m |}.

Definition set_textureState_ (v : GLTextureState) (m : GLStateManager) :=
  {| renderState_ := renderState_ m;
     bufferState_ := bufferState_ m;
     textureState_ := v;
     shaderState_ := shaderState_ m;
     commonState_ := commonState_ m;
     activeTextureLayer_ := activeTextureLayer_ m;
     currentContextHeight_ := currentContextHeight_ m;
     emulateClipControl_ := emulateClipControl_ m |}.

Definition set_shaderState_ (v : GLShaderState) (m : GLStateManager) :=
  {| renderState_ := renderState_ m;
     bufferState_ := bufferState_ m;
     textureState_ := textureState_ m;
     shaderState_ := v;
     commonState_ := commonState_ m;
     activeTextureLayer_ := activeTextureLayer_ m;
     currentContextHeight_ := currentContextHeight_ m;
     emulateClipControl_ := emulateClipControl_ m |}.

Definition set_commonState_ (v : GLCommonState) (m : GLStateManager) :=
  {| renderState_ := renderState_ m;
     bufferState_ := bufferState_ m;
     textureState_ := textureState_ m;
     shaderState_ := shaderState_ m;
     commonState_ := v;
     activeTextureLayer_ := activeTextureLayer_ m;
     currentContextHeight_ := currentContextHeight_ m;
     emulateClipControl_ := emulateClipControl_ m |}.

Definition set_activeTextureLayer_ (v : fin numTextureLayers) (m : GLStateManager) :=
  {| renderState_ := renderState_ m;
     bufferState_ := bufferState_ m;
     textureState_ := textureState_ m;
     shaderState_ := shaderState_ m;
     commonState_ := commonState_ m;
     activeTextureLayer_ := v;
     currentContextHeight_ := currentContextHeight_ m;
     emulateClipControl_ := emulateClipControl_ m |}.

Definition set_currentContextHeight_ (v : GLint) (m : GLStateManager) :=
  {| renderState_ := renderState_ m;
     bufferState_ := bufferState_ m;
     textureState_ := textureState_ m;
     shaderState_ := shaderState_ m;
     commonState_ := commonState_ m;
     activeTextureLayer_ := activeTextureLayer_ m;
     currentContextHeight_ := v;
     emulateClipControl_ := emulateClipControl_ m |}.

Definition set_emulateClipControl_ (v : bool) (m : GLStateManager) :=
  {| renderState_ := renderState_ m;
     bufferState_ := bufferState_ m;
     textureState_ := textureState_ m;
     shaderState_ := shaderState_ m;
     commonState_ := commonState_ m;
     activeTextureLayer_ := activeTextureLayer_ m;
     currentContextHeight_ := currentContextHeight_ m;
     emulateClipControl_ := v |}.

Definition set_values (v : vec bool numStates) (m : GLStateManager) :=
  set_renderState_
    {| values := v; valueStack := valueStack (renderState_ m) |} m.

Definition set_valueStack (v : list RenderStackEntry.StackEntry) (m : GLStateManager) :=
  set_renderState_
    {| values := values (renderState_ m); valueStack := v |} m.

Definition set_boundBuffers (v : vec GLuint numBufferTargets) (m : GLStateManager) :=
  set_bufferState_
    {| boundBuffers := v;
       boundBufferStack := boundBufferStack (bufferState_ m) |} m.

Definition set_boundBufferStack (v : list BufferStackEntry.StackEntry) (m : GLStateManager) :=
  set_bufferState_
    {| boundBuffers := boundBuffers (bufferState_ m);
       boundBufferStack := v |} m.

Definition set_activeTexture (v : GLuint) (m : GLStateManager) :=
  set_textureState_
    {| activeTexture := v;
       layers := layers (textureState_ m);
       boundTextureStack := boundTextureStack (textureState_ m) |} m.

Definition set_layers (v : vec GLTextureLayer numTextureLayers) (m : GLStateManager) :=
  set_textureState_
    {| activeTexture := activeTexture (textureState_ m);
       layers := v;
       boundTextureStack := boundTextureStack (textureState_ m) |} m.

Definition set_boundTextureStack (v : list TextureStackEntry.StackEntry) (m : GLStateManager) :=
  set_textureState_
    {| activeTexture := activeTexture (textureState_ m);
       layers := layers (textureState_ m);
       boundTextureStack := v |} m.

Definition set_boundProgram (v : GLuint) (m : GLStateManager) :=
  set_shaderState_
    {| boundProgram := v;
       boundProgramStack := boundProgramStack (shaderState_ m) |} m.

Definition set_boundProgramStack (v : list GLuint) (m : GLStateManager) :=
  set_shaderState_
    {| boundProgram := boundProgram (shaderState_ m);
       boundProgramStack := v |} m.

Definition set_colorMask (v : ColorRGBA) (m : GLStateManager) :=
  let c := commonState_ m in
  set_commonState_
    {| colorMask := v; depthFunc := depthFunc c; stencil := stencil c;
       polygonMode := polygonMode c; cullFace := cullFace c;
       frontFace := frontFace c; depthMask := depthMask c |} m.

Definition set_depthFunc (v : GLenum) (m : GLStateManager) :=
  let c := commonState_ m in
  set_commonState_
    {| colorMask := colorMask c; depthFunc := v; stencil := stencil c;
       polygonMode := polygonMode c; cullFace := cullFace c;
       frontFace := frontFace c; depthMask := depthMask c |} m.

Definition set_stencil (v : vec GLStencil 2) (m : GLStateManager) :=
  let c := commonState_ m in
  set_commonState_
    {| colorMask := colorMask c; depthFunc := depthFunc c; stencil := v;
       polygonMode := polygonMode c; cullFace := cullFace c;
       frontFace := frontFace c; depthMask := depthMask c |} m.

Definition set_polygonMode (v : GLenum) (m : GLStateManager) :=
  let c := commonState_ m in
  set_commonState_
    {| colorMask := colorMask c; depthFunc := depthFunc c; stencil := stencil c;
       polygonMode := v; cullFace := cullFace c;
       frontFace := frontFace c; depthMask := depthMask c |} m.

Definition set_cullFace (v : GLenum) (m : GLStateManager) :=
  let c := commonState_ m in
  set_commonState_
    {| colorMask := colorMask c; depthFunc := depthFunc c; stencil := stencil c;
       polygonMode := polygonMode c; cullFace := v;
       frontFace := frontFace c; depthMask := depthMask c |} m.

Definition set_frontFace (v : GLenum) (m : GLStateManager) :=
  let c := commonState_ m in
  set_commonState_
    {| colorMask := colorMask c; depthFunc := depthFunc c; stencil := stencil c;
       polygonMode := polygonMode c; cullFace := cullFace c;
       frontFace := v; depthMask := depthMask c |} m.

Definition set_depthMask (v : GLboolean) (m : GLStateManager) :=
  let c := commonState_ m in
  set_commonState_
    {| colorMask := colorMask c; depthFunc := depthFunc c; stencil := stencil c;
       polygonMode := polygonMode c; cullFace := cullFace c;
       frontFace := frontFace c; depthMask := v |} m.

(* ================================================================= *)
(** ** Native calls and the monad of the member functions *)

(** The OpenGL entry points the file calls, with their arguments. *)
Inductive GLCall :=
| glIsEnabled (cap : GLenum)
| glEnable (cap : GLenum)
| glDisable (cap : GLenum)
| glViewport (x y : GLint) (width height : GLsizei)
| glViewportArrayv (first : GLuint) (count : GLsizei) (v : list GLViewport)
| glDepthRange (n f : GLdouble)
| glDepthRangeArrayv (first : GLuint) (count : GLsizei) (v : list GLDepthRange)
| glScissor (x y : GLint) (width height : GLsizei)
| glScissorArrayv (first : GLuint) (count : GLsizei) (v : list GLScissor)
| glColorMask (r g b a : GLboolean)
| glColorMaski (buf : GLuint) (r g b a : GLboolean)
| glBlendFuncSeparate (srcRGB dstRGB srcAlpha dstAlpha : GLenum)
| glBlendFuncSeparatei (buf : GLuint) (srcRGB dstRGB srcAlpha dstAlpha : GLenum)
| glDrawBuffer (buf : GLenum)
| glDepthFunc (func : GLenum)
| glStencilOpSeparate (face sfail dpfail dppass : GLenum)
| glStencilFuncSeparate (face func : GLenum) (ref : GLint) (mask : GLuint)
| glStencilMaskSeparate (face : GLenum) (mask : GLuint)
| glPolygonMode (face mode : GLenum)
| glCullFace (mode : GLenum)
| glFrontFace (mode : GLenum)
| glDepthMask (flag : GLboolean)
| glBindBuffer (target : GLenum) (buffer : GLuint)
| glBindBufferBase (target : GLenum) (index buffer : GLuint)
| glBindVertexArray (array : GLuint)
| glActiveTexture (texture : GLenum)
| glBindTexture (target : GLenum) (texture : GLuint)
| glUseProgram (program : GLuint).

Inductive exception :=
| invalid_argument (what : string).

(** The outcome of running a member function on a manager object: it
    returns, with the object as it leaves it and the native calls it
    issued (oldest first); it throws, likewise; or its behaviour is
    undefined. *)
Inductive outcome (A : Type) :=
| Returns (a : A) (m : GLStateManager) (calls : list GLCall)
| Throws (e : exception) (m : GLStateManager) (calls : list GLCall)
| Undefined.
Arguments Returns {A} a m calls.
Arguments Throws {A} e m calls.
Arguments Undefined {A}.

Definition GL (A : Type) : Type := GLStateManager -> outcome A.

Definition ret {A} (a : A) : GL A := fun m => Returns a m [].

Definition bind {A B} (c : GL A) (k : A -> GL B) : GL B :=
  fun m =>
    match c m with
    | Returns a m1 calls1 =>
        match k a m1 with
        | Returns b m2 calls2 => Returns b m2 (calls1 ++ calls2)
        | Throws e m2 calls2 => Throws e m2 (calls1 ++ calls2)
        | Undefined => Undefined
        end
    | Throws e m1 calls1 => Throws e m1 calls1
    | Undefined => Undefined
    end.

Declare Scope gl_scope.
Delimit Scope gl_scope with gl.
Bind Scope gl_scope with GL.
Notation "x <- c ;; k" := (bind c (fun x => k))
  (at level 100, c at level 99, k at level 200, right associativity) : gl_scope.
Notation "c ;; k" := (bind c (fun _ => k))
  (at level 100, k at level 200, right associativity) : gl_scope.
Local Open Scope gl_scope.

(** Read a member. *)
Definition gets {A} (f : GLStateManager -> A) : GL A :=
  fun m => Returns (f m) m [].

(** Assign to a member. *)
Definition modify (f : GLStateManager -> GLStateManager) : GL unit :=
  fun m => Returns tt (f m) [].

(** Issue a native call. *)
Definition native (c : GLCall) : GL unit :=
  fun m => Returns tt m [c].

Definition throw {A} (e : exception) : GL A :=
  fun m => Throws e m [].

Definition undefined {A} : GL A :=
  fun _ => Undefined.

(** [if (c) body] with no [else]. *)
Definition when (c : bool) (body : GL unit) : GL unit :=
  if c then body else ret tt.

(** A range-based [for] over a container, in order. *)
Fixpoint for_each {A} (l : list A) (body : A -> GL unit) : GL unit :=
  match l with
  | [] => ret tt
  | x :: l' => body x ;; for_each l' body
  end.

(** The object an outcome leaves and the calls it issued. *)
Definition calls_of {A} (o : outcome A) : list GLCall :=
  match o with
  | Returns _ _ calls | Throws _ _ calls => calls
  | Undefined => []
  end.

(** Comparison of two values with [!=]. *)
Definition neq {A} `{EqDecision A} (x y : A) : bool := bool_decide (x <> y).

(** [static_cast<GLsizei>(n)] of a [std::size_t]. *)
Definition GLsizei_of_size (n : nat) : GLsizei :=
  (Z.of_nat n + 2 ^ 31) mod 2 ^ 32 - 2 ^ 31.

(** A subtraction of two [GLint]; signed overflow is undefined. *)
Definition GLint_sub (a b : GLint) : GL GLint :=
  if (GLint_min <=? a - b) && (a - b <=? GLint_max) then ret (a - b)
  else undefined.

(** Optional entry points, detected at run time: each is a function
    pointer of GLExtensions.h that is null when the driver lacks it. *)
Record GLExtensions :=
  { has_glViewportArrayv : bool;
    has_glDepthRangeArrayv : bool;
    has_glScissorArrayv : bool;
    has_glBlendFuncSeparatei : bool;
    has_glColorMaski : bool }.

(** The objects some overloads take. *)
Record GLRenderContext := { GetContextHeight : GLint }.

Record GLHardwareBuffer := { GetID : GLuint }.

Module GLVertexBuffer.
Record GLVertexBuffer := Build { hwBuffer : GLHardwareBuffer }.
End GLVertexBuffer.

Module GLIndexBuffer.
Record GLIndexBuffer := Build { hwBuffer : GLHardwareBuffer }.
End GLIndexBuffer.

Module GLConstantBuffer.
Record GLConstantBuffer := Build { hwBuffer : GLHardwareBuffer }.
End GLConstantBuffer.

Module GLTexture.
Record GLTexture := Build { GetType : TextureType; GetID : GLuint }.
End GLTexture.
Abbreviation GLTexture := GLTexture.GLTexture.

(* ================================================================= *)
(** ** GLStateManager: common *)

(** The body of the constructor, run on the object as its default member
    initialisers leave it. *)
Definition GLStateManager_ctor : GL unit :=
  modify (set_values (vreplicate numStates false)) ;;
  modify (set_boundBuffers (vreplicate numBufferTargets 0)) ;;
  modify (fun m =>
    set_layers
      (vmap (fun _ => {| boundTextures := vreplicate numTextureTargets 0 |})
            (layers (textureState_ m))) m) ;;
  modify (set_activeTextureLayer_ 0%fin).

Definition MakeCurrentInfo (renderContext : GLRenderContext) : GL unit :=
  modify (set_currentContextHeight_ (GetContextHeight renderContext)).

(* ================================================================= *)
(** ** Boolean states *)

(** [Reset] asks the driver for every capability; [driver] is what
    [glIsEnabled] answers. *)
Definition Reset (driver : GLenum -> GLboolean) : GL unit :=
  for_each (fin_enum numStates) (fun i =>
    native (glIsEnabled (stateCapsMap !!! i)) ;;
    modify (fun m =>
      set_values
        (vinsert i (neq (driver (stateCapsMap !!! i)) GL_FALSE)
                 (values (renderState_ m))) m)).

Definition Set_ (state : GLState) (value : bool) : GL unit :=
  let cap := GLState_index state in
  cur <- gets (fun m => values (renderState_ m) !!! cap) ;;
  when (neq cur value) (
    modify (fun m => set_values (vinsert cap value (values (renderState_ m))) m) ;;
    if value then native (glEnable (stateCapsMap !!! cap))
    else native (glDisable (stateCapsMap !!! cap))).

Definition Enable (state : GLState) : GL unit :=
  let cap := GLState_index state in
  cur <- gets (fun m => values (renderState_ m) !!! cap) ;;
  when (negb cur) (
    modify (fun m => set_values (vinsert cap true (values (renderState_ m))) m) ;;
    native (glEnable (stateCapsMap !!! cap))).

Definition Disable (state : GLState) : GL unit :=
  let cap := GLState_index state in
  cur <- gets (fun m => values (renderState_ m) !!! cap) ;;
  when cur (
    modify (fun m => set_values (vinsert cap false (values (renderState_ m))) m) ;;
    native (glDisable (stateCapsMap !!! cap))).

Definition IsEnabled (state : GLState) : GL bool :=
  gets (fun m => values (renderState_ m) !!! GLState_index state).

Definition PushState (state : GLState) : GL unit :=
  modify (fun m =>
    set_valueStack
      (RenderStackEntry.Build state (values (renderState_ m) !!! GLState_index state)
         :: valueStack (renderState_ m)) m).

Definition PopState : GL unit :=
  stack <- gets (fun m => valueStack (renderState_ m)) ;;
  match stack with
  | [] => undefined
  | state :: _ =>
      Set_ (RenderStackEntry.state state) (RenderStackEntry.enabled state) ;;
      modify (fun m => set_valueStack (tail (valueStack (renderState_ m))) m)
  end.

(** [while (count-- > 0) PopState();] *)
Fixpoint PopStates (count : nat) : GL unit :=
  match count with
  | O => ret tt
  | S count' => PopState ;; PopStates count'
  end.

(* ================================================================= *)
(** ** Common states *)

(** The setters below take their vector by non-const reference and adjust
    it in place; they return the vector as they leave it. *)

Definition AdjustViewport (viewport : GLViewport) : GL GLViewport :=
  h <- gets currentContextHeight_ ;;
  ret (GLViewport.Build
         (GLViewport.x viewport)
         (GLfloat_sub
            (GLfloat_sub (GLfloat_of_GLint h) (GLViewport.height viewport))
            (GLViewport.y viewport))
         (GLViewport.width viewport)
         (GLViewport.height viewport)).

(** A range-based [for] that updates each element in place. *)
Fixpoint for_each_ref {A} (l : list A) (body : A -> GL A) : GL (list A) :=
  match l with
  | [] => ret []
  | x :: l' => x' <- body x ;; l'' <- for_each_ref l' body ;; ret (x' :: l'')
  end.

Definition SetViewports (ext : GLExtensions) (viewports : list GLViewport)
  : GL (list GLViewport) :=
  match viewports with
  | [vp] =>
      emulate <- gets emulateClipControl_ ;;
      vp <- (if emulate then AdjustViewport vp else ret vp) ;;
      match GLint_of_GLfloat (GLViewport.x vp), GLint_of_GLfloat (GLViewport.y vp),
            GLint_of_GLfloat (GLViewport.width vp),
            GLint_of_GLfloat (GLViewport.height vp) with
      | Some x, Some y, Some width, Some height =>
          native (glViewport x y width height) ;; ret [vp]
      | _, _, _, _ => undefined
      end
  | _ :: _ :: _ =>
      if has_glViewportArrayv ext then
        emulate <- gets emulateClipControl_ ;;
        viewports <- (if emulate then for_each_ref viewports AdjustViewport
                      else ret viewports) ;;
        native (glViewportArrayv 0 (GLsizei_of_size (length viewports)) viewports) ;;
        ret viewports
      else ret viewports
  | [] => ret viewports
  end.

Definition SetDepthRanges (ext : GLExtensions) (depthRanges : list GLDepthRange)
  : GL unit :=
  match depthRanges with
  | [dr] =>
      native (glDepthRange (GLDepthRange.minDepth dr) (GLDepthRange.maxDepth dr))
  | _ :: _ :: _ =>
      when (has_glDepthRangeArrayv ext)
        (native (glDepthRangeArrayv 0 (GLsizei_of_size (length depthRanges))
                   depthRanges))
  | [] => ret tt
  end.

Definition AdjustScissor (scissor : GLScissor) : GL GLScissor :=
  h <- gets currentContextHeight_ ;;
  d <- GLint_sub h (GLScissor.height scissor) ;;
  y <- GLint_sub d (GLScissor.y scissor) ;;
  ret (GLScissor.Build (GLScissor.x scissor) y
         (GLScissor.width scissor) (GLScissor.height scissor)).

Definition SetScissors (ext : GLExtensions) (scissors : list GLScissor)
  : GL (list GLScissor) :=
  match scissors with
  | [sc] =>
      emulate <- gets emulateClipControl_ ;;
      sc <- (if emulate then AdjustScissor sc else ret sc) ;;
      native (glScissor (GLScissor.x sc) (GLScissor.y sc)
                (GLScissor.width sc) (GLScissor.height sc)) ;;
      ret [sc]
  | _ :: _ :: _ =>
      if has_glScissorArrayv ext then
        emulate <- gets emulateClipControl_ ;;
        scissors <- (if emulate then for_each_ref scissors AdjustScissor
                     else ret scissors) ;;
        native (glScissorArrayv 0 (GLsizei_of_size (length scissors)) scissors) ;;
        ret scissors
      else ret scissors
  | [] => ret scissors
  end.

Definition SetBlendState (ext : GLExtensions) (drawBuffer : GLuint)
    (state : GLBlend) (blendEnabled : bool) : GL unit :=
  let cm := GLBlend.colorMask state in
  if has_glBlendFuncSeparatei ext && has_glColorMaski ext then
    native (glColorMaski drawBuffer (r cm) (g cm) (b cm) (a cm)) ;;
    when blendEnabled
      (native (glBlendFuncSeparatei drawBuffer
                 (GLBlend.srcColor state) (GLBlend.destColor state)
                 (GLBlend.srcAlpha state) (GLBlend.destAlpha state)))
  else
    native (glDrawBuffer drawBuffer) ;;
    native (glColorMask (r cm) (g cm) (b cm) (a cm)) ;;
    when blendEnabled
      (native (glBlendFuncSeparate
                 (GLBlend.srcColor state) (GLBlend.destColor state)
                 (GLBlend.srcAlpha state) (GLBlend.destAlpha state))).

(** [for (const auto& state : blendStates) SetBlendState(drawBuffer++, ...)] *)
Fixpoint SetBlendStates_each (ext : GLExtensions) (drawBuffer : GLenum)
    (blendStates : list GLBlend) (blendEnabled : bool) : GL unit :=
  match blendStates with
  | [] => ret tt
  | state :: rest =>
      SetBlendState ext drawBuffer state blendEnabled ;;
      SetBlendStates_each ext (GLuint_wrap (drawBuffer + 1)) rest blendEnabled
  end.

Definition SetBlendStates (ext : GLExtensions) (blendStates : list GLBlend)
    (blendEnabled : bool) : GL unit :=
  match blendStates with
  | [state] =>
      let cm := GLBlend.colorMask state in
      cur <- gets (fun m => colorMask (commonState_ m)) ;;
      when (neq cur cm) (
        modify (set_colorMask cm) ;;
        native (glColorMask (r cm) (g cm) (b cm) (a cm))) ;;
      when blendEnabled
        (native (glBlendFuncSeparate
                   (GLBlend.srcColor state) (GLBlend.destColor state)
                   (GLBlend.srcAlpha state) (GLBlend.destAlpha state)))
  | _ :: _ :: _ =>
      SetBlendStates_each ext GL_COLOR_ATTACHMENT0 blendStates blendEnabled
  | [] => ret tt
  end.

Definition SetClipControl (origin depth : GLenum) : GL unit :=
  modify (set_emulateClipControl_ (bool_decide (origin = GL_UPPER_LEFT))).

Definition SetDepthFunc (func : GLenum) : GL unit :=
  cur <- gets (fun m => depthFunc (commonState_ m)) ;;
  when (neq cur func) (
    modify (set_depthFunc func) ;;
    native (glDepthFunc func)).

(** The private overload: [to] is a reference to an element of
    [commonState_.stencil], carried as its index. *)
Definition SetStencilState_to (face : GLenum) (to : fin 2) (from : GLStencil)
  : GL unit :=
  let read := gets (fun m => stencil (commonState_ m) !!! to) in
  let write (f : GLStencil -> GLStencil) :=
    modify (fun m =>
      set_stencil
        (vinsert to (f (stencil (commonState_ m) !!! to)) (stencil (commonState_ m)))
        m) in
  t <- read ;;
  when (neq (sfail t) (sfail from) || neq (dpfail t) (dpfail from)
        || neq (dppass t) (dppass from)) (
    write (fun t =>
      {| sfail := sfail from; dpfail := dpfail from; dppass := dppass from;
         func := func t; ref := ref t; mask := mask t;
         writeMask := writeMask t |}) ;;
    t <- read ;;
    native (glStencilOpSeparate face (sfail t) (dpfail t) (dppass t))) ;;
  t <- read ;;
  when (neq (func t) (func from) || neq (ref t) (ref from)
        || neq (mask t) (mask from)) (
    write (fun t =>
      {| sfail := sfail t; dpfail := dpfail t; dppass := dppass t;
         func := func from; ref := ref from; mask := mask from;
         writeMask := writeMask t |}) ;;
    t <- read ;;
    native (glStencilFuncSeparate face (func t) (ref t) (mask t))) ;;
  t <- read ;;
  when (neq (writeMask t) (writeMask from)) (
    write (fun t =>
      {| sfail := sfail t; dpfail := dpfail t; dppass := dppass t;
         func := func t; ref := ref t; mask := mask t;
         writeMask := writeMask from |}) ;;
    t <- read ;;
    native (glStencilMaskSeparate face (writeMask t))).

(** The public overload; a [face] that is none of the three cases falls
    through the [switch]. *)
Definition SetStencilState (face : GLenum) (state : GLStencil) : GL unit :=
  if decide (face = GL_FRONT) then
    SetStencilState_to GL_FRONT 0%fin state
  else if decide (face = GL_BACK) then
    SetStencilState_to GL_BACK 1%fin state
  else if decide (face = GL_FRONT_AND_BACK) then
    SetStencilState_to GL_FRONT 0%fin state ;;
    SetStencilState_to GL_BACK 1%fin state
  else ret tt.

Definition SetPolygonMode (mode : GLenum) : GL unit :=
  cur <- gets (fun m => polygonMode (commonState_ m)) ;;
  when (neq cur mode) (
    modify (set_polygonMode mode) ;;
    native (glPolygonMode GL_FRONT_AND_BACK mode)).

Definition SetCullFace (face : GLenum) : GL unit :=
  cur <- gets (fun m => cullFace (commonState_ m)) ;;
  when (neq cur face) (
    modify (set_cullFace face) ;;
    native (glCullFace face)).

Definition SetFrontFace (mode : GLenum) : GL unit :=
  cur <- gets (fun m => frontFace (commonState_ m)) ;;
  when (neq cur mode) (
    modify (set_frontFace mode) ;;
    native (glFrontFace mode)).

Definition SetDepthMask (flag : GLboolean) : GL unit :=
  cur <- gets (fun m => depthMask (commonState_ m)) ;;
  when (neq cur flag) (
    modify (set_depthMask flag) ;;
    native (glDepthMask flag)).

(* ================================================================= *)
(** ** Buffer binding *)

Definition BindBuffer (target : GLBufferTarget) (buffer : GLuint) : GL unit :=
  let targetIdx := GLBufferTarget_index target in
  cur <- gets (fun m => boundBuffers (bufferState_ m) !!! targetIdx) ;;
  when (neq cur buffer) (
    modify (fun m =>
      set_boundBuffers (vinsert targetIdx buffer (boundBuffers (bufferState_ m))) m) ;;
    native (glBindBuffer (bufferTargetsMap !!! targetIdx) buffer)).

Definition BindBufferBase (target : GLBufferTarget) (index buffer : GLuint)
  : GL unit :=
  let targetIdx := GLBufferTarget_index target in
  modify (fun m =>
    set_boundBuffers (vinsert targetIdx buffer (boundBuffers (bufferState_ m))) m) ;;
  native (glBindBufferBase (bufferTargetsMap !!! targetIdx) index buffer).

Definition BindVertexArray (buffer : GLuint) : GL unit :=
  native (glBindVertexArray buffer) ;;
  modify (fun m =>
    set_boundBuffers
      (vinsert (GLBufferTarget_index GLBufferTarget.ARRAY_BUFFER) 0
         (boundBuffers (bufferState_ m))) m) ;;
  modify (fun m =>
    set_boundBuffers
      (vinsert (GLBufferTarget_index GLBufferTarget.ELEMENT_ARRAY_BUFFER) 0
         (boundBuffers (bufferState_ m))) m).

Definition ForcedBindBuffer (target : GLBufferTarget) (buffer : GLuint)
  : GL unit :=
  let targetIdx := GLBufferTarget_index target in
  modify (fun m =>
    set_boundBuffers (vinsert targetIdx buffer (boundBuffers (bufferState_ m))) m) ;;
  native (glBindBuffer (bufferTargetsMap !!! targetIdx) buffer).

Definition PushBoundBuffer (target : GLBufferTarget) : GL unit :=
  modify (fun m =>
    set_boundBufferStack
      (BufferStackEntry.Build target
         (boundBuffers (bufferState_ m) !!! GLBufferTarget_index target)
         :: boundBufferStack (bufferState_ m)) m).

Definition PopBoundBuffer : GL unit :=
  stack <- gets (fun m => boundBufferStack (bufferState_ m)) ;;
  match stack with
  | [] => undefined
  | state :: _ =>
      BindBuffer (BufferStackEntry.target state) (BufferStackEntry.buffer state) ;;
      modify (fun m =>
        set_boundBufferStack (tail (boundBufferStack (bufferState_ m))) m)
  end.

Definition BindBuffer_GLVertexBuffer
    (vertexBuffer : GLVertexBuffer.GLVertexBuffer) : GL unit :=
  BindBuffer GLBufferTarget.ARRAY_BUFFER
    (GetID (GLVertexBuffer.hwBuffer vertexBuffer)).

Definition BindBuffer_GLIndexBuffer
    (indexBuffer : GLIndexBuffer.GLIndexBuffer) : GL unit :=
  BindBuffer GLBufferTarget.ELEMENT_ARRAY_BUFFER
    (GetID (GLIndexBuffer.hwBuffer indexBuffer)).

Definition BindBuffer_GLConstantBuffer
    (constantBuffer : GLConstantBuffer.GLConstantBuffer) : GL unit :=
  BindBuffer GLBufferTarget.UNIFORM_BUFFER
    (GetID (GLConstantBuffer.hwBuffer constantBuffer)).

(* ================================================================= *)
(** ** Texture binding *)

Definition ActiveTexture (layer : GLuint) : GL unit :=
  cur <- gets (fun m => activeTexture (textureState_ m)) ;;
  when (neq cur layer) (
    modify (set_activeTexture layer) ;;
    active <- gets (fun m => activeTexture (textureState_ m)) ;;
    match layer_index active, layer_index layer with
    | Some i, Some j =>
        modify (set_activeTextureLayer_ i) ;;
        native (glActiveTexture (textureLayersMap !!! j))
    | _, _ => undefined
    end).

(** Assignment to [activeTextureLayer_->boundTextures[targetIdx]]. *)
Definition set_boundTexture (l : fin numTextureLayers)
    (targetIdx : fin numTextureTargets) (texture : GLuint)
    (m : GLStateManager) : GLStateManager :=
  let ls := layers (textureState_ m) in
  set_layers
    (vinsert l {| boundTextures := vinsert targetIdx texture (boundTextures (ls !!! l)) |}
       ls) m.

Definition BindTexture (target : GLTextureTarget) (texture : GLuint) : GL unit :=
  let targetIdx := GLTextureTarget_index target in
  cur <- gets (fun m =>
    boundTextures (layers (textureState_ m) !!! activeTextureLayer_ m) !!! targetIdx) ;;
  when (neq cur texture) (
    modify (fun m => set_boundTexture (activeTextureLayer_ m) targetIdx texture m) ;;
    native (glBindTexture (textureTargetsMap !!! targetIdx) texture)).

Definition ForcedBindTexture (target : GLTextureTarget) (texture : GLuint)
  : GL unit :=
  let targetIdx := GLTextureTarget_index target in
  modify (fun m => set_boundTexture (activeTextureLayer_ m) targetIdx texture m) ;;
  native (glBindTexture (textureTargetsMap !!! targetIdx) texture).

Definition PushBoundTexture (layer : GLuint) (target : GLTextureTarget)
  : GL unit :=
  match layer_index layer with
  | Some i =>
      modify (fun m =>
        set_boundTextureStack
          (TextureStackEntry.Build layer target
             (boundTextures (layers (textureState_ m) !!! i)
                !!! GLTextureTarget_index target)
             :: boundTextureStack (textureState_ m)) m)
  | None => undefined
  end.

Definition PopBoundTexture : GL unit :=
  stack <- gets (fun m => boundTextureStack (textureState_ m)) ;;
  match stack with
  | [] => undefined
  | state :: _ =>
      ActiveTexture (TextureStackEntry.layer state) ;;
      BindTexture (TextureStackEntry.target state) (TextureStackEntry.texture state) ;;
      modify (fun m =>
        set_boundTextureStack (tail (boundTextureStack (textureState_ m))) m)
  end.

Definition GetTextureTarget (type : TextureType) : GL GLTextureTarget :=
  match type with
  | Texture1D => ret GLTextureTarget.TEXTURE_1D
  | Texture2D => ret GLTextureTarget.TEXTURE_2D
  | Texture3D => ret GLTextureTarget.TEXTURE_3D
  | TextureCube => ret GLTextureTarget.TEXTURE_CUBE_MAP
  | Texture1DArray => ret GLTextureTarget.TEXTURE_1D_ARRAY
  | Texture2DArray => ret GLTextureTarget.TEXTURE_2D_ARRAY
  | TextureCubeArray => ret GLTextureTarget.TEXTURE_CUBE_MAP_ARRAY
  | _ =>
      throw (invalid_argument
               "failed to convert texture type to OpenGL texture target")
  end.

Definition BindTexture_GLTexture (texture : GLTexture) : GL unit :=
  target <- GetTextureTarget (GLTexture.GetType texture) ;;
  BindTexture target (GLTexture.GetID texture).

Definition ForcedBindTexture_GLTexture (texture : GLTexture) : GL unit :=
  target <- GetTextureTarget (GLTexture.GetType texture) ;;
  ForcedBindTexture target (GLTexture.GetID texture).

(* ================================================================= *)
(** ** Shader binding *)

Definition BindShaderProgram (program : GLuint) : GL unit :=
  cur <- gets (fun m => boundProgram (shaderState_ m)) ;;
  when (neq cur program) (
    modify (set_boundProgram program) ;;
    native (glUseProgram program)).

Definition PushShaderProgram : GL unit :=
  modify (fun m =>
    set_boundProgramStack
      (boundProgram (shaderState_ m) :: boundProgramStack (shaderState_ m)) m).

Definition PopShaderProgram : GL unit :=
  stack <- gets (fun m => boundProgramStack (shaderState_ m)) ;;
  match stack with
  | [] => undefined
  | program :: _ =>
      BindShaderProgram program ;;
      modify (fun m =>
        set_boundProgramStack (tail (boundProgramStack (shaderState_ m))) m)
  end.

(* ================================================================= *)
(** ** The process: manager objects and the static [active] pointer *)

(** Manager objects live at addresses; [active] is the static member
    [GLStateManager::active], null until a manager is constructed. *)
Record Process :=
  { objects : list GLStateManager;
    active : option nat }.

Definition Process_start : Process := {| objects := []; active := None |}.

(** [new GLStateManager()]: the object is laid out at a fresh address with
    its default member initialisers applied ([init]), the constructor body
    runs on it, and the body's last statement stores [this] into
    [active].  The result is the process, the address of the new object
    and the native calls issued. *)
Definition GLStateManager_new (init : GLStateManager) (p : Process)
  : option (Process * nat * list GLCall) :=
  let this := length (objects p) in
  match GLStateManager_ctor init with
  | Returns _ m calls =>
      Some ({| objects := objects p ++ [m]; active := Some this |}, this, calls)
  | _ => None
  end.

(* ================================================================= *)
(** ** Sequences of calls on one manager *)

(** One call of a public member function, with its arguments. *)
Inductive Op :=
| OpMakeCurrentInfo (renderContext : GLRenderContext)
| OpReset (driver : GLenum -> GLboolean)
| OpSet (state : GLState) (value : bool)
| OpEnable (state : GLState)
| OpDisable (state : GLState)
| OpIsEnabled (state : GLState)
| OpPushState (state : GLState)
| OpPopState
| OpPopStates (count : nat)
| OpSetViewports (viewports : list GLViewport)
| OpSetDepthRanges (depthRanges : list GLDepthRange)
| OpSetScissors (scissors : list GLScissor)
| OpSetBlendStates (blendStates : list GLBlend) (blendEnabled : bool)
| OpSetClipControl (origin depth : GLenum)
| OpSetDepthFunc (func : GLenum)
| OpSetStencilState (face : GLenum) (state : GLStencil)
| OpSetPolygonMode (mode : GLenum)
| OpSetCullFace (face : GLenum)
| OpSetFrontFace (mode : GLenum)
| OpSetDepthMask (flag : GLboolean)
| OpBindBuffer (target : GLBufferTarget) (buffer : GLuint)
| OpBindBufferBase (target : GLBufferTarget) (index buffer : GLuint)
| OpBindVertexArray (buffer : GLuint)
| OpForcedBindBuffer (target : GLBufferTarget) (buffer : GLuint)
| OpPushBoundBuffer (target : GLBufferTarget)
| OpPopBoundBuffer
| OpBindBuffer_GLVertexBuffer (vertexBuffer : GLVertexBuffer.GLVertexBuffer)
| OpBindBuffer_GLIndexBuffer (indexBuffer : GLIndexBuffer.GLIndexBuffer)
| OpBindBuffer_GLConstantBuffer (constantBuffer : GLConstantBuffer.GLConstantBuffer)
| OpActiveTexture (layer : GLuint)
| OpBindTexture (target : GLTextureTarget) (texture : GLuint)
| OpForcedBindTexture (target : GLTextureTarget) (texture : GLuint)
| OpPushBoundTexture (layer : GLuint) (target : GLTextureTarget)
| OpPopBoundTexture
| OpBindTexture_GLTexture (texture : GLTexture)
| OpForcedBindTexture_GLTexture (texture : GLTexture)
| OpBindShaderProgram (program : GLuint)
| OpPushShaderProgram
| OpPopShaderProgram.

Definition call (ext : GLExtensions) (op : Op) : GL unit :=
  match op with
  | OpMakeCurrentInfo renderContext => MakeCurrentInfo renderContext
  | OpReset driver => Reset driver
  | OpSet state value => Set_ state value
  | OpEnable state => Enable state
  | OpDisable state => Disable state
  | OpIsEnabled state => IsEnabled state ;; ret tt
  | OpPushState state => PushState state
  | OpPopState => PopState
  | OpPopStates count => PopStates count
  | OpSetViewports viewports => SetViewports ext viewports ;; ret tt
  | OpSetDepthRanges depthRanges => SetDepthRanges ext depthRanges
  | OpSetScissors scissors => SetScissors ext scissors ;; ret tt
  | OpSetBlendStates blendStates blendEnabled =>
      SetBlendStates ext blendStates blendEnabled
  | OpSetClipControl origin depth => SetClipControl origin depth
  | OpSetDepthFunc func => SetDepthFunc func
  | OpSetStencilState face state => SetStencilState face state
  | OpSetPolygonMode mode => SetPolygonMode mode
  | OpSetCullFace face => SetCullFace face
  | OpSetFrontFace mode => SetFrontFace mode
  | OpSetDepthMask flag => SetDepthMask flag
  | OpBindBuffer target buffer => BindBuffer target buffer
  | OpBindBufferBase target index buffer => BindBufferBase target index buffer
  | OpBindVertexArray buffer => BindVertexArray buffer
  | OpForcedBindBuffer target buffer => ForcedBindBuffer target buffer
  | OpPushBoundBuffer target => PushBoundBuffer target
  | OpPopBoundBuffer => PopBoundBuffer
  | OpBindBuffer_GLVertexBuffer vertexBuffer => BindBuffer_GLVertexBuffer vertexBuffer
  | OpBindBuffer_GLIndexBuffer indexBuffer => BindBuffer_GLIndexBuffer indexBuffer
  | OpBindBuffer_GLConstantBuffer constantBuffer =>
      BindBuffer_GLConstantBuffer constantBuffer
  | OpActiveTexture layer => ActiveTexture layer
  | OpBindTexture target texture => BindTexture target texture
  | OpForcedBindTexture target texture => ForcedBindTexture target texture
  | OpPushBoundTexture layer target => PushBoundTexture layer target
  | OpPopBoundTexture => PopBoundTexture
  | OpBindTexture_GLTexture texture => BindTexture_GLTexture texture
  | OpForcedBindTexture_GLTexture texture => ForcedBindTexture_GLTexture texture
  | OpBindShaderProgram program => BindShaderProgram program
  | OpPushShaderProgram => PushShaderProgram
  | OpPopShaderProgram => PopShaderProgram
  end.

(** The calls of a list, one after the other. *)
Definition run (ext : GLExtensions) (ops : list Op) : GL unit :=
  for_each ops (call ext).

(** Counting the calls of one entry point in a log. *)
Definition count_calls (p : GLCall -> bool) (calls : list GLCall) : nat :=
  length (List.filter p calls).

Definition is_glBindBuffer (c : GLCall) : bool :=
  match c with glBindBuffer _ _ => true | _ => false end.
Definition is_glBindTexture (c : GLCall) : bool :=
  match c with glBindTexture _ _ => true | _ => false end.
Definition is_glUseProgram (c : GLCall) : bool :=
  match c with glUseProgram _ => true | _ => false end.

(** *** Mirror accessors used in the statements *)

Definition mirrored_state (m : GLStateManager) (state : GLState) : bool :=
  values (renderState_ m) !!! GLState_index state.

Definition mirrored_buffer (m : GLStateManager) (target : GLBufferTarget) : GLuint :=
  boundBuffers (bufferState_ m) !!! GLBufferTarget_index target.

Definition mirrored_texture (m : GLStateManager) (l : fin numTextureLayers)
    (target : GLTextureTarget) : GLuint :=
  boundTextures (layers (textureState_ m) !!! l) !!! GLTextureTarget_index target.

(** The native transition of a capability. *)
Definition transition (state : GLState) (value : bool) : GLCall :=
  if value then glEnable (stateCapsMap !!! GLState_index state)
  else glDisable (stateCapsMap !!! GLState_index state).

(** A manager object with every member zero, empty or false, as a
    concrete object for the constructor to run on. *)
Definition zero_stencil : GLStencil :=
  {| sfail := 0; dpfail := 0; dppass := 0; func := 0; ref := 0; mask := 0;
     writeMask := 0 |}.

Definition zero_object : GLStateManager :=
  {| renderState_ := {| values := vreplicate numStates false; valueStack := [] |};
     bufferState_ :=
       {| boundBuffers := vreplicate numBufferTargets 0; boundBufferStack := [] |};
     textureState_ :=
       {| activeTexture := 0;
          layers :=
            vreplicate numTextureLayers
              {| boundTextures := vreplicate numTextureTargets 0 |};
          boundTextureStack := [] |};
     shaderState_ := {| boundProgram := 0; boundProgramStack := [] |};
     commonState_ :=
       {| colorMask := {| r := 0; g := 0; b := 0; a := 0 |};
          depthFunc := 0;
          stencil := [# zero_stencil; zero_stencil ];
          polygonMode := 0;
          cullFace := 0;
          frontFace := 0;
          depthMask := 0 |};
     activeTextureLayer_ := 0%fin;
     currentContextHeight_ := 0;
     emulateClipControl_ := false |}.

Definition no_extensions : GLExtensions :=
  {| has_glViewportArrayv := false;
     has_glDepthRangeArrayv := false;
     has_glScissorArrayv := false;
     has_glBlendFuncSeparatei := false;
     has_glColorMaski := false |}.

(* ================================================================= *)
(** ** Vocabulary of the statements *)

(** Assignment to [renderState_.values[C]]. *)
Definition assign_state (m : GLStateManager) (C : GLState) (b : bool) :=
  set_values (vinsert (GLState_index C) b (values (renderState_ m))) m.

(** *** Save/restore discipline

    How many entries a call pushes on, and pops off, the capability stack
    and the buffer stack. *)
Definition state_pushes (op : Op) : nat :=
  match op with OpPushState _ => 1 | _ => 0 end.
Definition state_pops (op : Op) : nat :=
  match op with OpPopState => 1 | OpPopStates count => count | _ => 0 end.
Definition buffer_pushes (op : Op) : nat :=
  match op with OpPushBoundBuffer _ => 1 | _ => 0 end.
Definition buffer_pops (op : Op) : nat :=
  match op with OpPopBoundBuffer => 1 | _ => 0 end.

(** The depth of a stack after a list of calls that starts at depth [d];
    [None] when a call pops below the starting level. *)
Fixpoint depth_after (pushes pops : Op -> nat) (d : nat) (ops : list Op)
  : option nat :=
  match ops with
  | [] => Some d
  | op :: ops' =>
      if (pops op <=? d)%nat
      then depth_after pushes pops (d - pops op + pushes op) ops'
      else None
  end.

(** Every pop in the list has its push in the list. *)
Definition balanced (pushes pops : Op -> nat) (ops : list Op) : Prop :=
  depth_after pushes pops 0 ops = Some 0%nat.

(** A computation that leaves an observation [f] of the object as it
    found it, whenever it returns. *)
Definition preserves {X A} (f : GLStateManager -> X) (c : GL A) : Prop :=
  forall m a m' calls, c m = Returns a m' calls -> f m' = f m.

(** Assignment to [bufferState_.boundBuffers[t]]. *)
Definition assign_buffer (m : GLStateManager) (t : GLBufferTarget) (b : GLuint) :=
  set_boundBuffers
    (vinsert (GLBufferTarget_index t) b (boundBuffers (bufferState_ m))) m.

(** A saved slot: a capability or a buffer target. *)
Inductive Slot :=
| StateSlot (state : GLState)
| BufferSlot (target : GLBufferTarget).

Definition push_op (s : Slot) : Op :=
  match s with
  | StateSlot state => OpPushState state
  | BufferSlot target => OpPushBoundBuffer target
  end.

Definition pop_op (s : Slot) : Op :=
  match s with
  | StateSlot _ => OpPopState
  | BufferSlot _ => OpPopBoundBuffer
  end.

Definition balanced_for (s : Slot) (ops : list Op) : Prop :=
  match s with
  | StateSlot _ => balanced state_pushes state_pops ops
  | BufferSlot _ => balanced buffer_pushes buffer_pops ops
  end.

(** The mirrored value of a slot agrees in two objects. *)
Definition same_mirror (s : Slot) (m1 m2 : GLStateManager) : Prop :=
  match s with
  | StateSlot state => mirrored_state m1 state = mirrored_state m2 state
  | BufferSlot target => mirrored_buffer m1 target = mirrored_buffer m2 target
  end.

Definition same_stack (s : Slot) (m1 m2 : GLStateManager) : Prop :=
  match s with
  | StateSlot _ => valueStack (renderState_ m1) = valueStack (renderState_ m2)
  | BufferSlot _ =>
      boundBufferStack (bufferState_ m1) = boundBufferStack (bufferState_ m2)
  end.

#[global] Instance same_mirror_dec s m1 m2 : Decision (same_mirror s m1 m2).
Proof. destruct s; simpl; apply _. Defined.

(** The native call that brings the driver back to the value [m] mirrors
    for the slot. *)
Definition restore_call (s : Slot) (m : GLStateManager) : GLCall :=
  match s with
  | StateSlot state => transition state (mirrored_state m state)
  | BufferSlot target =>
      glBindBuffer (bufferTargetsMap !!! GLBufferTarget_index target)
        (mirrored_buffer m target)
  end.

(** The manager the constructor leaves when it runs on [zero_object]. *)
Definition fresh_manager : GLStateManager :=
  match GLStateManager_ctor zero_object with
  | Returns _ m _ => m
  | _ => zero_object
  end.

(** A redundancy-checked binding point: the calls that bind a handle to
    it, the handle it mirrors and the native call a bind issues. *)
Inductive BindingPoint :=
| BufferPoint (target : GLBufferTarget)
| TexturePoint (target : GLTextureTarget)
| ProgramPoint.

Definition bind_op (p : BindingPoint) (handle : GLuint) : Op :=
  match p with
  | BufferPoint target => OpBindBuffer target handle
  | TexturePoint target => OpBindTexture target handle
  | ProgramPoint => OpBindShaderProgram handle
  end.

Definition mirrored_handle (p : BindingPoint) (m : GLStateManager) : GLuint :=
  match p with
  | BufferPoint target => mirrored_buffer m target
  | TexturePoint target => mirrored_texture m (activeTextureLayer_ m) target
  | ProgramPoint => boundProgram (shaderState_ m)
  end.

Definition native_bind (p : BindingPoint) (handle : GLuint) : GLCall :=
  match p with
  | BufferPoint target =>
      glBindBuffer (bufferTargetsMap !!! GLBufferTarget_index target) handle
  | TexturePoint target =>
      glBindTexture (textureTargetsMap !!! GLTextureTarget_index target) handle
  | ProgramPoint => glUseProgram handle
  end.

Definition is_native_bind (p : BindingPoint) (c : GLCall) : bool :=
  match p with
  | BufferPoint _ => is_glBindBuffer c
  | TexturePoint _ => is_glBindTexture c
  | ProgramPoint => is_glUseProgram c
  end.

(** *** Stencil state

    The native calls [SetStencilState] owes for one face: one per
    sub-field group in which the mirrored state [to] differs from the
    requested state [from]. *)
Definition stencil_calls (face : GLenum) (to from : GLStencil) : list GLCall :=
  (if decide (sfail to = sfail from /\ dpfail to = dpfail from
              /\ dppass to = dppass from) then []
   else [glStencilOpSeparate face (sfail from) (dpfail from) (dppass from)])
  ++ (if decide (func to = func from /\ ref to = ref from /\ mask to = mask from)
      then []
      else [glStencilFuncSeparate face (func from) (ref from) (mask from)])
  ++ (if decide (writeMask to = writeMask from) then []
      else [glStencilMaskSeparate face (writeMask from)]).

Definition assign_stencil (m : GLStateManager) (i : fin 2) (s : GLStencil) :=
  set_stencil (vinsert i s (stencil (commonState_ m))) m.

Definition with_writeMask (s : GLStencil) (w : GLuint) : GLStencil :=
  {| sfail := sfail s; dpfail := dpfail s; dppass := dppass s;
     func := func s; ref := ref s; mask := mask s; writeMask := w |}.

(** *** Texture types

    The seven texture types [GetTextureTarget] maps. *)
Definition is_mapped_type (type : TextureType) : bool :=
  match type with
  | Texture1D | Texture2D | Texture3D | TextureCube
  | Texture1DArray | Texture2DArray | TextureCubeArray => true
  | _ => false
  end.

Definition conversion_failure : exception :=
  invalid_argument "failed to convert texture type to OpenGL texture target".

(** The pointer [activeTextureLayer_] points to the layer that
    [textureState_.activeTexture] names. *)
Definition coherent (m : GLStateManager) : Prop :=
  layer_index (activeTexture (textureState_ m)) = Some (activeTextureLayer_ m).

(** The two assignments of [ActiveTexture]. *)
Definition activate (m : GLStateManager) (layer : GLuint) (i : fin numTextureLayers) :=
  set_activeTextureLayer_ i (set_activeTexture layer m).

(** The end-to-end scenario of the specification. *)
Definition end_to_end : list Op :=
  [ OpActiveTexture 2;
    OpBindTexture GLTextureTarget.TEXTURE_2D 7;
    OpPushBoundTexture 2 GLTextureTarget.TEXTURE_2D;
    OpBindTexture GLTextureTarget.TEXTURE_2D 9;
    OpPopBoundTexture ].

(** Bind on layer [L], bind another handle on layer [L'], come back. *)
Definition isolation_scenario (L L' : GLuint) (T : GLTextureTarget)
    (H H' : GLuint) : list Op :=
  [ OpActiveTexture L; OpBindTexture T H;
    OpActiveTexture L'; OpBindTexture T H';
    OpActiveTexture L ].

(** The active layer as the object records it, twice. *)
Definition active_layer (m : GLStateManager) : GLuint * fin numTextureLayers :=
  (activeTexture (textureState_ m), activeTextureLayer_ m).

(** The texture target of a mapped texture type. *)
Definition texture_target (type : TextureType) : option GLTextureTarget :=
  match type with
  | Texture1D => Some GLTextureTarget.TEXTURE_1D
  | Texture2D => Some GLTextureTarget.TEXTURE_2D
  | Texture3D => Some GLTextureTarget.TEXTURE_3D
  | TextureCube => Some GLTextureTarget.TEXTURE_CUBE_MAP
  | Texture1DArray => Some GLTextureTarget.TEXTURE_1D_ARRAY
  | Texture2DArray => Some GLTextureTarget.TEXTURE_2D_ARRAY
  | TextureCubeArray => Some GLTextureTarget.TEXTURE_CUBE_MAP_ARRAY
  | _ => None
  end.

(** The value a call asks for is the value the cache mirrors for it.
    [PopStates] asks for the saved value of every entry it pops, and
    [SetBlendStates] for the colour mask of every blend state it is given.
    The calls in the last case ask for nothing the cache mirrors: they
    take no value, or only read or save one, or send a value of which the
    manager keeps no copy (viewports, depth ranges, scissors, the vertex
    array). *)
Definition requests_mirrored_value (op : Op) (m : GLStateManager) : Prop :=
  match op with
  | OpSet state value => mirrored_state m state = value
  | OpEnable state => mirrored_state m state = true
  | OpDisable state => mirrored_state m state = false
  | OpPopState =>
      exists e st, valueStack (renderState_ m) = e :: st
        /\ mirrored_state m (RenderStackEntry.state e) = RenderStackEntry.enabled e
  | OpPopStates count =>
      (count <= length (valueStack (renderState_ m)))%nat
      /\ Forall (fun e =>
                   mirrored_state m (RenderStackEntry.state e)
                     = RenderStackEntry.enabled e)
           (take count (valueStack (renderState_ m)))
  | OpSetBlendStates blendStates _ =>
      Forall (fun state => colorMask (commonState_ m) = GLBlend.colorMask state)
        blendStates
  | OpSetDepthFunc func => depthFunc (commonState_ m) = func
  | OpSetStencilState face state =>
      (face = GL_FRONT \/ face = GL_FRONT_AND_BACK ->
       stencil (commonState_ m) !!! (0%fin : fin 2) = state)
      /\ (face = GL_BACK \/ face = GL_FRONT_AND_BACK ->
          stencil (commonState_ m) !!! (1%fin : fin 2) = state)
  | OpSetPolygonMode mode => polygonMode (commonState_ m) = mode
  | OpSetCullFace face => cullFace (commonState_ m) = face
  | OpSetFrontFace mode => frontFace (commonState_ m) = mode
  | OpSetDepthMask flag => depthMask (commonState_ m) = flag
  | OpBindBuffer target buffer
  | OpBindBufferBase target _ buffer
  | OpForcedBindBuffer target buffer => mirrored_buffer m target = buffer
  | OpPopBoundBuffer =>
      exists e st, boundBufferStack (bufferState_ m) = e :: st
        /\ mirrored_buffer m (BufferStackEntry.target e) = BufferStackEntry.buffer e
  | OpBindBuffer_GLVertexBuffer vertexBuffer =>
      mirrored_buffer m GLBufferTarget.ARRAY_BUFFER
        = GetID (GLVertexBuffer.hwBuffer vertexBuffer)
  | OpBindBuffer_GLIndexBuffer indexBuffer =>
      mirrored_buffer m GLBufferTarget.ELEMENT_ARRAY_BUFFER
        = GetID (GLIndexBuffer.hwBuffer indexBuffer)
  | OpBindBuffer_GLConstantBuffer constantBuffer =>
      mirrored_buffer m GLBufferTarget.UNIFORM_BUFFER
        = GetID (GLConstantBuffer.hwBuffer constantBuffer)
  | OpActiveTexture layer => activeTexture (textureState_ m) = layer
  | OpBindTexture target texture
  | OpForcedBindTexture target texture =>
      mirrored_texture m (activeTextureLayer_ m) target = texture
  | OpPopBoundTexture =>
      exists e st, boundTextureStack (textureState_ m) = e :: st
        /\ activeTexture (textureState_ m) = TextureStackEntry.layer e
        /\ mirrored_texture m (activeTextureLayer_ m) (TextureStackEntry.target e)
             = TextureStackEntry.texture e
  | OpBindTexture_GLTexture texture
  | OpForcedBindTexture_GLTexture texture =>
      exists target,
        texture_target (GLTexture.GetType texture) = Some target
        /\ mirrored_texture m (activeTextureLayer_ m) target
             = GLTexture.GetID texture
  | OpBindShaderProgram program => boundProgram (shaderState_ m) = program
  | OpPopShaderProgram =>
      exists program st, boundProgramStack (shaderState_ m) = program :: st
        /\ boundProgram (shaderState_ m) = program
  | OpMakeCurrentInfo _ | OpReset _ | OpIsEnabled _ | OpSetClipControl _ _
  | OpPushState _ | OpPushBoundBuffer _ | OpPushBoundTexture _ _
  | OpPushShaderProgram
  | OpSetViewports _ | OpSetDepthRanges _ | OpSetScissors _
  | OpBindVertexArray _ => False
  end.

(** The calls whose source compares with the mirror before every native
    call they can issue. *)
Definition redundancy_checked (op : Op) : bool :=
  match op with
  | OpSet _ _ | OpEnable _ | OpDisable _ | OpPopState | OpPopStates _
  | OpSetBlendStates [] _ | OpSetBlendStates [_] false
  | OpSetDepthFunc _ | OpSetStencilState _ _ | OpSetPolygonMode _
  | OpSetCullFace _ | OpSetFrontFace _ | OpSetDepthMask _
  | OpBindBuffer _ _ | OpPopBoundBuffer
  | OpBindBuffer_GLVertexBuffer _ | OpBindBuffer_GLIndexBuffer _
  | OpBindBuffer_GLConstantBuffer _
  | OpActiveTexture _ | OpBindTexture _ _ | OpPopBoundTexture
  | OpBindTexture_GLTexture _
  | OpBindShaderProgram _ | OpPopShaderProgram => true
  | _ => false
  end.

(** The calls that send their value without a comparison on purpose: the
    binds the source comments as forced or as always made, and the blend
    function of a single blend state, of which the manager keeps no
    copy. *)
Definition unconditional (op : Op) : bool :=
  match op with
  | OpBindBufferBase _ _ _ | OpForcedBindBuffer _ _
  | OpForcedBindTexture _ _ | OpForcedBindTexture_GLTexture _
  | OpSetBlendStates [_] true => true
  | _ => false
  end.

(** The calls that send a value of which the manager keeps no copy. *)
Definition unmirrored (op : Op) : bool :=
  match op with
  | OpSetViewports _ | OpSetDepthRanges _ | OpSetScissors _
  | OpBindVertexArray _ => true
  | _ => false
  end.

(** The native calls of an outcome, when the behaviour is defined. *)
Definition log_of {A} (o : outcome A) : option (list GLCall) :=
  match o with
  | Returns _ _ calls | Throws _ _ calls => Some calls
  | Undefined => None
  end.

(** Two objects with the same context height and clip-control flag: the
    two members that are no mirror of a driver value. *)
Definition same_context (m1 m2 : GLStateManager) : Prop :=
  emulateClipControl_ m1 = emulateClipControl_ m2
  /\ currentContextHeight_ m1 = currentContextHeight_ m2.

(** A computation that leaves the object alone and whose result and calls
    depend on the object through its context only. *)
Definition reads_context {A} (c : GL A) : Prop :=
  forall m1 m2, same_context m1 m2 ->
    (c m1 = Undefined /\ c m2 = Undefined)
    \/ exists a calls, c m1 = Returns a m1 calls /\ c m2 = Returns a m2 calls.

(** A computation that returns on every manager object. *)
Definition returns {A} (c : GL A) : Prop :=
  forall m, exists a m' calls, c m = Returns a m' calls.

(** The calls that return whatever the manager holds: those that index no
    array with a number, pop no stack, convert no floating-point number
    and no texture type. *)
Definition always_returns (op : Op) : bool :=
  match op with
  | OpPopState | OpPopStates _ | OpPopBoundBuffer | OpPopBoundTexture
  | OpPopShaderProgram
  | OpSetViewports _ | OpSetScissors _ => false
  | OpActiveTexture layer
  | OpPushBoundTexture layer _ => bool_decide (is_Some (layer_index layer))
  | OpBindTexture_GLTexture texture
  | OpForcedBindTexture_GLTexture texture =>
      is_mapped_type (GLTexture.GetType texture)
  | _ => true
  end.

(** The calls a body may make between a push of slot [s] and its pop for
    the body to be sure to return: the calls above and the pops of the
    stack of [s]. *)
Definition in_discipline (s : Slot) (op : Op) : bool :=
  always_returns op
  || match s, op with
     | StateSlot _, (OpPopState | OpPopStates _) => true
     | BufferSlot _, OpPopBoundBuffer => true
     | _, _ => false
     end.

(* ================================================================= *)
(** ** Vocabulary of the further properties *)

(** What [Reset] stores for a capability: the driver's answer compared
    with [GL_FALSE]. *)
Definition driver_enabled (driver : GLenum -> GLboolean) (cap : GLenum) : bool :=
  neq (driver cap) GL_FALSE.

(** The scalar states with a mirror of their own. *)
Inductive ScalarState :=
| DepthFunc
| PolygonMode
| CullFace
| FrontFace
| DepthMask
| ShaderProgram.

#[global] Instance ScalarState_eq_dec : EqDecision ScalarState.
Proof. solve_decision. Defined.

(** The setter of a scalar state, its mirror and its native call. *)
Definition scalar_op (k : ScalarState) (v : Z) : Op :=
  match k with
  | DepthFunc => OpSetDepthFunc v
  | PolygonMode => OpSetPolygonMode v
  | CullFace => OpSetCullFace v
  | FrontFace => OpSetFrontFace v
  | DepthMask => OpSetDepthMask v
  | ShaderProgram => OpBindShaderProgram v
  end.

Definition scalar_mirror (k : ScalarState) (m : GLStateManager) : Z :=
  match k with
  | DepthFunc => depthFunc (commonState_ m)
  | PolygonMode => polygonMode (commonState_ m)
  | CullFace => cullFace (commonState_ m)
  | FrontFace => frontFace (commonState_ m)
  | DepthMask => depthMask (commonState_ m)
  | ShaderProgram => boundProgram (shaderState_ m)
  end.

Definition scalar_call (k : ScalarState) (v : Z) : GLCall :=
  match k with
  | DepthFunc => glDepthFunc v
  | PolygonMode => glPolygonMode GL_FRONT_AND_BACK v
  | CullFace => glCullFace v
  | FrontFace => glFrontFace v
  | DepthMask => glDepthMask v
  | ShaderProgram => glUseProgram v
  end.

(** The entries a list of pushes leaves on the stack, top first. *)
Definition pushed_entries (m : GLStateManager) (states : list GLState)
  : list RenderStackEntry.StackEntry :=
  rev (map (fun C => RenderStackEntry.Build C (mirrored_state m C)) states).

(** The stack of a slot: what a call pushes and pops, and its depth. *)
Definition slot_pushes (s : Slot) : Op -> nat :=
  match s with StateSlot _ => state_pushes | BufferSlot _ => buffer_pushes end.
Definition slot_pops (s : Slot) : Op -> nat :=
  match s with StateSlot _ => state_pops | BufferSlot _ => buffer_pops end.
Definition slot_depth (s : Slot) (m : GLStateManager) : nat :=
  match s with
  | StateSlot _ => length (valueStack (renderState_ m))
  | BufferSlot _ => length (boundBufferStack (bufferState_ m))
  end.

(** What a call pushes on and pops off the texture stack and the
    program stack. *)
Definition texture_pushes (op : Op) : nat :=
  match op with OpPushBoundTexture _ _ => 1 | _ => 0 end.
Definition texture_pops (op : Op) : nat :=
  match op with OpPopBoundTexture => 1 | _ => 0 end.
Definition program_pushes (op : Op) : nat :=
  match op with OpPushShaderProgram => 1 | _ => 0 end.
Definition program_pops (op : Op) : nat :=
  match op with OpPopShaderProgram => 1 | _ => 0 end.

(** What a log of native calls leaves in the driver for one capability
    that held [cur] before: [glEnable] and [glDisable] of that capability
    set it, every other call leaves it. *)
Definition toggle (cap : GLenum) (cur : bool) (c : GLCall) : bool :=
  match c with
  | glEnable cap' => if decide (cap' = cap) then true else cur
  | glDisable cap' => if decide (cap' = cap) then false else cur
  | _ => cur
  end.

Definition capability_after (cap : GLenum) (cur : bool) (calls : list GLCall)
  : bool :=
  foldl (toggle cap) cur calls.

(** Likewise for the value of a scalar state: the entry point of the
    state replaces it. *)
Definition scalar_sent (k : ScalarState) (cur : Z) (c : GLCall) : Z :=
  match k, c with
  | DepthFunc, glDepthFunc v => v
  | PolygonMode, glPolygonMode face v =>
      if decide (face = GL_FRONT_AND_BACK) then v else cur
  | CullFace, glCullFace v => v
  | FrontFace, glFrontFace v => v
  | DepthMask, glDepthMask v => v
  | ShaderProgram, glUseProgram v => v
  | _, _ => cur
  end.

Definition scalar_after (k : ScalarState) (cur : Z) (calls : list GLCall) : Z :=
  foldl (scalar_sent k) cur calls.

(** The one call whose result comes from the driver's answers. *)
Definition is_reset (op : Op) : bool :=
  match op with OpReset _ => true | _ => false end.

(** A computation whose effect on an observation [f] of the object is
    the one its native calls spell out, folded with [upd]. *)
Definition tracks {X A} (f : GLStateManager -> X) (upd : X -> GLCall -> X)
    (c : GL A) : Prop :=
  forall m a m' calls, c m = Returns a m' calls -> f m' = foldl upd (f m) calls.

(** What a log leaves in the driver for one texture unit and target: the
    selected unit, and the texture bound to [target] on [unit].
    [glActiveTexture] selects a unit; [glBindTexture] binds on the
    selected unit. *)
Definition texture_sent (unit target : GLenum) (cur : GLenum * GLuint)
    (c : GLCall) : GLenum * GLuint :=
  match c with
  | glActiveTexture unit' => (unit', cur.2)
  | glBindTexture target' texture =>
      if decide (cur.1 = unit /\ target' = target) then (cur.1, texture) else cur
  | _ => cur
  end.

Definition texture_after (unit target : GLenum) (cur : GLenum * GLuint)
    (calls : list GLCall) : GLenum * GLuint :=
  foldl (texture_sent unit target) cur calls.

(** The unit the manager takes to be selected and the texture it mirrors
    for layer [l] and [target]. *)
Definition texture_mirror (l : fin numTextureLayers) (target : GLTextureTarget)
    (m : GLStateManager) : GLenum * GLuint :=
  (textureLayersMap !!! activeTextureLayer_ m, mirrored_texture m l target).

(** The binding of one buffer target after a log. *)
Definition buffer_sent (target : GLenum) (cur : GLuint) (c : GLCall) : GLuint :=
  match c with
  | glBindBuffer target' buffer | glBindBufferBase target' _ buffer =>
      if decide (target' = target) then buffer else cur
  | _ => cur
  end.

Definition buffer_after (target : GLenum) (cur : GLuint) (calls : list GLCall)
  : GLuint :=
  foldl (buffer_sent target) cur calls.

(** The one call that rewrites buffer mirrors without a buffer call. *)
Definition is_bind_vertex_array (op : Op) : bool :=
  match op with OpBindVertexArray _ => true | _ => false end.

(** A [GLint] member holds a value of its type. *)
Definition GLint_range (z : Z) : Prop := GLint_min <= z <= GLint_max.

(** The calls one blend state costs in a multi-target set-up. *)
Definition blend_cost (ext : GLExtensions) (blendEnabled : bool) : nat :=
  ((if has_glBlendFuncSeparatei ext && has_glColorMaski ext then 1 else 2)
   + (if blendEnabled then 1 else 0))%nat.

(** The [glColorMask] call that carries the colour mask of a state. *)
Definition sends_mask (st : GLBlend) : GLCall :=
  let cm := GLBlend.colorMask st in glColorMask (r cm) (g cm) (b cm) (a cm).

(** What the adjustment never touches. *)
Definition same_extent (emulate : bool) (vp vp' : GLViewport) : Prop :=
  GLViewport.x vp' = GLViewport.x vp
  /\ GLViewport.width vp' = GLViewport.width vp
  /\ GLViewport.height vp' = GLViewport.height vp
  /\ (emulate = false -> vp' = vp).

(* ================================================================= *)
(** ** The validation layer (DbgCommandBuffer) *)

Module DbgCommandBuffer.

(** Modelled from the spec: the purpose a buffer was created for, the
    attribute the wrapped buffer object ([DbgBuffer], declared but not
    defined in the sources) carries (section 4.2, buffer-type
    correctness). *)
Inductive BufferType :=
| VertexBuffer
| IndexBuffer
| ConstantBuffer
| StorageBuffer
| StreamOutputBuffer.

#[global] Instance BufferType_eq_dec : EqDecision BufferType.
Proof. solve_decision. Defined.

(** Modelled from the spec: a wrapped buffer object, by identity and
    declared type. *)
Record DbgBuffer := { bufferId : nat; bufferType : BufferType }.

(** Modelled from the spec: the primitive topologies of LLGL (the
    enumeration is not among the sources); the list topologies have a
    fixed number of vertices per primitive (section 4.2, vertex count
    versus topology). *)
Inductive PrimitiveTopology :=
| PointList
| LineList
| LineStrip
| TriangleList
| TriangleStrip
| TriangleFan.

(** Modelled from the spec: a wrapped graphics pipeline, by identity and
    the topology it was created with. *)
Record DbgGraphicsPipeline := { pipelineId : nat; pipelineTopology : PrimitiveTopology }.

(** The member functions DbgCommandBuffer.h declares, one constructor per
    declaration, in its order; objects passed by reference are carried by
    identity, the arguments that no rule of section 4.2 looks at are kept
    as plain numbers. *)
Inductive Command :=
| SetGraphicsAPIDependentState
| SetViewport
| SetViewportArray (numViewports : Z)
| SetScissor
| SetScissorArray (numScissors : Z)
| SetClearColor
| SetClearDepth
| SetClearStencil (stencil : Z)
| Clear (flags : Z)
| ClearTarget (targetIndex : Z)
| SetVertexBuffer (buffer : DbgBuffer)
| SetVertexBufferArray (bufferArray : nat)
| SetIndexBuffer (buffer : DbgBuffer)
| SetConstantBuffer (buffer : DbgBuffer) (slot : Z) (shaderStageFlags : Z)
| SetConstantBufferArray (bufferArray : nat) (startSlot : Z) (shaderStageFlags : Z)
| SetStorageBuffer (buffer : DbgBuffer) (slot : Z) (shaderStageFlags : Z)
| SetStorageBufferArray (bufferArray : nat) (startSlot : Z) (shaderStageFlags : Z)
| SetStreamOutputBuffer (buffer : DbgBuffer)
| SetStreamOutputBufferArray (bufferArray : nat)
| BeginStreamOutput (primitiveType : Z)
| EndStreamOutput
| SetTexture (texture : nat) (slot : Z) (shaderStageFlags : Z)
| SetTextureArray (textureArray : nat) (startSlot : Z) (shaderStageFlags : Z)
| SetSampler (sampler : nat) (slot : Z) (shaderStageFlags : Z)
| SetSamplerArray (samplerArray : nat) (startSlot : Z) (shaderStageFlags : Z)
| SetRenderTarget_RenderTarget (renderTarget : nat)
| SetRenderTarget_RenderContext (renderContext : nat)
| SetGraphicsPipeline (graphicsPipeline : DbgGraphicsPipeline)
| SetComputePipeline (computePipeline : nat)
| BeginQuery (query : nat)
| EndQuery (query : nat)
| QueryResult (query : nat)
| BeginRenderCondition (query : nat) (mode : Z)
| EndRenderCondition
| Draw (numVertices firstVertex : Z)
| DrawIndexed (numVertices firstIndex : Z)
| DrawIndexed_vertexOffset (numVertices firstIndex vertexOffset : Z)
| DrawInstanced (numVertices firstVertex numInstances : Z)
| DrawInstanced_instanceOffset (numVertices firstVertex numInstances instanceOffset : Z)
| DrawIndexedInstanced (numVertices numInstances firstIndex : Z)
| DrawIndexedInstanced_vertexOffset (numVertices numInstances firstIndex vertexOffset : Z)
| DrawIndexedInstanced_instanceOffset
    (numVertices numInstances firstIndex vertexOffset instanceOffset : Z)
| Dispatch (groupSizeX groupSizeY groupSizeZ : Z)
| SyncGPU.

(** The members [topology_], [bindings_] and [states_] of the header, with
    its default member initialisers. *)
Record Bindings :=
  { vertexBuffer : option DbgBuffer;
    indexBuffer : option DbgBuffer;
    streamOutput : option DbgBuffer;
    graphicsPipeline : option DbgGraphicsPipeline;
    computePipeline : option nat }.

Record Snapshot :=
  { topology_ : PrimitiveTopology;
    bindings_ : Bindings;
    streamOutputBusy : bool }.

Definition Snapshot_default : Snapshot :=
  {| topology_ := TriangleList;
     bindings_ :=
       {| vertexBuffer := None; indexBuffer := None; streamOutput := None;
          graphicsPipeline := None; computePipeline := None |};
     streamOutputBusy := false |}.

(** Modelled from the spec: what the layer can report (section 4.2); the
    rules that compare with the capability descriptor or with the shader
    program (instance and vertex limits, stage flags, thread-group sizes,
    vertex layout) need collaborators that are not among the sources and
    are left out. *)
Inductive Violation :=
| NoGraphicsPipeline
| NoComputePipeline
| NoVertexBuffer
| NoIndexBuffer
| DrawDuringStreamOutput
| UnusedVertices (topology : PrimitiveTopology) (unusedVertices : Z)
| WrongBufferType (expected actual : BufferType).

#[global] Instance PrimitiveTopology_eq_dec : EqDecision PrimitiveTopology.
Proof. solve_decision. Defined.
#[global] Instance Violation_eq_dec : EqDecision Violation.
Proof. solve_decision. Defined.

(** Modelled from the spec: [DebugGraphicsPipelineSet] and its siblings,
    the private checks the header declares, each with the report section
    4.2 gives it. *)
Definition DebugGraphicsPipelineSet (s : Snapshot) : list Violation :=
  match graphicsPipeline (bindings_ s) with
  | Some _ => []
  | None => [NoGraphicsPipeline]
  end.

(** Modelled from the spec: a dispatch needs a compute pipeline. *)
Definition DebugComputePipelineSet (s : Snapshot) : list Violation :=
  match computePipeline (bindings_ s) with
  | Some _ => []
  | None => [NoComputePipeline]
  end.

(** Modelled from the spec: vertex-buffer presence. *)
Definition DebugVertexBufferSet (s : Snapshot) : list Violation :=
  match vertexBuffer (bindings_ s) with
  | Some _ => []
  | None => [NoVertexBuffer]
  end.

(** Modelled from the spec: index-buffer presence. *)
Definition DebugIndexBufferSet (s : Snapshot) : list Violation :=
  match indexBuffer (bindings_ s) with
  | Some _ => []
  | None => [NoIndexBuffer]
  end.

(** Modelled from the spec: drawing while stream output is active is
    reported. *)
Definition DebugStreamOutput (s : Snapshot) : list Violation :=
  if streamOutputBusy s then [DrawDuringStreamOutput] else [].

(** Modelled from the spec: the vertices a list topology leaves over
    (a triangle list needs a multiple of 3). *)
Definition verticesPerPrimitive (t : PrimitiveTopology) : option Z :=
  match t with
  | PointList => Some 1
  | LineList => Some 2
  | TriangleList => Some 3
  | LineStrip | TriangleStrip | TriangleFan => None
  end.

(** Modelled from the spec: a vertex count that leaves a remainder is
    reported with the number of unused trailing vertices. *)
Definition DebugNumVertices (s : Snapshot) (numVertices : Z) : list Violation :=
  match verticesPerPrimitive (topology_ s) with
  | Some n =>
      if numVertices mod n =? 0 then []
      else [UnusedVertices (topology_ s) (numVertices mod n)]
  | None => []
  end.

(** Modelled from the spec: buffer-type correctness. *)
Definition DebugBufferType (bufferType compareType : BufferType) : list Violation :=
  if decide (bufferType = compareType) then []
  else [WrongBufferType compareType bufferType].

(** Modelled from the spec: the rules applied to the non-indexed draw
    calls. *)
Definition DebugDraw (s : Snapshot) (numVertices : Z) : list Violation :=
  DebugGraphicsPipelineSet s ++ DebugVertexBufferSet s
  ++ DebugStreamOutput s ++ DebugNumVertices s numVertices.

(** Modelled from the spec: the rules applied to the indexed draw calls:
    those of [DebugDraw] and index-buffer presence. *)
Definition DebugDrawIndexed (s : Snapshot) (numVertices : Z) : list Violation :=
  DebugGraphicsPipelineSet s ++ DebugVertexBufferSet s ++ DebugIndexBufferSet s
  ++ DebugStreamOutput s ++ DebugNumVertices s numVertices.

(** Modelled from the spec: the reports a command gives rise to
    (section 4.2, validation rules applied on draw calls). *)
Definition validate (s : Snapshot) (cmd : Command) : list Violation :=
  match cmd with
  | Draw numVertices _
  | DrawInstanced numVertices _ _
  | DrawInstanced_instanceOffset numVertices _ _ _ => DebugDraw s numVertices
  | DrawIndexed numVertices _
  | DrawIndexed_vertexOffset numVertices _ _
  | DrawIndexedInstanced numVertices _ _
  | DrawIndexedInstanced_vertexOffset numVertices _ _ _
  | DrawIndexedInstanced_instanceOffset numVertices _ _ _ _ =>
      DebugDrawIndexed s numVertices
  | Dispatch _ _ _ => DebugComputePipelineSet s
  | SetVertexBuffer buffer => DebugBufferType (bufferType buffer) VertexBuffer
  | SetIndexBuffer buffer => DebugBufferType (bufferType buffer) IndexBuffer
  | SetConstantBuffer buffer _ _ => DebugBufferType (bufferType buffer) ConstantBuffer
  | SetStorageBuffer buffer _ _ => DebugBufferType (bufferType buffer) StorageBuffer
  | SetStreamOutputBuffer buffer =>
      DebugBufferType (bufferType buffer) StreamOutputBuffer
  | _ => []
  end.

(** Modelled from the spec: the bookkeeping of the pipeline binding
    snapshot (section 3 and the state machine of section 4.2): a new
    graphics pipeline captures its topology and resets the snapshot to its
    defaults; the compute pipeline is tracked on its own. *)
Definition track (s : Snapshot) (cmd : Command) : Snapshot :=
  let bs := bindings_ s in
  match cmd with
  | SetVertexBuffer buffer =>
      {| topology_ := topology_ s;
         bindings_ :=
           {| vertexBuffer := Some buffer; indexBuffer := indexBuffer bs;
              streamOutput := streamOutput bs;
              graphicsPipeline := graphicsPipeline bs;
              computePipeline := computePipeline bs |};
         streamOutputBusy := streamOutputBusy s |}
  | SetIndexBuffer buffer =>
      {| topology_ := topology_ s;
         bindings_ :=
           {| vertexBuffer := vertexBuffer bs; indexBuffer := Some buffer;
              streamOutput := streamOutput bs;
              graphicsPipeline := graphicsPipeline bs;
              computePipeline := computePipeline bs |};
         streamOutputBusy := streamOutputBusy s |}
  | SetStreamOutputBuffer buffer =>
      {| topology_ := topology_ s;
         bindings_ :=
           {| vertexBuffer := vertexBuffer bs; indexBuffer := indexBuffer bs;
              streamOutput := Some buffer;
              graphicsPipeline := graphicsPipeline bs;
              computePipeline := computePipeline bs |};
         streamOutputBusy := streamOutputBusy s |}
  | SetGraphicsPipeline pipeline =>
      {| topology_ := pipelineTopology pipeline;
         bindings_ :=
           {| vertexBuffer := None; indexBuffer := None; streamOutput := None;
              graphicsPipeline := Some pipeline;
              computePipeline := computePipeline bs |};
         streamOutputBusy := false |}
  | SetComputePipeline pipeline =>
      {| topology_ := topology_ s;
         bindings_ :=
           {| vertexBuffer := vertexBuffer bs; indexBuffer := indexBuffer bs;
              streamOutput := streamOutput bs;
              graphicsPipeline := graphicsPipeline bs;
              computePipeline := Some pipeline |};
         streamOutputBusy := streamOutputBusy s |}
  | BeginStreamOutput _ =>
      {| topology_ := topology_ s; bindings_ := bs; streamOutputBusy := true |}
  | EndStreamOutput =>
      {| topology_ := topology_ s; bindings_ := bs; streamOutputBusy := false |}
  | _ => s
  end.

(** The decorator: [instance] is the wrapped command buffer, carried as
    the calls it has received; [debugger] is the sink, carried as the
    reports it has received. *)
Record State :=
  { instance : list Command;
    debugger : list Violation;
    snapshot : Snapshot }.

(** Modelled from the spec: one call of a member function of the layer
    (sections 4.2 and 7): the rules are checked against the snapshot and
    their reports go to the sink, the snapshot is brought up to date, and
    the call is forwarded to the wrapped implementation whatever was
    reported. *)
Definition call (cmd : Command) (d : State) : State :=
  {| instance := instance d ++ [cmd];
     debugger := debugger d ++ validate (snapshot d) cmd;
     snapshot := track (snapshot d) cmd |}.

(** The reports that cite one kind of violation. *)
Definition count_reports (v : Violation) (reports : list Violation) : nat :=
  length (List.filter (fun r => bool_decide (r = v)) reports).

End DbgCommandBuffer.

(* ================================================================= *)
(** * Properties *)

(** ** Boolean states *)

Ltac gl_unfold :=
  unfold bind, gets, when, modify, native, ret, throw, undefined, neq in *.

Lemma set_values_id m : set_values (values (renderState_ m)) m = m.
Proof. by destruct m as [[] ? ? ? ? ? ? ?]. Qed.

Lemma Set_spec C b m :
  Set_ C b m =
    Returns tt (if decide (mirrored_state m C = b) then m else assign_state m C b)
      (if decide (mirrored_state m C = b) then [] else [transition C b]).
Proof.
  unfold Set_, mirrored_state, assign_state, transition. gl_unfold.
  case_bool_decide; case_decide; try congruence; simpl.
  - by destruct b.
  - done.
Qed.

Lemma mirrored_assign_state m C b : mirrored_state (assign_state m C b) C = b.
Proof. unfold mirrored_state, assign_state. simpl. apply vlookup_insert. Qed.

(** C2. For every capability [C] and boolean [b]: [Set(C, b)] issues the
    native transition of [C] to [b] when the mirrored value differs from
    [b] and nothing when it equals [b]; two calls in a row issue exactly
    what one call issues, so the transition is issued once and the second
    call is silent; [Enable(C)] and [Disable(C)] behave as [Set(C, true)]
    and [Set(C, false)]. *)
Theorem Set_idempotent (C : GLState) (b : bool) (m : GLStateManager) :
  let m' := if decide (mirrored_state m C = b) then m else assign_state m C b in
  let once := if decide (mirrored_state m C = b) then [] else [transition C b] in
  Set_ C b m = Returns tt m' once
  /\ (Set_ C b ;; Set_ C b) m = Returns tt m' once
  /\ mirrored_state m' C = b
  /\ Enable C m = Set_ C true m
  /\ Disable C m = Set_ C false m.
Proof.
  intros m' once.
  assert (Hm' : mirrored_state m' C = b).
  { subst m'. case_decide; [done | apply mirrored_assign_state]. }
  split_and!.
  - apply Set_spec.
  - unfold bind at 1. rewrite (Set_spec C b m). fold m' once.
    cbn beta iota. rewrite (Set_spec C b m'). rewrite !decide_True by done.
    by rewrite app_nil_r.
  - done.
  - unfold Enable, Set_. gl_unfold.
    destruct (values (renderState_ m) !!! GLState_index C); simpl; try case_bool_decide; done.
  - unfold Disable, Set_. gl_unfold.
    destruct (values (renderState_ m) !!! GLState_index C); simpl; try case_bool_decide; done.
Qed.

(** ** Observations that a computation leaves alone *)

Lemma bind_Returns {A B} (c : GL A) (k : A -> GL B) m b m' calls :
  bind c k m = Returns b m' calls ->
  exists a m1 calls1 calls2,
    c m = Returns a m1 calls1 /\ k a m1 = Returns b m' calls2
    /\ calls = calls1 ++ calls2.
Proof.
  unfold bind. intros H.
  destruct (c m) as [a m1 calls1| |]; try discriminate.
  destruct (k a m1) as [b' m2 calls2| |] eqn:E2; try discriminate.
  inversion H; subst. by exists a, m1, calls1, calls2.
Qed.

Section Preserves.
Context {X : Type} (f : GLStateManager -> X).

Lemma preserves_ret {A} (a : A) : preserves f (ret a).
Proof. intros m a' m' calls H. by inversion H. Qed.

Lemma preserves_gets {A} (g : GLStateManager -> A) : preserves f (gets g).
Proof. intros m a' m' calls H. by inversion H. Qed.

Lemma preserves_native c : preserves f (native c).
Proof. intros m a' m' calls H. by inversion H. Qed.

Lemma preserves_undefined {A} : preserves f (@undefined A).
Proof. intros m a' m' calls H. inversion H. Qed.

Lemma preserves_throw {A} e : preserves f (@throw A e).
Proof. intros m a' m' calls H. inversion H. Qed.

Lemma preserves_modify g :
  (forall m, f (g m) = f m) -> preserves f (modify g).
Proof. intros Hg m a' m' calls H. inversion H. apply Hg. Qed.

Lemma preserves_bind {A B} (c : GL A) (k : A -> GL B) :
  preserves f c -> (forall a, preserves f (k a)) -> preserves f (bind c k).
Proof.
  intros Hc Hk m b m' calls H. unfold bind in H.
  destruct (c m) as [a m1 calls1| |] eqn:E1; try discriminate.
  destruct (k a m1) as [b' m2 calls2| |] eqn:E2; try discriminate.
  inversion H; subst.
  rewrite (Hk _ _ _ _ _ E2). eapply Hc, E1.
Qed.

Lemma preserves_when (c : bool) body :
  preserves f body -> preserves f (when c body).
Proof. destruct c; simpl; [done | intros _; apply preserves_ret]. Qed.

Lemma preserves_for_each {A} (l : list A) body :
  (forall x, preserves f (body x)) -> preserves f (for_each l body).
Proof.
  intros Hb. induction l as [|x l IH]; simpl.
  - apply preserves_ret.
  - apply preserves_bind; [apply Hb | intros _; apply IH].
Qed.

Lemma preserves_for_each_ref {A} (l : list A) body :
  (forall x, preserves f (body x)) -> preserves f (for_each_ref l body).
Proof.
  intros Hb. induction l as [|x l IH]; simpl.
  - apply preserves_ret.
  - apply preserves_bind; [apply Hb | intros x'].
    apply preserves_bind; [apply IH | intros l'; apply preserves_ret].
Qed.
End Preserves.

Ltac preserves_step :=
  first
    [ apply preserves_ret
    | apply preserves_gets
    | apply preserves_native
    | apply preserves_undefined
    | apply preserves_throw
    | apply preserves_modify; intros; reflexivity
    | apply preserves_when
    | apply preserves_for_each; intros
    | apply preserves_for_each_ref; intros
    | apply preserves_bind; [| intros]
    | match goal with
      | |- preserves _ (if ?c then _ else _) => destruct c
      | |- preserves _ (match ?x with _ => _ end) => destruct x
      | |- preserves _ (let _ := _ in _) => cbv zeta
      end ].

Ltac preserves_tac := repeat preserves_step.

Lemma SetBlendStates_each_preserves {X} (f : GLStateManager -> X) ext l :
  forall drawBuffer blendEnabled,
    preserves f (SetBlendStates_each ext drawBuffer l blendEnabled).
Proof.
  induction l as [|st l IH]; intros; simpl.
  - apply preserves_ret.
  - apply preserves_bind; [| intros; apply IH].
    unfold SetBlendState. preserves_tac.
Qed.

Lemma call_preserves_valueStack ext op :
  state_pushes op = 0%nat -> state_pops op = 0%nat ->
  preserves (fun m => valueStack (renderState_ m)) (call ext op).
Proof.
  destruct op; simpl; intros Hpush Hpop; try discriminate;
    try (subst; simpl; apply preserves_ret);
    unfold MakeCurrentInfo, Reset, Set_, Enable, Disable, IsEnabled,
      SetViewports, SetDepthRanges, SetScissors, SetBlendStates,
      SetClipControl, SetDepthFunc, SetStencilState, SetStencilState_to,
      SetPolygonMode, SetCullFace, SetFrontFace, SetDepthMask,
      BindBuffer_GLVertexBuffer, BindBuffer_GLIndexBuffer,
      BindBuffer_GLConstantBuffer, BindBuffer, BindBufferBase, BindVertexArray,
      ForcedBindBuffer, PushBoundBuffer, PopBoundBuffer, PopBoundTexture,
      ActiveTexture, BindTexture_GLTexture, ForcedBindTexture_GLTexture,
      GetTextureTarget, BindTexture, ForcedBindTexture, PushBoundTexture,
      BindShaderProgram, PushShaderProgram, PopShaderProgram, BindShaderProgram,
      AdjustViewport, AdjustScissor, GLint_sub;
    preserves_tac; try apply SetBlendStates_each_preserves;
    unfold SetBlendState; preserves_tac.
Qed.

(** ** Save and restore *)

Lemma mirrored_assign_buffer m t b : mirrored_buffer (assign_buffer m t b) t = b.
Proof. unfold mirrored_buffer, assign_buffer. simpl. apply vlookup_insert. Qed.

Lemma BindBuffer_spec t b m :
  BindBuffer t b m =
    Returns tt (if decide (mirrored_buffer m t = b) then m else assign_buffer m t b)
      (if decide (mirrored_buffer m t = b) then []
       else [glBindBuffer (bufferTargetsMap !!! GLBufferTarget_index t) b]).
Proof.
  unfold BindBuffer, mirrored_buffer, assign_buffer. gl_unfold.
  case_bool_decide; case_decide; try congruence; done.
Qed.

Lemma PopState_spec m :
  PopState m =
    match valueStack (renderState_ m) with
    | [] => Undefined
    | e :: st =>
        let C := RenderStackEntry.state e in
        let v := RenderStackEntry.enabled e in
        Returns tt
          (set_valueStack st
             (if decide (mirrored_state m C = v) then m else assign_state m C v))
          (if decide (mirrored_state m C = v) then [] else [transition C v])
    end.
Proof.
  unfold PopState. unfold bind at 1. unfold gets at 1.
  destruct (valueStack (renderState_ m)) as [|e st] eqn:E; [done|].
  unfold bind. rewrite Set_spec. unfold modify. cbn zeta.
  case_decide; simpl; rewrite ?E, ?app_nil_r; done.
Qed.

Lemma PopBoundBuffer_spec m :
  PopBoundBuffer m =
    match boundBufferStack (bufferState_ m) with
    | [] => Undefined
    | e :: st =>
        let t := BufferStackEntry.target e in
        let v := BufferStackEntry.buffer e in
        Returns tt
          (set_boundBufferStack st
             (if decide (mirrored_buffer m t = v) then m else assign_buffer m t v))
          (if decide (mirrored_buffer m t = v) then []
           else [glBindBuffer (bufferTargetsMap !!! GLBufferTarget_index t) v])
    end.
Proof.
  unfold PopBoundBuffer. unfold bind at 1. unfold gets at 1.
  destruct (boundBufferStack (bufferState_ m)) as [|e st] eqn:E; [done|].
  unfold bind. rewrite BindBuffer_spec. unfold modify. cbn zeta.
  case_decide; simpl; rewrite ?E, ?app_nil_r; done.
Qed.

Lemma PopStates_preserves {X} (f : GLStateManager -> X) count :
  (forall v m, f (set_values v m) = f m) ->
  (forall v m, f (set_valueStack v m) = f m) ->
  preserves f (PopStates count).
Proof.
  intros H1 H2. induction count as [|n IH]; simpl.
  - apply preserves_ret.
  - apply preserves_bind; [| intros; apply IH].
    intros m a m' calls H. rewrite PopState_spec in H.
    destruct (valueStack (renderState_ m)); [done|].
    inversion H; subst. rewrite H2. case_decide; [done|apply H1].
Qed.

Lemma call_preserves_boundBufferStack ext op :
  buffer_pushes op = 0%nat -> buffer_pops op = 0%nat ->
  preserves (fun m => boundBufferStack (bufferState_ m)) (call ext op).
Proof.
  destruct op; simpl; intros Hpush Hpop; try discriminate;
    try (subst; simpl; apply preserves_ret);
    try (by apply PopStates_preserves);
    unfold MakeCurrentInfo, Reset, Set_, Enable, Disable, IsEnabled,
      SetViewports, SetDepthRanges, SetScissors, SetBlendStates,
      SetClipControl, SetDepthFunc, SetStencilState, SetStencilState_to,
      SetPolygonMode, SetCullFace, SetFrontFace, SetDepthMask,
      BindBuffer_GLVertexBuffer, BindBuffer_GLIndexBuffer,
      BindBuffer_GLConstantBuffer, BindBuffer, BindBufferBase, BindVertexArray,
      ForcedBindBuffer, PushState, PopState, PopBoundTexture,
      ActiveTexture, BindTexture_GLTexture, ForcedBindTexture_GLTexture,
      GetTextureTarget, BindTexture, ForcedBindTexture, PushBoundTexture,
      BindShaderProgram, PushShaderProgram, PopShaderProgram, BindShaderProgram,
      AdjustViewport, AdjustScissor, GLint_sub;
    preserves_tac; try apply SetBlendStates_each_preserves;
    unfold SetBlendState; preserves_tac.
Qed.

Lemma PopStates_drop count : forall m m' calls,
  PopStates count m = Returns tt m' calls ->
  valueStack (renderState_ m') = drop count (valueStack (renderState_ m)).
Proof.
  induction count as [|n IH]; intros m m' calls H; simpl in H.
  - by inversion H.
  - apply bind_Returns in H as (a & m1 & calls1 & calls2 & H1 & H2 & ->).
    apply IH in H2. rewrite H2. rewrite PopState_spec in H1.
    destruct (valueStack (renderState_ m)) as [|e st] eqn:E; [done|].
    by inversion H1; subst.
Qed.

Section StackDiscipline.
Context {E : Type} (stk : GLStateManager -> list E).
Context (pushes pops : Op -> nat) (ext : GLExtensions).
Hypothesis call_effect : forall op m m' calls,
  call ext op m = Returns tt m' calls ->
  exists new,
    length new = pushes op /\ stk m' = new ++ drop (pops op) (stk m).

Lemma run_depth ops : forall d d' m m' calls pre base,
  depth_after pushes pops d ops = Some d' ->
  stk m = pre ++ base -> length pre = d ->
  run ext ops m = Returns tt m' calls ->
  exists pre', stk m' = pre' ++ base /\ length pre' = d'.
Proof.
  induction ops as [|op ops IH]; intros d d' m m' calls pre base Hd Hs Hl Hr.
  - simpl in *. inversion Hd; inversion Hr; subst. eauto.
  - simpl in Hd. destruct (pops op <=? d)%nat eqn:Hle; [|done].
    apply Nat.leb_le in Hle.
    unfold run in Hr. simpl in Hr. unfold bind in Hr.
    destruct (call ext op m) as [[] m1 calls1| |] eqn:E1; try discriminate.
    destruct (for_each ops (call ext) m1) as [[] m2 calls2| |] eqn:E2;
      try discriminate.
    inversion Hr; subst.
    destruct (call_effect _ _ _ _ E1) as (new & Hn & Hs1).
    rewrite Hs in Hs1. rewrite drop_app_le in Hs1 by lia.
    rewrite app_assoc in Hs1.
    eapply (IH _ _ m1 m' calls2 _ base Hd Hs1); [|exact E2].
    rewrite length_app, length_drop. lia.
Qed.

Lemma run_balanced ops m m' calls :
  balanced pushes pops ops ->
  run ext ops m = Returns tt m' calls ->
  stk m' = stk m.
Proof.
  intros Hb Hr.
  destruct (run_depth ops 0 0 m m' calls [] (stk m) Hb eq_refl eq_refl Hr)
    as (pre' & Hs & Hl).
  by destruct pre'.
Qed.
End StackDiscipline.

Lemma call_effect_valueStack ext op m m' calls :
  call ext op m = Returns tt m' calls ->
  exists new,
    length new = state_pushes op /\
    valueStack (renderState_ m') = new ++ drop (state_pops op) (valueStack (renderState_ m)).
Proof.
  intros H.
  destruct (decide (state_pushes op = 0%nat /\ state_pops op = 0%nat)) as [[Hp Hq]|Hn].
  - exists []. rewrite Hp, Hq. split; [done|].
    apply (call_preserves_valueStack ext op Hp Hq _ _ _ _ H).
  - destruct op; simpl in Hn; try (exfalso; apply Hn; done); simpl in H.
    + inversion H; subst. by eexists [_].
    + exists []. split; [done|]. rewrite PopState_spec in H.
      destruct (valueStack (renderState_ m)); [done|]. inversion H; subst.
      simpl. by rewrite drop_0.
    + exists []. split; [done|]. by eapply PopStates_drop.
Qed.

Lemma call_effect_boundBufferStack ext op m m' calls :
  call ext op m = Returns tt m' calls ->
  exists new,
    length new = buffer_pushes op /\
    boundBufferStack (bufferState_ m') =
      new ++ drop (buffer_pops op) (boundBufferStack (bufferState_ m)).
Proof.
  intros H.
  destruct (decide (buffer_pushes op = 0%nat /\ buffer_pops op = 0%nat)) as [[Hp Hq]|Hn].
  - exists []. rewrite Hp, Hq. split; [done|].
    apply (call_preserves_boundBufferStack ext op Hp Hq _ _ _ _ H).
  - destruct op; simpl in Hn; try (exfalso; apply Hn; done); simpl in H.
    + inversion H; subst. by eexists [_].
    + exists []. split; [done|]. rewrite PopBoundBuffer_spec in H.
      destruct (boundBufferStack (bufferState_ m)); [done|]. inversion H; subst.
      simpl. by rewrite drop_0.
Qed.

Lemma run_snoc ext ops op m m1 m2 calls1 calls2 :
  run ext ops m = Returns tt m1 calls1 ->
  call ext op m1 = Returns tt m2 calls2 ->
  run ext (ops ++ [op]) m = Returns tt m2 (calls1 ++ calls2).
Proof.
  revert m calls1. induction ops as [|o ops IH]; intros m calls1 Hr Hc.
  - inversion Hr; subst. unfold run. simpl. unfold bind. rewrite Hc. simpl.
    by rewrite app_nil_r.
  - unfold run in Hr. simpl in Hr.
    apply bind_Returns in Hr as ([] & m0 & c0 & c1 & H0 & H1 & ->).
    specialize (IH _ _ H1 Hc). unfold run in *. simpl. unfold bind.
    rewrite H0. rewrite IH. by rewrite app_assoc.
Qed.

Lemma run_cons ext op ops m m1 calls :
  run ext (op :: ops) m = Returns tt m1 calls ->
  exists m0 calls0 calls1,
    call ext op m = Returns tt m0 calls0 /\ run ext ops m0 = Returns tt m1 calls1
    /\ calls = calls0 ++ calls1.
Proof.
  unfold run. simpl. intros H.
  apply bind_Returns in H as ([] & m0 & c0 & c1 & H0 & H1 & ->).
  by exists m0, c0, c1.
Qed.

(** ** Redundant bindings *)

Lemma BindTexture_spec t h m :
  BindTexture t h m =
    Returns tt
      (if decide (mirrored_texture m (activeTextureLayer_ m) t = h) then m
       else set_boundTexture (activeTextureLayer_ m) (GLTextureTarget_index t) h m)
      (if decide (mirrored_texture m (activeTextureLayer_ m) t = h) then []
       else [glBindTexture (textureTargetsMap !!! GLTextureTarget_index t) h]).
Proof.
  unfold BindTexture, mirrored_texture. gl_unfold.
  case_bool_decide; case_decide; try congruence; done.
Qed.

Lemma BindShaderProgram_spec p m :
  BindShaderProgram p m =
    Returns tt
      (if decide (boundProgram (shaderState_ m) = p) then m else set_boundProgram p m)
      (if decide (boundProgram (shaderState_ m) = p) then [] else [glUseProgram p]).
Proof.
  unfold BindShaderProgram. gl_unfold.
  case_bool_decide; case_decide; try congruence; done.
Qed.

Lemma mirrored_set_boundTexture m l t h :
  mirrored_texture (set_boundTexture l (GLTextureTarget_index t) h m) l t = h.
Proof.
  unfold mirrored_texture, set_boundTexture. simpl.
  rewrite vlookup_insert. simpl. apply vlookup_insert.
Qed.

Lemma bind_op_spec ext p h m :
  exists m',
    call ext (bind_op p h) m =
      Returns tt m' (if decide (mirrored_handle p m = h) then [] else [native_bind p h])
    /\ mirrored_handle p m' = h.
Proof.
  destruct p as [t | t |]; simpl.
  - rewrite BindBuffer_spec. eexists; split; [done|].
    case_decide; [done | apply mirrored_assign_buffer].
  - rewrite BindTexture_spec. eexists; split; [done|].
    case_decide; [done |]. simpl. apply mirrored_set_boundTexture.
  - rewrite BindShaderProgram_spec. eexists; split; [done|].
    by case_decide.
Qed.

Lemma run_cons_intro ext op ops m m0 m1 calls0 calls1 :
  call ext op m = Returns tt m0 calls0 ->
  run ext ops m0 = Returns tt m1 calls1 ->
  run ext (op :: ops) m = Returns tt m1 (calls0 ++ calls1).
Proof.
  unfold run. simpl. unfold bind. intros -> H. by rewrite H.
Qed.

(** Binding the same handle [N] times. *)
Lemma bind_same ext p h N m :
  exists m',
    run ext (replicate N (bind_op p h)) m =
      Returns tt m'
        (if decide (N = 0%nat \/ mirrored_handle p m = h) then []
         else [native_bind p h])
    /\ (N <> 0%nat -> mirrored_handle p m' = h).
Proof.
  revert m. induction N as [|N IH]; intros m.
  - exists m. split; [|done]. by rewrite decide_True by (by left).
  - destruct (bind_op_spec ext p h m) as (m0 & H0 & Hm0).
    destruct (IH m0) as (m1 & H1 & Hm1).
    exists m1. split.
    + simpl. erewrite run_cons_intro; [|exact H0|exact H1].
      f_equal. repeat case_decide; simpl; try done; exfalso; intuition congruence.
    + intros _. destruct N; [|by apply Hm1]. simpl in H1.
      unfold run in H1. simpl in H1. by inversion H1; subst.
Qed.

(** Binding a list of handles none of which repeats its predecessor. *)
Lemma bind_fresh_handles ext p hs : forall m,
  NoDup hs -> head hs <> Some (mirrored_handle p m) ->
  exists m', run ext (map (bind_op p) hs) m = Returns tt m' (map (native_bind p) hs).
Proof.
  induction hs as [|h hs IH]; intros m Hnd Hhd.
  - by exists m.
  - inversion_clear Hnd as [|? ? Hnotin Hnd'].
    destruct (bind_op_spec ext p h m) as (m0 & H0 & Hm0).
    rewrite decide_False in H0 by (intros E; apply Hhd; simpl; by rewrite E).
    destruct (IH m0 Hnd') as (m1 & H1).
    { rewrite Hm0. destruct hs as [|h' hs']; [done|]. simpl.
      intros [= ->]. apply Hnotin. by left. }
    exists m1. simpl. by erewrite run_cons_intro; [|exact H0|exact H1].
Qed.

Lemma count_calls_native_bind p hs :
  count_calls (is_native_bind p) (map (native_bind p) hs) = length hs.
Proof.
  unfold count_calls. induction hs as [|h hs IH]; [done|].
  simpl. replace (is_native_bind p (native_bind p h)) with true by (by destruct p).
  simpl. by rewrite IH.
Qed.

(** C4, amended. For a buffer target, a texture target or the shader
    program: binding the same handle [N] times in a row issues the native
    bind call once when [N > 0] and the handle differs from the mirrored
    one, and not at all otherwise; binding pairwise-different handles
    issues one call per handle, less one when the first handle is the
    mirrored one. *)
Theorem redundant_binding_elimination
    (ext : GLExtensions) (p : BindingPoint) (m : GLStateManager) :
  (forall h N,
      exists m',
        run ext (replicate N (bind_op p h)) m =
          Returns tt m'
            (if decide (N = 0%nat \/ mirrored_handle p m = h) then []
             else [native_bind p h]))
  /\ (forall hs,
        NoDup hs ->
        exists m' calls,
          run ext (map (bind_op p) hs) m = Returns tt m' calls
          /\ count_calls (is_native_bind p) calls =
               if decide (head hs = Some (mirrored_handle p m))
               then (length hs - 1)%nat else length hs).
Proof.
  split.
  - intros h N. destruct (bind_same ext p h N m) as (m' & H & _). eauto.
  - intros hs Hnd. case_decide as Hhd.
    + destruct hs as [|h hs]; [done|]. simpl in Hhd. injection Hhd as ->.
      inversion_clear Hnd as [|? ? Hnotin Hnd'].
      destruct (bind_op_spec ext p (mirrored_handle p m) m) as (m0 & H0 & Hm0).
      rewrite decide_True in H0 by done.
      destruct (bind_fresh_handles ext p hs m0 Hnd') as (m1 & H1).
      { rewrite Hm0. destruct hs as [|h' hs']; [done|]. simpl.
        intros [= ->]. apply Hnotin. by left. }
      exists m1, (map (native_bind p) hs). split.
      * simpl. by erewrite run_cons_intro; [|exact H0|exact H1].
      * rewrite count_calls_native_bind. simpl. lia.
    + destruct (bind_fresh_handles ext p hs m Hnd Hhd) as (m1 & H1).
      exists m1, (map (native_bind p) hs). split; [done|].
      apply count_calls_native_bind.
Qed.

(** C4 as stated fails on a fresh manager, whose slots mirror handle 0:
    three binds of (ARRAY_BUFFER, 0) issue no native call instead of one,
    and the two different handles 0 and 5 issue one call instead of two. *)
Lemma redundant_binding_counterexample :
  (exists m' calls,
      run no_extensions
        (replicate 3 (OpBindBuffer GLBufferTarget.ARRAY_BUFFER 0)) fresh_manager
        = Returns tt m' calls
      /\ count_calls is_glBindBuffer calls <> 1%nat)
  /\ (exists m' calls,
        run no_extensions
          [OpBindBuffer GLBufferTarget.ARRAY_BUFFER 0;
           OpBindBuffer GLBufferTarget.ARRAY_BUFFER 5] fresh_manager
          = Returns tt m' calls
        /\ count_calls is_glBindBuffer calls <> 2%nat).
Proof.
  split; eexists _, _; (split; [vm_compute; reflexivity | vm_compute; lia]).
Qed.

(** ** Unconditional bindings *)

Lemma GLBufferTarget_index_inj t t' :
  GLBufferTarget_index t = GLBufferTarget_index t' -> t = t'.
Proof. destruct t, t'; intros H; try reflexivity; discriminate H. Qed.

Lemma mirrored_assign_buffer_other m t b t' :
  mirrored_buffer (assign_buffer m t b) t' =
    if decide (t' = t) then b else mirrored_buffer m t'.
Proof.
  unfold mirrored_buffer, assign_buffer. simpl. case_decide as E.
  - subst. apply vlookup_insert.
  - apply vlookup_insert_ne. intros E'. apply E. symmetry.
    by apply GLBufferTarget_index_inj.
Qed.

(** C5, amended. [BindBufferBase(target, index, handle)] always issues
    [glBindBufferBase] and sets the mirrored slot of [target] to [handle],
    leaving every other slot as it was; [BindVertexArray(handle)] always
    issues [glBindVertexArray] and zeroes the mirrored array and
    element-array slots, leaving every other slot as it was. *)
Theorem unconditional_binds (m : GLStateManager) :
  (forall target index buffer,
      BindBufferBase target index buffer m =
        Returns tt (assign_buffer m target buffer)
          [glBindBufferBase (bufferTargetsMap !!! GLBufferTarget_index target)
             index buffer]
      /\ forall t',
           mirrored_buffer (assign_buffer m target buffer) t' =
             if decide (t' = target) then buffer else mirrored_buffer m t')
  /\ (forall buffer,
        exists m',
          BindVertexArray buffer m = Returns tt m' [glBindVertexArray buffer]
          /\ forall t',
               mirrored_buffer m' t' =
                 if decide (t' = GLBufferTarget.ARRAY_BUFFER
                            \/ t' = GLBufferTarget.ELEMENT_ARRAY_BUFFER)
                 then 0 else mirrored_buffer m t').
Proof.
  split.
  - intros target index buffer. split; [done|].
    intros t'. apply mirrored_assign_buffer_other.
  - intros buffer.
    exists (assign_buffer (assign_buffer m GLBufferTarget.ARRAY_BUFFER 0)
              GLBufferTarget.ELEMENT_ARRAY_BUFFER 0).
    split; [reflexivity|]. intros t'.
    rewrite !mirrored_assign_buffer_other.
    repeat case_decide; try done; exfalso; intuition congruence.
Qed.

(** C5 as stated fails for [BindBufferBase]: with buffers 3 and 4 bound to
    the array and element-array targets, [BindBufferBase(UNIFORM_BUFFER, 0,
    5)] leaves both mirrored slots as they were instead of zeroing them. *)
Lemma unconditional_binds_counterexample :
  exists m m',
    run no_extensions
      [OpBindBuffer GLBufferTarget.ARRAY_BUFFER 3;
       OpBindBuffer GLBufferTarget.ELEMENT_ARRAY_BUFFER 4] fresh_manager
      = Returns tt m [glBindBuffer GL_ARRAY_BUFFER 3; glBindBuffer GL_ELEMENT_ARRAY_BUFFER 4]
    /\ BindBufferBase GLBufferTarget.UNIFORM_BUFFER 0 5 m =
         Returns tt m' [glBindBufferBase GL_UNIFORM_BUFFER 0 5]
    /\ mirrored_buffer m' GLBufferTarget.ARRAY_BUFFER = 3
    /\ mirrored_buffer m' GLBufferTarget.ELEMENT_ARRAY_BUFFER = 4
    /\ ~ (mirrored_buffer m' GLBufferTarget.ARRAY_BUFFER = 0
          /\ mirrored_buffer m' GLBufferTarget.ELEMENT_ARRAY_BUFFER = 0).
Proof.
  eexists _, _. split; [vm_compute; reflexivity|].
  split; [vm_compute; reflexivity|].
  split; [vm_compute; reflexivity|].
  split; [vm_compute; reflexivity|].
  vm_compute. intros [H _]. discriminate H.
Qed.

(** ** Stencil state *)

Lemma vinsert_vinsert {A n} (i : fin n) (x y : A) (v : vec A n) :
  vinsert i y (vinsert i x v) = vinsert i y v.
Proof.
  apply vec_eq. intros j. destruct (decide (i = j)) as [->|Hne].
  - by rewrite !vlookup_insert.
  - by rewrite !vlookup_insert_ne.
Qed.

Lemma set_stencil_id m : set_stencil (stencil (commonState_ m)) m = m.
Proof. by destruct m as [? ? ? ? [] ? ? ?]. Qed.

Lemma assign_stencil_self m i : assign_stencil m i (stencil (commonState_ m) !!! i) = m.
Proof. unfold assign_stencil. rewrite vlookup_insert_self. apply set_stencil_id. Qed.

Lemma neq_decide {A} `{EqDecision A} (x y : A) :
  neq x y = if decide (x = y) then false else true.
Proof. unfold neq. by case_bool_decide; case_decide. Qed.

Lemma neq3_decide {A B C} `{EqDecision A, EqDecision B, EqDecision C}
    (x x' : A) (y y' : B) (z z' : C) :
  neq x x' || neq y y' || neq z z' =
    if decide (x = x' /\ y = y' /\ z = z') then false else true.
Proof.
  rewrite !neq_decide.
  repeat case_decide; simpl; try reflexivity; exfalso; intuition congruence.
Qed.

Lemma SetStencilState_to_spec face i from m :
  SetStencilState_to face i from m =
    Returns tt (assign_stencil m i from)
      (stencil_calls face (stencil (commonState_ m) !!! i) from).
Proof.
  destruct m as [rs bs ts ss [cm df st pm cf ff dm] atl h e].
  inv_vec st; intros front back.
  destruct from as [s1' s2' s3' f1' f2' f3' w'].
  inv_fin i; [|intros i; inv_fin i; [|intros i; inv_fin i]].
  - destruct front as [s1 s2 s3 f1 f2 f3 w].
    unfold SetStencilState_to, stencil_calls, assign_stencil.
    unfold bind, gets, when, modify, native, ret. simpl.
    rewrite ?neq3_decide, ?neq_decide.
    destruct (decide (s1 = s1' /\ s2 = s2' /\ s3 = s3')) as [(-> & -> & ->)|];
      simpl; rewrite ?neq3_decide, ?neq_decide;
      (destruct (decide (f1 = f1' /\ f2 = f2' /\ f3 = f3')) as [(-> & -> & ->)|]);
      simpl; rewrite ?neq3_decide, ?neq_decide;
      (destruct (decide (w = w')) as [->|]); reflexivity.
  - destruct back as [s1 s2 s3 f1 f2 f3 w].
    unfold SetStencilState_to, stencil_calls, assign_stencil.
    unfold bind, gets, when, modify, native, ret. simpl.
    rewrite ?neq3_decide, ?neq_decide.
    destruct (decide (s1 = s1' /\ s2 = s2' /\ s3 = s3')) as [(-> & -> & ->)|];
      simpl; rewrite ?neq3_decide, ?neq_decide;
      (destruct (decide (f1 = f1' /\ f2 = f2' /\ f3 = f3')) as [(-> & -> & ->)|]);
      simpl; rewrite ?neq3_decide, ?neq_decide;
      (destruct (decide (w = w')) as [->|]); reflexivity.
Qed.

Lemma SetStencilState_FRONT state m :
  SetStencilState GL_FRONT state m = SetStencilState_to GL_FRONT 0%fin state m.
Proof. done. Qed.

Lemma SetStencilState_BACK state m :
  SetStencilState GL_BACK state m = SetStencilState_to GL_BACK 1%fin state m.
Proof. done. Qed.

Lemma SetStencilState_FRONT_AND_BACK state m :
  SetStencilState GL_FRONT_AND_BACK state m =
    (SetStencilState_to GL_FRONT 0%fin state ;;
     SetStencilState_to GL_BACK 1%fin state) m.
Proof. done. Qed.

Lemma stencil_calls_writeMask face to w :
  stencil_calls face to (with_writeMask to w) =
    if decide (writeMask to = w) then [] else [glStencilMaskSeparate face w].
Proof.
  unfold stencil_calls, with_writeMask. simpl.
  rewrite !decide_True by done. done.
Qed.

(** C7. [SetStencilState] for the front (back) face compares the three
    sub-field groups of the mirrored front (back) state with the requested
    state one by one and issues the native call of exactly the groups that
    differ ([stencil_calls]); for [GL_FRONT_AND_BACK] it is the front
    update followed by the back update, each against its own mirrored
    state; a request that differs from the mirrored state in the write mask
    only issues [glStencilMaskSeparate] alone. *)
Theorem stencil_subfield_independence (m : GLStateManager) (state : GLStencil) :
  let front := stencil (commonState_ m) !!! (0%fin : fin 2) in
  let back := stencil (commonState_ m) !!! (1%fin : fin 2) in
  SetStencilState GL_FRONT state m =
    Returns tt (assign_stencil m 0%fin state) (stencil_calls GL_FRONT front state)
  /\ SetStencilState GL_BACK state m =
       Returns tt (assign_stencil m 1%fin state) (stencil_calls GL_BACK back state)
  /\ SetStencilState GL_FRONT_AND_BACK state m =
       Returns tt (assign_stencil (assign_stencil m 0%fin state) 1%fin state)
         (stencil_calls GL_FRONT front state ++ stencil_calls GL_BACK back state)
  /\ SetStencilState GL_FRONT_AND_BACK state m =
       (SetStencilState GL_FRONT state ;; SetStencilState GL_BACK state) m
  /\ (forall w,
        SetStencilState GL_FRONT (with_writeMask front w) m =
          Returns tt (assign_stencil m 0%fin (with_writeMask front w))
            (if decide (writeMask front = w) then []
             else [glStencilMaskSeparate GL_FRONT w]))
  /\ (forall w,
        SetStencilState GL_BACK (with_writeMask back w) m =
          Returns tt (assign_stencil m 1%fin (with_writeMask back w))
            (if decide (writeMask back = w) then []
             else [glStencilMaskSeparate GL_BACK w])).
Proof.
  intros front back. split_and!.
  - rewrite SetStencilState_FRONT. apply SetStencilState_to_spec.
  - rewrite SetStencilState_BACK. apply SetStencilState_to_spec.
  - rewrite SetStencilState_FRONT_AND_BACK. unfold bind.
    rewrite !SetStencilState_to_spec. do 2 f_equal.
    unfold assign_stencil. cbn [stencil commonState_ set_stencil set_commonState_].
    by rewrite vlookup_insert_ne.
  - done.
  - intros w. rewrite SetStencilState_FRONT, SetStencilState_to_spec.
    by rewrite stencil_calls_writeMask.
  - intros w. rewrite SetStencilState_BACK, SetStencilState_to_spec.
    by rewrite stencil_calls_writeMask.
Qed.

(** ** Texture objects *)

Lemma bind_ret_l {A B} (x : A) (k : A -> GL B) m : bind (ret x) k m = k x m.
Proof. unfold bind, ret. by destruct (k x m). Qed.

(** C9. For a texture whose type is one of the seven mapped types the
    conversion returns a target and both overloads behave as the
    (target, handle) overloads, which return; for any other type (the
    multi-sample ones) the conversion and both overloads throw
    [std::invalid_argument] with the manager untouched and no native call
    issued. *)
Theorem unmapped_texture_type_throws (texture : GLTexture) (m : GLStateManager) :
  let type := GLTexture.GetType texture in
  if is_mapped_type type then
    exists target m1 calls1 m2 calls2,
      GetTextureTarget type m = Returns target m []
      /\ BindTexture_GLTexture texture m = Returns tt m1 calls1
      /\ BindTexture target (GLTexture.GetID texture) m = Returns tt m1 calls1
      /\ ForcedBindTexture_GLTexture texture m = Returns tt m2 calls2
      /\ ForcedBindTexture target (GLTexture.GetID texture) m = Returns tt m2 calls2
  else
    GetTextureTarget type m = Throws conversion_failure m []
    /\ BindTexture_GLTexture texture m = Throws conversion_failure m []
    /\ ForcedBindTexture_GLTexture texture m = Throws conversion_failure m [].
Proof.
  destruct texture as [type id]. simpl.
  destruct type; simpl;
    try (split_and!; reflexivity);
    unfold BindTexture_GLTexture, ForcedBindTexture_GLTexture; simpl;
    rewrite !bind_ret_l, BindTexture_spec;
    eexists _, _, _, _, _;
    (split_and!; [reflexivity | reflexivity | apply BindTexture_spec
                 | reflexivity | reflexivity]).
Qed.

(** ** Construction *)

Lemma ctor_spec init :
  exists m,
    GLStateManager_ctor init = Returns tt m []
    /\ (forall state, mirrored_state m state = false)
    /\ (forall target, mirrored_buffer m target = 0)
    /\ (forall l target, mirrored_texture m l target = 0)
    /\ activeTextureLayer_ m = 0%fin.
Proof.
  eexists. split; [reflexivity|]. split_and!.
  - intros state. exact (vlookup_replicate numStates false _).
  - intros target. exact (vlookup_replicate numBufferTargets 0 _).
  - intros l target. unfold mirrored_texture.
    cbn [layers textureState_ set_layers set_textureState_ set_activeTextureLayer_].
    rewrite vlookup_map. exact (vlookup_replicate numTextureTargets 0 _).
  - done.
Qed.

(** C10. Constructing a manager returns an object whose capability mirror
    is all false, whose buffer slots and texture slots of every layer are
    all 0 and whose active layer pointer is layer 0; it stores the address
    of the new object into the static [active] pointer and issues no native
    call; a second construction redirects [active] to the second object,
    again with no native call, while the first object stays in place. *)
Theorem constructor_initialises (init : GLStateManager) (p : Process) :
  exists m,
    let this := length (objects p) in
    let p1 := {| objects := objects p ++ [m]; active := Some this |} in
    GLStateManager_new init p = Some (p1, this, [])
    /\ (forall state, mirrored_state m state = false)
    /\ (forall target, mirrored_buffer m target = 0)
    /\ (forall l target, mirrored_texture m l target = 0)
    /\ activeTextureLayer_ m = 0%fin
    /\ (forall init2,
          exists m2,
            GLStateManager_new init2 p1 =
              Some ({| objects := objects p ++ [m; m2]; active := Some (S this) |},
                    S this, [])
            /\ S this <> this
            /\ (objects p ++ [m; m2]) !! this = Some m).
Proof.
  destruct (ctor_spec init) as (m & Hc & H1 & H2 & H3 & H4).
  exists m. intros this p1. split_and!; try done.
  - unfold GLStateManager_new. by rewrite Hc.
  - intros init2. destruct (ctor_spec init2) as (m2 & Hc2 & _).
    exists m2. split_and!.
    + unfold GLStateManager_new. rewrite Hc2. subst p1. simpl.
      rewrite length_app. simpl. rewrite <- app_assoc. simpl.
      replace (length (objects p) + 1)%nat with (S this) by (subst this; lia).
      done.
    + lia.
    + subst this. rewrite lookup_app_r by lia.
      by rewrite Nat.sub_diag.
Qed.

Example second_construction_redirects :
  match GLStateManager_new zero_object Process_start with
  | Some (p1, _, calls1) =>
      match GLStateManager_new zero_object p1 with
      | Some (p2, _, calls2) => Some (active p1, active p2, calls1 ++ calls2)
      | None => None
      end
  | None => None
  end = Some (Some 0%nat, Some 1%nat, []).
Proof. vm_compute. reflexivity. Qed.

(** ** Texture layers *)

Lemma ActiveTexture_spec layer i m :
  layer_index layer = Some i ->
  ActiveTexture layer m =
    Returns tt
      (if decide (activeTexture (textureState_ m) = layer) then m
       else activate m layer i)
      (if decide (activeTexture (textureState_ m) = layer) then []
       else [glActiveTexture (textureLayersMap !!! i)]).
Proof.
  intros Hi. unfold ActiveTexture, activate. gl_unfold.
  case_bool_decide; case_decide; try congruence; [|done].
  simpl. by rewrite Hi.
Qed.

Lemma coherent_activate m layer i :
  layer_index layer = Some i -> coherent (activate m layer i).
Proof. done. Qed.

Lemma vmap_const {A B n} (y : B) (v : vec A n) :
  vmap (fun _ => y) v = vreplicate n y.
Proof. apply vec_eq. intros i. by rewrite vlookup_map, vlookup_replicate. Qed.

Lemma end_to_end_scenario ext init :
  activeTexture (textureState_ init) = 0 ->
  exists m,
    (GLStateManager_ctor ;; run ext end_to_end) init =
      Returns tt m
        [ glActiveTexture GL_TEXTURE2;
          glBindTexture GL_TEXTURE_2D 7;
          glBindTexture GL_TEXTURE_2D 9;
          glBindTexture GL_TEXTURE_2D 7 ]
    /\ mirrored_texture m 2%fin GLTextureTarget.TEXTURE_2D = 7
    /\ activeTexture (textureState_ m) = 2.
Proof.
  intros H0.
  destruct init as [rs bs [at0 ls ts] ss cs atl h e]. simpl in H0. subst at0.
  unfold bind at 1. unfold GLStateManager_ctor. gl_unfold. simpl.
  rewrite vmap_const.
  eexists. split; [vm_compute; reflexivity|].
  split; vm_compute; reflexivity.
Qed.

Lemma fin_of_nat_Some n : forall k (i : fin n),
  fin_of_nat n k = Some i -> fin_to_nat i = k.
Proof.
  induction n as [|n IH]; intros k i H; simpl in H; [done|].
  destruct k as [|k].
  - by inversion H.
  - destruct (fin_of_nat n k) as [j|] eqn:E; [|done]. simpl in H.
    inversion H; subst. simpl. f_equal. by apply IH.
Qed.

Lemma layer_index_inj l l' i :
  layer_index l = Some i -> layer_index l' = Some i -> l = l'.
Proof.
  unfold layer_index. intros H H'.
  destruct (Z.leb_spec 0 l); [|done]. destruct (Z.leb_spec 0 l'); [|done].
  apply fin_of_nat_Some in H, H'. lia.
Qed.

Lemma ActiveTexture_coherent layer i m :
  coherent m -> layer_index layer = Some i ->
  exists m',
    ActiveTexture layer m =
      Returns tt m'
        (if decide (activeTexture (textureState_ m) = layer) then []
         else [glActiveTexture (textureLayersMap !!! i)])
    /\ activeTexture (textureState_ m') = layer
    /\ activeTextureLayer_ m' = i
    /\ layers (textureState_ m') = layers (textureState_ m)
    /\ boundTextureStack (textureState_ m') = boundTextureStack (textureState_ m).
Proof.
  intros Hc Hi. rewrite (ActiveTexture_spec layer i m Hi).
  eexists. split; [done|]. case_decide as E; [|done].
  split_and!; try done. unfold coherent in Hc. rewrite E, Hi in Hc. by inversion Hc.
Qed.

Lemma BindTexture_layers target texture m :
  exists m',
    BindTexture target texture m =
      Returns tt m'
        (if decide (mirrored_texture m (activeTextureLayer_ m) target = texture)
         then []
         else [glBindTexture (textureTargetsMap !!! GLTextureTarget_index target)
                 texture])
    /\ activeTexture (textureState_ m') = activeTexture (textureState_ m)
    /\ activeTextureLayer_ m' = activeTextureLayer_ m
    /\ boundTextureStack (textureState_ m') = boundTextureStack (textureState_ m)
    /\ mirrored_texture m' (activeTextureLayer_ m) target = texture
    /\ (forall l, l <> activeTextureLayer_ m ->
          layers (textureState_ m') !!! l = layers (textureState_ m) !!! l).
Proof.
  rewrite BindTexture_spec. eexists. split; [done|].
  case_decide as E; [done|]. split_and!; try done.
  - apply mirrored_set_boundTexture.
  - intros l Hl. unfold set_boundTexture. simpl. by rewrite vlookup_insert_ne.
Qed.

Lemma PushBoundTexture_spec layer i target m :
  layer_index layer = Some i ->
  PushBoundTexture layer target m =
    Returns tt
      (set_boundTextureStack
         (TextureStackEntry.Build layer target (mirrored_texture m i target)
            :: boundTextureStack (textureState_ m)) m) [].
Proof. intros Hi. unfold PushBoundTexture. by rewrite Hi. Qed.

Lemma PopBoundTexture_coherent layer i target texture st m :
  coherent m -> layer_index layer = Some i ->
  boundTextureStack (textureState_ m)
    = TextureStackEntry.Build layer target texture :: st ->
  exists m' calls,
    PopBoundTexture m = Returns tt m' calls
    /\ activeTexture (textureState_ m') = layer
    /\ activeTextureLayer_ m' = i
    /\ mirrored_texture m' i target = texture
    /\ boundTextureStack (textureState_ m') = st
    /\ (forall l, l <> i ->
          layers (textureState_ m') !!! l = layers (textureState_ m) !!! l)
    /\ (count_calls is_glBindTexture calls <= 1)%nat.
Proof.
  intros Hc Hi Hs.
  destruct (ActiveTexture_coherent layer i m Hc Hi) as (m1 & H1 & Ha1 & Hl1 & Hls1 & Hs1).
  destruct (BindTexture_layers target texture m1) as (m2 & H2 & Ha2 & Hl2 & Hs2 & Hm2 & Ho2).
  unfold PopBoundTexture. unfold bind at 1. unfold gets at 1. rewrite Hs.
  simpl. unfold bind. rewrite H1, H2. unfold modify.
  eexists _, _. split; [reflexivity|]. simpl.
  split_and!.
  - congruence.
  - congruence.
  - unfold mirrored_texture in *. simpl. by rewrite <- Hl1.
  - rewrite Hs2, Hs1, Hs. done.
  - intros l Hl. rewrite Ho2 by congruence. by rewrite Hls1.
  - unfold count_calls. rewrite List.filter_app, length_app.
    repeat case_decide; simpl; lia.
Qed.

Lemma coherent_intro m layer i :
  activeTexture (textureState_ m) = layer -> activeTextureLayer_ m = i ->
  layer_index layer = Some i -> coherent m.
Proof. unfold coherent. by intros -> ->. Qed.

Lemma layer_isolation ext m L L' i i' T H H' :
  coherent m -> layer_index L = Some i -> layer_index L' = Some i' -> L <> L' ->
  exists m' calls,
    run ext (isolation_scenario L L' T H H') m = Returns tt m' calls
    /\ mirrored_texture m' i T = H
    /\ mirrored_texture m' i' T = H'
    /\ activeTextureLayer_ m' = i.
Proof.
  intros Hc Hi Hi' Hne.
  assert (Hii : i <> i') by (intros ->; apply Hne; eapply layer_index_inj; eauto).
  destruct (ActiveTexture_coherent L i m Hc Hi) as (m1 & E1 & Ha1 & Hl1 & Hls1 & _).
  destruct (BindTexture_layers T H m1) as (m2 & E2 & Ha2 & Hl2 & _ & Hm2 & Ho2).
  assert (Hc2 : coherent m2)
    by (eapply coherent_intro; [| |exact Hi]; congruence).
  destruct (ActiveTexture_coherent L' i' m2 Hc2 Hi') as (m3 & E3 & Ha3 & Hl3 & Hls3 & _).
  destruct (BindTexture_layers T H' m3) as (m4 & E4 & Ha4 & Hl4 & _ & Hm4 & Ho4).
  assert (Hc4 : coherent m4)
    by (eapply coherent_intro; [| |exact Hi']; congruence).
  destruct (ActiveTexture_coherent L i m4 Hc4 Hi) as (m5 & E5 & Ha5 & Hl5 & Hls5 & _).
  exists m5. eexists. split; [|split_and!].
  - unfold isolation_scenario.
    eapply run_cons_intro; [exact E1|].
    eapply run_cons_intro; [exact E2|].
    eapply run_cons_intro; [exact E3|].
    eapply run_cons_intro; [exact E4|].
    eapply run_cons_intro; [exact E5|]. reflexivity.
  - unfold mirrored_texture in *. rewrite Hls5, Ho4 by congruence.
    rewrite Hls3. by rewrite <- Hl1.
  - unfold mirrored_texture in *. rewrite Hls5. by rewrite <- Hl3.
  - done.
Qed.

(** C6. On a freshly constructed manager (whose [activeTexture] member
    starts at 0, the layer the constructor points [activeTextureLayer_]
    to), the end-to-end scenario leaves handle 7 bound at (layer 2,
    TEXTURE_2D) and issues exactly three [glBindTexture] calls; a
    [BindTexture] changes no layer but the active one; binding on layer
    [L], then on another layer [L'], then coming back leaves the binding of
    [L] in place; [PushBoundTexture] saves the binding of the (layer,
    target) pair it is given, whatever layer is active, and
    [PopBoundTexture] re-activates the saved layer and restores the saved
    binding there, touching no other layer. *)
Theorem texture_layer_isolation (ext : GLExtensions) :
  (forall init,
      activeTexture (textureState_ init) = 0 ->
      exists m calls,
        (GLStateManager_ctor ;; run ext end_to_end) init = Returns tt m calls
        /\ mirrored_texture m 2%fin GLTextureTarget.TEXTURE_2D = 7
        /\ count_calls is_glBindTexture calls = 3%nat)
  /\ (forall m target texture,
        exists m' calls,
          BindTexture target texture m = Returns tt m' calls
          /\ forall l, l <> activeTextureLayer_ m ->
               layers (textureState_ m') !!! l = layers (textureState_ m) !!! l)
  /\ (forall m L L' i i' T H H',
        coherent m -> layer_index L = Some i -> layer_index L' = Some i' ->
        L <> L' ->
        exists m' calls,
          run ext (isolation_scenario L L' T H H') m = Returns tt m' calls
          /\ mirrored_texture m' i T = H)
  /\ (forall m layer i target,
        layer_index layer = Some i ->
        PushBoundTexture layer target m =
          Returns tt
            (set_boundTextureStack
               (TextureStackEntry.Build layer target (mirrored_texture m i target)
                  :: boundTextureStack (textureState_ m)) m) [])
  /\ (forall m layer i target texture st,
        coherent m -> layer_index layer = Some i ->
        boundTextureStack (textureState_ m)
          = TextureStackEntry.Build layer target texture :: st ->
        exists m' calls,
          PopBoundTexture m = Returns tt m' calls
          /\ activeTexture (textureState_ m') = layer
          /\ activeTextureLayer_ m' = i
          /\ mirrored_texture m' i target = texture
          /\ boundTextureStack (textureState_ m') = st
          /\ forall l, l <> i ->
               layers (textureState_ m') !!! l = layers (textureState_ m) !!! l).
Proof.
  split_and!.
  - intros init H0. destruct (end_to_end_scenario ext init H0) as (m & E & Hm & _).
    exists m. eexists. split; [exact E|]. split; [exact Hm|]. reflexivity.
  - intros m target texture.
    destruct (BindTexture_layers target texture m) as (m' & E & _ & _ & _ & _ & Ho).
    eauto.
  - intros m L L' i i' T H H' Hc Hi Hi' Hne.
    destruct (layer_isolation ext m L L' i i' T H H' Hc Hi Hi' Hne)
      as (m' & calls & E & Hm & _).
    eauto.
  - intros. by apply PushBoundTexture_spec.
  - intros m layer i target texture st Hc Hi Hs.
    destruct (PopBoundTexture_coherent layer i target texture st m Hc Hi Hs)
      as (m' & calls & E & ? & ? & ? & ? & ? & _).
    exists m', calls. split_and!; done.
Qed.

Lemma ActiveTexture_preserves_coherent layer m m' calls :
  coherent m -> ActiveTexture layer m = Returns tt m' calls -> coherent m'.
Proof.
  intros Hc H. unfold ActiveTexture in H. gl_unfold.
  case_bool_decide; simpl in H; [|by inversion H; subst].
  destruct (layer_index layer) as [i|] eqn:Hi; [|done].
  by inversion H; subst.
Qed.

Lemma call_preserves_active_layer ext op :
  (forall layer, op <> OpActiveTexture layer) -> op <> OpPopBoundTexture ->
  preserves active_layer (call ext op).
Proof.
  intros Hat Hpop.
  destruct op; simpl;
    try (by apply PopStates_preserves);
    try (by destruct (Hat _ eq_refl));
    try (by destruct (Hpop eq_refl));
    unfold MakeCurrentInfo, Reset, Set_, Enable, Disable, IsEnabled,
      SetViewports, SetDepthRanges, SetScissors, SetBlendStates,
      SetClipControl, SetDepthFunc, SetStencilState, SetStencilState_to,
      SetPolygonMode, SetCullFace, SetFrontFace, SetDepthMask,
      BindBuffer_GLVertexBuffer, BindBuffer_GLIndexBuffer,
      BindBuffer_GLConstantBuffer, BindBuffer, BindBufferBase, BindVertexArray,
      ForcedBindBuffer, PushBoundBuffer, PopBoundBuffer, PushState, PopState,
      BindTexture_GLTexture, ForcedBindTexture_GLTexture,
      GetTextureTarget, BindTexture, ForcedBindTexture, PushBoundTexture,
      BindShaderProgram, PushShaderProgram, PopShaderProgram, BindShaderProgram,
      AdjustViewport, AdjustScissor, GLint_sub;
    preserves_tac; try apply SetBlendStates_each_preserves;
    unfold SetBlendState; preserves_tac.
Qed.

Lemma call_preserves_coherent ext op m m' calls :
  coherent m -> call ext op m = Returns tt m' calls -> coherent m'.
Proof.
  intros Hc H.
  assert (Hcases : (exists layer, op = OpActiveTexture layer)
                   \/ op = OpPopBoundTexture
                   \/ ((forall layer, op <> OpActiveTexture layer)
                       /\ op <> OpPopBoundTexture)).
  { destruct op; try (right; right; split; [intros ?|]; discriminate);
      [left; eauto | right; left; done]. }
  destruct Hcases as [[layer ->] | [-> | [Hat Hpop]]].
  { by eapply ActiveTexture_preserves_coherent. }
  { simpl in H. unfold PopBoundTexture in H.
    apply bind_Returns in H as (stack & m0 & c0 & c1 & H0 & H1 & ->).
    inversion H0; subst; clear H0.
    destruct (boundTextureStack (textureState_ m0)) as [|e st]; [done|].
    apply bind_Returns in H1 as ([] & m1 & c2 & c3 & H1 & H2 & ->).
    apply bind_Returns in H2 as ([] & m2 & c4 & c5 & H2 & H3 & ->).
    inversion H3; subst; clear H3.
    apply ActiveTexture_preserves_coherent in H1; [|done].
    destruct (BindTexture_layers (TextureStackEntry.target e)
                (TextureStackEntry.texture e) m1) as (m2' & E & Ha & Hl & _).
    rewrite E in H2. inversion H2; subst.
    unfold coherent in *. simpl. congruence. }
  assert (Hp : active_layer m' = active_layer m).
  { by eapply (call_preserves_active_layer ext op). }
  unfold coherent, active_layer in *. by inversion Hp as [[Ha Hl]]; rewrite Ha, Hl.
Qed.

Lemma run_preserves_coherent ext ops : forall m m' calls,
  coherent m -> run ext ops m = Returns tt m' calls -> coherent m'.
Proof.
  induction ops as [|op ops IH]; intros m m' calls Hc H.
  - by inversion H; subst.
  - apply run_cons in H as (m0 & c0 & c1 & H0 & H1 & ->).
    eapply IH; [|exact H1]. by eapply call_preserves_coherent.
Qed.

Lemma ctor_coherent init m calls :
  activeTexture (textureState_ init) = 0 ->
  GLStateManager_ctor init = Returns tt m calls -> coherent m.
Proof.
  intros H0 H. inversion H; subst. unfold coherent. simpl. by rewrite H0.
Qed.

(** ** The changed?-check *)

Lemma stencil_calls_same face s : stencil_calls face s s = [].
Proof. unfold stencil_calls. by rewrite !decide_True. Qed.

Lemma PopShaderProgram_spec m :
  PopShaderProgram m =
    match boundProgramStack (shaderState_ m) with
    | [] => Undefined
    | program :: st =>
        Returns tt
          (set_boundProgramStack st
             (if decide (boundProgram (shaderState_ m) = program) then m
              else set_boundProgram program m))
          (if decide (boundProgram (shaderState_ m) = program) then []
           else [glUseProgram program])
    end.
Proof.
  unfold PopShaderProgram. unfold bind at 1. unfold gets at 1.
  destruct (boundProgramStack (shaderState_ m)) as [|e st] eqn:E; [done|].
  unfold bind. rewrite BindShaderProgram_spec. unfold modify.
  case_decide; simpl; rewrite ?E, ?app_nil_r; done.
Qed.

Lemma ActiveTexture_same layer m :
  activeTexture (textureState_ m) = layer -> ActiveTexture layer m = Returns tt m [].
Proof.
  intros E. unfold ActiveTexture. gl_unfold.
  by rewrite bool_decide_false by (intros E'; by apply E').
Qed.

Ltac checked_unfold :=
  unfold Enable, Disable, SetBlendStates, SetDepthFunc, SetPolygonMode,
    SetCullFace, SetFrontFace, SetDepthMask, BindBuffer_GLVertexBuffer,
    BindBuffer_GLIndexBuffer, BindBuffer_GLConstantBuffer, ActiveTexture,
    mirrored_state, mirrored_buffer, mirrored_texture in *;
  gl_unfold.

Lemma PopStates_same count : forall m,
  (count <= length (valueStack (renderState_ m)))%nat ->
  Forall (fun e =>
            mirrored_state m (RenderStackEntry.state e) = RenderStackEntry.enabled e)
    (take count (valueStack (renderState_ m))) ->
  exists m', PopStates count m = Returns tt m' [].
Proof.
  induction count as [|n IH]; intros m Hle Hall; simpl; [by eexists|].
  pose proof (PopState_spec m) as Hp.
  destruct (valueStack (renderState_ m)) as [|e st] eqn:Es; [simpl in Hle; lia|].
  simpl in Hall. inversion Hall as [|? ? He Hst]; subst.
  cbn zeta in Hp. rewrite !decide_True in Hp by done.
  destruct (IH (set_valueStack st m)) as (m' & E').
  - simpl. simpl in Hle. lia.
  - exact Hst.
  - exists m'. unfold bind. by rewrite Hp, E'.
Qed.

(** The two halves of the comparison: under a request for the mirrored
    value, a checked call is silent and an unconditional call is not. *)
Lemma filtered_or_forced ext op m :
  requests_mirrored_value op m ->
  if redundancy_checked op
  then exists m', call ext op m = Returns tt m' []
  else if unconditional op
       then exists m' c calls, call ext op m = Returns tt m' (c :: calls)
       else True.
Proof.
  intros Hreq.
  destruct op; simpl in Hreq; try contradiction; simpl.
  - (* Set *) rewrite Set_spec, !decide_True by done. eauto.
  - (* Enable *) checked_unfold. rewrite Hreq. simpl. eauto.
  - (* Disable *) checked_unfold. rewrite Hreq. simpl. eauto.
  - (* PopState *) destruct Hreq as (e & st & Hs & Hm).
    rewrite PopState_spec, Hs. simpl. rewrite !decide_True by done. eauto.
  - (* PopStates *) destruct Hreq as [Hle Hall]. by apply PopStates_same.
  - (* SetBlendStates *)
    destruct blendStates as [|state [|s2 rest]]; [by eexists | | by destruct blendEnabled].
    inversion Hreq as [|? ? Hm _]; subst.
    checked_unfold. rewrite bool_decide_false by (intros E; by apply E).
    destruct blendEnabled; simpl; eauto.
  - (* SetDepthFunc *) checked_unfold.
    rewrite bool_decide_false by (intros E; by apply E). simpl. eauto.
  - (* SetStencilState *) destruct Hreq as [Hf Hb]. unfold SetStencilState.
    repeat case_decide; subst; try (by eauto);
      unfold bind; rewrite ?SetStencilState_to_spec.
    + rewrite (Hf (or_introl eq_refl)), stencil_calls_same. eauto.
    + rewrite (Hb (or_introl eq_refl)), stencil_calls_same. eauto.
    + rewrite (Hf (or_intror eq_refl)), stencil_calls_same.
      unfold assign_stencil at 3.
      cbn [stencil commonState_ set_stencil set_commonState_].
      rewrite vlookup_insert_ne by done.
      rewrite (Hb (or_intror eq_refl)), stencil_calls_same. eauto.
  - checked_unfold. rewrite bool_decide_false by (intros E; by apply E). simpl. eauto.
  - checked_unfold. rewrite bool_decide_false by (intros E; by apply E). simpl. eauto.
  - checked_unfold. rewrite bool_decide_false by (intros E; by apply E). simpl. eauto.
  - checked_unfold. rewrite bool_decide_false by (intros E; by apply E). simpl. eauto.
  - (* BindBuffer *) rewrite BindBuffer_spec, !decide_True by done. eauto.
  - (* BindBufferBase *) unfold BindBufferBase. gl_unfold. simpl. eauto.
  - (* ForcedBindBuffer *) unfold ForcedBindBuffer. gl_unfold. simpl. eauto.
  - (* PopBoundBuffer *) destruct Hreq as (e & st & Hs & Hm).
    rewrite PopBoundBuffer_spec, Hs. simpl. rewrite !decide_True by done. eauto.
  - unfold BindBuffer_GLVertexBuffer. rewrite BindBuffer_spec, !decide_True by done. eauto.
  - unfold BindBuffer_GLIndexBuffer. rewrite BindBuffer_spec, !decide_True by done. eauto.
  - unfold BindBuffer_GLConstantBuffer. rewrite BindBuffer_spec, !decide_True by done. eauto.
  - (* ActiveTexture *) checked_unfold.
    rewrite bool_decide_false by (intros E; by apply E). simpl. eauto.
  - (* BindTexture *) rewrite BindTexture_spec, !decide_True by done. eauto.
  - (* ForcedBindTexture *) unfold ForcedBindTexture. gl_unfold. simpl. eauto.
  - (* PopBoundTexture *) destruct Hreq as (e & st & Hs & Ha & Hm).
    unfold PopBoundTexture. unfold bind at 1. unfold gets at 1. rewrite Hs.
    unfold bind. rewrite ActiveTexture_same by done.
    rewrite BindTexture_spec, !decide_True by done.
    unfold modify. eauto.
  - (* BindTexture_GLTexture *) destruct Hreq as (target & Ht & Hm).
    unfold BindTexture_GLTexture.
    destruct (GLTexture.GetType texture); simpl in Ht; inversion Ht; subst;
      simpl; rewrite bind_ret_l, BindTexture_spec, !decide_True by done; eauto.
  - (* ForcedBindTexture_GLTexture *) destruct Hreq as (target & Ht & Hm).
    unfold ForcedBindTexture_GLTexture.
    destruct (GLTexture.GetType texture); simpl in Ht; inversion Ht; subst;
      simpl; rewrite bind_ret_l; unfold ForcedBindTexture; gl_unfold; simpl; eauto.
  - (* BindShaderProgram *) rewrite BindShaderProgram_spec, !decide_True by done. eauto.
  - (* PopShaderProgram *) destruct Hreq as (e & st & Hs & Hm).
    rewrite PopShaderProgram_spec, Hs. rewrite !decide_True by done. eauto.
Qed.

Lemma reads_context_ret {A} (a : A) : reads_context (ret a).
Proof. intros m1 m2 _. right. by eexists _, _. Qed.

Lemma reads_context_native c : reads_context (native c).
Proof. intros m1 m2 _. right. by eexists _, _. Qed.

Lemma reads_context_undefined {A} : reads_context (@undefined A).
Proof. intros m1 m2 _. by left. Qed.

Lemma reads_context_emulate : reads_context (gets emulateClipControl_).
Proof.
  intros m1 m2 [He _]. right. exists (emulateClipControl_ m1), [].
  unfold gets. by rewrite He.
Qed.

Lemma reads_context_height : reads_context (gets currentContextHeight_).
Proof.
  intros m1 m2 [_ Hh]. right. exists (currentContextHeight_ m1), [].
  unfold gets. by rewrite Hh.
Qed.

Lemma reads_context_bind {A B} (c : GL A) (k : A -> GL B) :
  reads_context c -> (forall a, reads_context (k a)) -> reads_context (bind c k).
Proof.
  intros Hc Hk m1 m2 Hm. unfold bind.
  destruct (Hc m1 m2 Hm) as [[-> ->]|(a & calls & -> & ->)]; [by left|].
  destruct (Hk a m1 m2 Hm) as [[-> ->]|(b & calls' & -> & ->)]; [by left|].
  right. by eexists _, _.
Qed.

Lemma reads_context_when (c : bool) body :
  reads_context body -> reads_context (when c body).
Proof. destruct c; simpl; [done | intros _; apply reads_context_ret]. Qed.

Lemma reads_context_for_each_ref {A} (l : list A) body :
  (forall x, reads_context (body x)) -> reads_context (for_each_ref l body).
Proof.
  intros Hb. induction l as [|x l IH]; simpl.
  - apply reads_context_ret.
  - apply reads_context_bind; [apply Hb | intros x'].
    apply reads_context_bind; [apply IH | intros l'; apply reads_context_ret].
Qed.

Lemma reads_context_log {A} (c : GL A) m1 m2 :
  reads_context c -> same_context m1 m2 -> log_of (c m1) = log_of (c m2).
Proof.
  intros Hc Hm. by destruct (Hc m1 m2 Hm) as [[-> ->]|(a & calls & -> & ->)].
Qed.

Ltac reads_context_step :=
  first
    [ apply reads_context_ret
    | apply reads_context_native
    | apply reads_context_undefined
    | apply reads_context_emulate
    | apply reads_context_height
    | apply reads_context_when
    | apply reads_context_for_each_ref; intros
    | apply reads_context_bind; [| intros]
    | match goal with
      | |- reads_context (if ?c then _ else _) => destruct c
      | |- reads_context (match ?x with _ => _ end) => destruct x
      | |- reads_context (let _ := _ in _) => cbv zeta
      end ].

Lemma unmirrored_reads_context ext op m m2 :
  unmirrored op = true -> same_context m m2 ->
  log_of (call ext op m2) = log_of (call ext op m).
Proof.
  intros Hu Hm. destruct op; try discriminate Hu; simpl.
  - symmetry. apply reads_context_log; [|exact Hm].
    unfold SetViewports, AdjustViewport. repeat reads_context_step.
  - symmetry. apply reads_context_log; [|exact Hm].
    unfold SetDepthRanges. repeat reads_context_step.
  - symmetry. apply reads_context_log; [|exact Hm].
    unfold SetScissors, AdjustScissor, GLint_sub. repeat reads_context_step.
  - reflexivity.
Qed.

(** C1, amended. When the value a call requests is the value the cache
    mirrors for it, a call of a redundancy-checked member function
    ([redundancy_checked], among them [PopStates] when every entry it pops
    holds the mirrored value) returns without any native call, and a call
    of one made unconditional on purpose ([unconditional]:
    [BindBufferBase], [ForcedBindBuffer], [ForcedBindTexture],
    [SetBlendStates] with one blend state and blending enabled) issues its
    native call all the same.  The calls that send a value of which the
    manager keeps no copy ([unmirrored]: [SetViewports], [SetDepthRanges],
    [SetScissors], [BindVertexArray]) issue the same native calls whatever
    the mirrors hold.  Nothing is said of [SetBlendStates] with several
    blend states. *)
Theorem changed_check (ext : GLExtensions) (op : Op) (m : GLStateManager) :
  (requests_mirrored_value op m ->
     (redundancy_checked op = true ->
        exists m', call ext op m = Returns tt m' [])
     /\ (unconditional op = true ->
           exists m' c calls, call ext op m = Returns tt m' (c :: calls)))
  /\ (unmirrored op = true ->
        forall m2, same_context m m2 ->
          log_of (call ext op m2) = log_of (call ext op m)).
Proof.
  split.
  - intros Hreq. pose proof (filtered_or_forced ext op m Hreq) as H.
    destruct (redundancy_checked op) eqn:Ec.
    + split; [by intros _ | intros Hu].
      destruct op; try discriminate Hu; try discriminate Ec.
      destruct blendStates as [|s1 [|s2 rest]]; try discriminate Hu.
      destruct blendEnabled; discriminate.
    + split; [discriminate | intros Hu]. by rewrite Hu in H.
  - intros Hu m2 Hm. by apply unmirrored_reads_context.
Qed.

(** *** Calls with no comparison at all *)

(** A single viewport is sent to the driver whatever was sent before: the
    manager mirrors no viewport. *)
Lemma SetViewports_single ext vp m x y width height :
  emulateClipControl_ m = false ->
  GLint_of_GLfloat (GLViewport.x vp) = Some x ->
  GLint_of_GLfloat (GLViewport.y vp) = Some y ->
  GLint_of_GLfloat (GLViewport.width vp) = Some width ->
  GLint_of_GLfloat (GLViewport.height vp) = Some height ->
  SetViewports ext [vp] m = Returns [vp] m [glViewport x y width height].
Proof.
  intros He Hx Hy Hw Hh. unfold SetViewports. gl_unfold.
  rewrite He. simpl. by rewrite Hx, Hy, Hw, Hh.
Qed.

Example SetViewports_twice :
  let vp :=
    GLViewport.Build (GLfloat_of_GLint 0) (GLfloat_of_GLint 100)
      (GLfloat_of_GLint 800) (GLfloat_of_GLint 400) in
  (vp' <- SetViewports no_extensions [vp] ;; SetViewports no_extensions vp')
    fresh_manager
  = Returns [vp] fresh_manager [glViewport 0 100 800 400; glViewport 0 100 800 400].
Proof. vm_compute. reflexivity. Qed.

Example SetViewports_emulated :
  let vp :=
    GLViewport.Build (GLfloat_of_GLint 0) (GLfloat_of_GLint 50)
      (GLfloat_of_GLint 800) (GLfloat_of_GLint 400) in
  calls_of
    ((MakeCurrentInfo {| GetContextHeight := 600 |} ;;
      SetClipControl GL_UPPER_LEFT 0 ;;
      SetViewports no_extensions [vp]) fresh_manager)
  = [glViewport 0 150 800 400].
Proof. vm_compute. reflexivity. Qed.

(** With blending enabled, the blend function of a single blend state is
    sent whatever the mirror holds. *)
Lemma SetBlendStates_single_enabled ext state m :
  colorMask (commonState_ m) = GLBlend.colorMask state ->
  SetBlendStates ext [state] true m =
    Returns tt m
      [glBlendFuncSeparate (GLBlend.srcColor state) (GLBlend.destColor state)
         (GLBlend.srcAlpha state) (GLBlend.destAlpha state)].
Proof.
  intros E. unfold SetBlendStates. gl_unfold.
  by rewrite bool_decide_false by (intros E'; by apply E').
Qed.

(** C1 as stated fails for the forced bind: on a fresh manager the array
    slot mirrors handle 0, and [ForcedBindBuffer(ARRAY_BUFFER, 0)] issues
    [glBindBuffer] all the same. *)
Lemma changed_check_counterexample :
  let op := OpForcedBindBuffer GLBufferTarget.ARRAY_BUFFER 0 in
  requests_mirrored_value op fresh_manager
  /\ call no_extensions op fresh_manager =
       Returns tt fresh_manager [glBindBuffer GL_ARRAY_BUFFER 0]
  /\ ~ (exists m', call no_extensions op fresh_manager = Returns tt m' []).
Proof.
  split; [reflexivity|]. split; [vm_compute; reflexivity|].
  intros [m' H]. vm_compute in H. discriminate H.
Qed.

Lemma changed_check_witness :
  let saved :=
    set_valueStack
      [RenderStackEntry.Build GLState.BLEND false;
       RenderStackEntry.Build GLState.DEPTH_TEST false] fresh_manager in
  requests_mirrored_value (OpBindBuffer GLBufferTarget.ARRAY_BUFFER 0) fresh_manager
  /\ (exists m',
        call no_extensions (OpBindBuffer GLBufferTarget.ARRAY_BUFFER 0) fresh_manager
          = Returns tt m' [])
  /\ requests_mirrored_value (OpPopStates 2) saved
  /\ (exists m', call no_extensions (OpPopStates 2) saved = Returns tt m' [])
  /\ requests_mirrored_value (OpForcedBindTexture GLTextureTarget.TEXTURE_2D 0)
       fresh_manager
  /\ (exists m' c calls,
        call no_extensions (OpForcedBindTexture GLTextureTarget.TEXTURE_2D 0)
          fresh_manager = Returns tt m' (c :: calls))
  /\ same_context fresh_manager saved
  /\ log_of (call no_extensions (OpBindVertexArray 4) saved)
     = log_of (call no_extensions (OpBindVertexArray 4) fresh_manager).
Proof.
  intros saved.
  assert (H1 : requests_mirrored_value
                 (OpBindBuffer GLBufferTarget.ARRAY_BUFFER 0) fresh_manager)
    by reflexivity.
  assert (H2 : requests_mirrored_value (OpPopStates 2) saved).
  { split; [simpl; lia|]. repeat constructor. }
  assert (H3 : requests_mirrored_value
                 (OpForcedBindTexture GLTextureTarget.TEXTURE_2D 0) fresh_manager)
    by reflexivity.
  assert (H4 : same_context fresh_manager saved) by (split; reflexivity).
  split; [exact H1|]. split.
  { exact (proj1 (proj1 (changed_check no_extensions
                           (OpBindBuffer GLBufferTarget.ARRAY_BUFFER 0)
                           fresh_manager) H1) eq_refl). }
  split; [exact H2|]. split.
  { exact (proj1 (proj1 (changed_check no_extensions (OpPopStates 2) saved) H2)
             eq_refl). }
  split; [exact H3|]. split.
  { exact (proj2 (proj1 (changed_check no_extensions
                           (OpForcedBindTexture GLTextureTarget.TEXTURE_2D 0)
                           fresh_manager) H3) eq_refl). }
  split; [exact H4|].
  exact (proj2 (changed_check no_extensions (OpBindVertexArray 4) fresh_manager)
           eq_refl saved H4).
Defined.

Lemma redundant_binding_elimination_witness :
  let p := BufferPoint GLBufferTarget.ARRAY_BUFFER in
  NoDup [1; 2; 3]
  /\ exists m' calls,
       run no_extensions (map (bind_op p) [1; 2; 3]) fresh_manager
         = Returns tt m' calls
       /\ count_calls (is_native_bind p) calls = 3%nat.
Proof.
  intros p.
  assert (Hnd : NoDup [1; 2; 3]).
  { exact (bool_decide_unpack (NoDup [1; 2; 3]) I). }
  split; [exact Hnd|].
  destruct (redundant_binding_elimination no_extensions p fresh_manager) as [_ H].
  destruct (H [1; 2; 3] Hnd) as (m' & calls & E & Hc).
  exists m', calls. split; [exact E | exact Hc].
Defined.

Lemma texture_layer_isolation_witness :
  activeTexture (textureState_ zero_object) = 0
  /\ coherent fresh_manager
  /\ layer_index 1 = Some 1%fin
  /\ layer_index 3 = Some 3%fin
  /\ (exists m calls,
        (GLStateManager_ctor ;; run no_extensions end_to_end) zero_object
          = Returns tt m calls
        /\ mirrored_texture m 2%fin GLTextureTarget.TEXTURE_2D = 7
        /\ count_calls is_glBindTexture calls = 3%nat)
  /\ (exists m' calls,
        run no_extensions
          (isolation_scenario 1 3 GLTextureTarget.TEXTURE_2D 11 12) fresh_manager
          = Returns tt m' calls
        /\ mirrored_texture m' 1%fin GLTextureTarget.TEXTURE_2D = 11).
Proof.
  destruct (texture_layer_isolation no_extensions) as (H1 & _ & H3 & _ & _).
  assert (Hc : coherent fresh_manager) by reflexivity.
  split; [reflexivity|]. split; [exact Hc|].
  split; [reflexivity|]. split; [reflexivity|].
  split.
  - exact (H1 zero_object eq_refl).
  - refine (H3 fresh_manager 1 3 1%fin 3%fin GLTextureTarget.TEXTURE_2D 11 12
              Hc eq_refl eq_refl _).
    discriminate.
Defined.

(** Every manager a program can reach is coherent: the constructor leaves
    one, and every call keeps it. *)
Lemma reachable_coherent ext init ops m calls :
  activeTexture (textureState_ init) = 0 ->
  (GLStateManager_ctor ;; run ext ops) init = Returns tt m calls ->
  coherent m.
Proof.
  intros H0 H.
  apply bind_Returns in H as ([] & m0 & c0 & c1 & Hc & Hr & ->).
  eapply run_preserves_coherent; [|exact Hr]. by eapply ctor_coherent.
Qed.

(** ** Save and restore, concluded *)

Lemma returns_ret {A} (a : A) : returns (ret a).
Proof. intros m. by eexists _, _, _. Qed.

Lemma returns_gets {A} (g : GLStateManager -> A) : returns (gets g).
Proof. intros m. by eexists _, _, _. Qed.

Lemma returns_modify g : returns (modify g).
Proof. intros m. by eexists _, _, _. Qed.

Lemma returns_native c : returns (native c).
Proof. intros m. by eexists _, _, _. Qed.

Lemma returns_bind {A B} (c : GL A) (k : A -> GL B) :
  returns c -> (forall a, returns (k a)) -> returns (bind c k).
Proof.
  intros Hc Hk m. destruct (Hc m) as (a & m1 & calls1 & E1).
  destruct (Hk a m1) as (b & m2 & calls2 & E2).
  exists b, m2, (calls1 ++ calls2). unfold bind. by rewrite E1, E2.
Qed.

Lemma returns_when (c : bool) body : returns body -> returns (when c body).
Proof. destruct c; simpl; [done | intros _; apply returns_ret]. Qed.

Lemma returns_for_each {A} (l : list A) body :
  (forall x, returns (body x)) -> returns (for_each l body).
Proof.
  intros Hb. induction l as [|x l IH]; simpl.
  - apply returns_ret.
  - apply returns_bind; [apply Hb | intros _; apply IH].
Qed.

Ltac returns_step :=
  first
    [ apply returns_ret
    | apply returns_gets
    | apply returns_native
    | apply returns_modify
    | apply returns_when
    | apply returns_for_each; intros
    | apply returns_bind; [| intros]
    | match goal with
      | |- returns (if ?c then _ else _) => destruct c
      | |- returns (match ?x with _ => _ end) => destruct x
      end ].

Ltac returns_tac := repeat returns_step.

Lemma SetBlendStates_each_returns ext l : forall drawBuffer blendEnabled,
  returns (SetBlendStates_each ext drawBuffer l blendEnabled).
Proof.
  induction l as [|st l IH]; intros; simpl.
  - apply returns_ret.
  - apply returns_bind; [| intros; apply IH].
    unfold SetBlendState. returns_tac.
Qed.

Lemma call_returns ext op : always_returns op = true -> returns (call ext op).
Proof.
  destruct op; simpl; intros Ha; try discriminate;
    try (apply bool_decide_eq_true in Ha as [i Hi]);
    try (intros m; rewrite (ActiveTexture_spec _ i m Hi); by eexists _, _, _);
    unfold MakeCurrentInfo, Reset, Set_, Enable, Disable, IsEnabled,
      SetDepthRanges, SetBlendStates,
      SetClipControl, SetDepthFunc, SetStencilState, SetStencilState_to,
      SetPolygonMode, SetCullFace, SetFrontFace, SetDepthMask,
      BindBuffer_GLVertexBuffer, BindBuffer_GLIndexBuffer,
      BindBuffer_GLConstantBuffer, BindBuffer, BindBufferBase, BindVertexArray,
      ForcedBindBuffer, PushBoundBuffer, PushState,
      BindTexture_GLTexture, ForcedBindTexture_GLTexture,
      BindTexture, ForcedBindTexture, PushBoundTexture,
      BindShaderProgram, PushShaderProgram;
    rewrite ?Hi;
    try (destruct (GLTexture.GetType texture); try discriminate; simpl);
    returns_tac; try apply SetBlendStates_each_returns;
    unfold SetBlendState; returns_tac.
Qed.

Lemma PopStates_returns count : forall m,
  (count <= length (valueStack (renderState_ m)))%nat ->
  exists m' calls, PopStates count m = Returns tt m' calls.
Proof.
  induction count as [|n IH]; intros m Hle; simpl.
  - by eexists _, _.
  - pose proof (PopState_spec m) as Hp.
    destruct (valueStack (renderState_ m)) as [|e st] eqn:E; [simpl in Hle; lia|].
    cbn zeta in Hp.
    match type of Hp with _ = Returns _ ?m1 _ => destruct (IH m1) as (m' & calls & E') end.
    { simpl. simpl in Hle. lia. }
    unfold bind. rewrite Hp, E'. by eexists _, _.
Qed.

Lemma call_returns_in_discipline ext s op m :
  in_discipline s op = true ->
  (match s with
   | StateSlot _ => state_pops op <= length (valueStack (renderState_ m))
   | BufferSlot _ => buffer_pops op <= length (boundBufferStack (bufferState_ m))
   end)%nat ->
  exists m' calls, call ext op m = Returns tt m' calls.
Proof.
  unfold in_discipline. intros Hd Hle.
  destruct (always_returns op) eqn:Ha.
  - destruct (call_returns ext op Ha m) as ([] & m' & calls & E). eauto.
  - simpl in Hd. destruct s, op; try discriminate; simpl in *.
    + rewrite PopState_spec.
      destruct (valueStack (renderState_ m)); [simpl in Hle; lia|]. by eexists _, _.
    + by apply PopStates_returns.
    + rewrite PopBoundBuffer_spec.
      destruct (boundBufferStack (bufferState_ m)); [simpl in Hle; lia|].
      by eexists _, _.
Qed.

Section StackReturns.
Context {E : Type} (stk : GLStateManager -> list E).
Context (pushes pops : Op -> nat) (ext : GLExtensions) (allowed : Op -> bool).
Hypothesis call_effect : forall op m m' calls,
call ext op m = Returns tt m' calls ->
exists new,
  length new = pushes op /\ stk m' = new ++ drop (pops op) (stk m).
Hypothesis call_allowed : forall op m,
allowed op = true -> (pops op <= length (stk m))%nat ->
exists m' calls, call ext op m = Returns tt m' calls.

Lemma run_returns ops : forall d d' m,
depth_after pushes pops d ops = Some d' ->
forallb allowed ops = true ->
(d <= length (stk m))%nat ->
exists m' calls, run ext ops m = Returns tt m' calls.
Proof.
induction ops as [|op ops IH]; intros d d' m Hd Ha Hl.
- by eexists _, _.
- simpl in Hd, Ha. apply andb_true_iff in Ha as [Ha1 Ha2].
  destruct (pops op <=? d)%nat eqn:Hle; [|done]. apply Nat.leb_le in Hle.
  destruct (call_allowed op m Ha1) as (m1 & calls1 & E1); [lia|].
  destruct (call_effect _ _ _ _ E1) as (new & Hn & Hs).
  destruct (IH _ _ m1 Hd Ha2) as (m2 & calls2 & E2).
  { rewrite Hs, length_app, length_drop. lia. }
  exists m2, (calls1 ++ calls2). by apply run_cons_intro with m1.
Qed.
End StackReturns.

Lemma body_returns ext s ops m :
  balanced_for s ops -> forallb (in_discipline s) ops = true ->
  exists m1 calls, run ext (push_op s :: ops) m = Returns tt m1 calls.
Proof.
  intros Hb Ha. destruct s as [C | t]; simpl in Hb.
  - destruct (run_returns (fun m => valueStack (renderState_ m))
                state_pushes state_pops ext (in_discipline (StateSlot C))
                (call_effect_valueStack ext)
                (fun op m => call_returns_in_discipline ext (StateSlot C) op m)
                ops 0%nat 0%nat
                (set_valueStack
                   (RenderStackEntry.Build C (mirrored_state m C)
                      :: valueStack (renderState_ m)) m) Hb Ha)
      as (m1 & calls & E); [lia|].
    exists m1, calls.
    change calls with ([] ++ calls). eapply run_cons_intro; [reflexivity | exact E].
  - destruct (run_returns (fun m => boundBufferStack (bufferState_ m))
                buffer_pushes buffer_pops ext (in_discipline (BufferSlot t))
                (call_effect_boundBufferStack ext)
                (fun op m => call_returns_in_discipline ext (BufferSlot t) op m)
                ops 0%nat 0%nat
                (set_boundBufferStack
                   (BufferStackEntry.Build t (mirrored_buffer m t)
                      :: boundBufferStack (bufferState_ m)) m) Hb Ha)
      as (m1 & calls & E); [lia|].
    exists m1, calls.
    change calls with ([] ++ calls). eapply run_cons_intro; [reflexivity | exact E].
Qed.

(** C3. For a capability or a buffer target [s]: after a push of [s], any
    list of calls that is balanced on the stack of [s] and runs to its end,
    and the matching pop, the value mirrored for [s] is the value mirrored
    before the push and the stack is as before the push; the pop issues the
    native call exactly when the value it restores differs from the value
    mirrored at that moment; a push directly followed by its pop issues no
    native call and leaves the manager as it was; and a balanced body
    made of calls that cannot fail and of pushes and pops of the stack of
    [s] does run to its end. *)
Theorem push_pop_symmetry (ext : GLExtensions) (s : Slot) (m : GLStateManager) :
  (forall ops m1 calls,
      balanced_for s ops ->
      run ext (push_op s :: ops) m = Returns tt m1 calls ->
      exists m2,
        run ext (push_op s :: ops ++ [pop_op s]) m =
          Returns tt m2
            (calls ++ if decide (same_mirror s m1 m) then [] else [restore_call s m])
        /\ same_mirror s m2 m
        /\ same_stack s m2 m)
  /\ run ext [push_op s; pop_op s] m = Returns tt m []
  /\ (forall ops,
        balanced_for s ops -> forallb (in_discipline s) ops = true ->
        exists m1 calls, run ext (push_op s :: ops) m = Returns tt m1 calls).
Proof.
  split; [|split; [|intros ops; apply body_returns]].
  - intros ops m1 calls Hb Hr.
    destruct (run_cons _ _ _ _ _ _ Hr) as (m0 & c0 & c1 & Hpush & Hops & ->).
    destruct s as [C | t]; simpl in *.
    + inversion Hpush; subst; clear Hpush.
      pose proof (run_balanced (fun m => valueStack (renderState_ m))
                    state_pushes state_pops ext (call_effect_valueStack ext)
                    ops _ _ _ Hb Hops) as Hstk.
      simpl in Hstk.
      pose proof (PopState_spec m1) as Hpop. rewrite Hstk in Hpop.
      simpl in Hpop. fold (mirrored_state m C) in Hpop.
      eexists. split; [|split].
      * change (OpPushState C :: ops ++ [OpPopState])
          with ((OpPushState C :: ops) ++ [OpPopState]).
        eapply run_snoc; [exact Hr|]. simpl. exact Hpop.
      * simpl. case_decide; [done|].
        unfold mirrored_state, assign_state. simpl. apply vlookup_insert.
      * by case_decide.
    + inversion Hpush; subst; clear Hpush.
      pose proof (run_balanced (fun m => boundBufferStack (bufferState_ m))
                    buffer_pushes buffer_pops ext (call_effect_boundBufferStack ext)
                    ops _ _ _ Hb Hops) as Hstk.
      simpl in Hstk.
      pose proof (PopBoundBuffer_spec m1) as Hpop. rewrite Hstk in Hpop.
      simpl in Hpop. fold (mirrored_buffer m t) in Hpop.
      eexists. split; [|split].
      * change (OpPushBoundBuffer t :: ops ++ [OpPopBoundBuffer])
          with ((OpPushBoundBuffer t :: ops) ++ [OpPopBoundBuffer]).
        eapply run_snoc; [exact Hr|]. simpl. exact Hpop.
      * simpl. case_decide; [done|].
        unfold mirrored_buffer, assign_buffer. simpl. apply vlookup_insert.
      * by case_decide.
  - destruct s as [C | t]; unfold run; simpl.
    + unfold bind. unfold PushState at 1. unfold modify at 1.
      rewrite PopState_spec. simpl.
      unfold mirrored_state. simpl. rewrite !decide_True by done.
      by destruct m as [[] ? ? ? ? ? ? ?].
    + unfold bind. unfold PushBoundBuffer at 1. unfold modify at 1.
      rewrite PopBoundBuffer_spec. simpl.
      unfold mirrored_buffer. simpl. rewrite !decide_True by done.
      by destruct m as [? [] ? ? ? ? ? ?].
Qed.

Lemma push_pop_symmetry_witness :
  let s := StateSlot GLState.DEPTH_TEST in
  let ops :=
    [ OpEnable GLState.DEPTH_TEST;
      OpPushState GLState.BLEND;
      OpSet GLState.BLEND true;
      OpPopState;
      OpBindBuffer GLBufferTarget.ARRAY_BUFFER 3 ] in
  balanced_for s ops
  /\ forallb (in_discipline s) ops = true
  /\ (exists m1 calls,
        run no_extensions (push_op s :: ops) fresh_manager = Returns tt m1 calls)
  /\ exists m1 calls m2,
       run no_extensions (push_op s :: ops) fresh_manager = Returns tt m1 calls
       /\ run no_extensions (push_op s :: ops ++ [pop_op s]) fresh_manager
            = Returns tt m2 (calls ++ [glDisable GL_DEPTH_TEST])
       /\ same_mirror s m2 fresh_manager.
Proof.
  intros s ops.
  assert (Hb : balanced_for s ops) by reflexivity.
  assert (Hd : forallb (in_discipline s) ops = true) by reflexivity.
  split; [exact Hb|]. split; [exact Hd|].
  destruct (push_pop_symmetry no_extensions s fresh_manager) as (H & _ & Hret).
  split; [exact (Hret ops Hb Hd)|].
  eexists _, _.
  destruct (H ops _ _ Hb ltac:(vm_compute; reflexivity)) as (m2 & E & Hm & _).
  exists m2. split; [reflexivity|]. split; [exact E | exact Hm].
Defined.

(** *** The validation layer *)

Lemma count_reports_app v l1 l2 :
  DbgCommandBuffer.count_reports v (l1 ++ l2) =
    (DbgCommandBuffer.count_reports v l1 + DbgCommandBuffer.count_reports v l2)%nat.
Proof.
  unfold DbgCommandBuffer.count_reports. by rewrite List.filter_app, length_app.
Qed.

Lemma DebugDrawIndexed_missing_index_buffer s numVertices :
  DbgCommandBuffer.indexBuffer (DbgCommandBuffer.bindings_ s) = None ->
  DbgCommandBuffer.count_reports DbgCommandBuffer.NoIndexBuffer
    (DbgCommandBuffer.DebugDrawIndexed s numVertices) = 1%nat.
Proof.
  intros Hi. unfold DbgCommandBuffer.DebugDrawIndexed.
  rewrite !count_reports_app.
  unfold DbgCommandBuffer.DebugGraphicsPipelineSet,
    DbgCommandBuffer.DebugVertexBufferSet, DbgCommandBuffer.DebugIndexBufferSet,
    DbgCommandBuffer.DebugStreamOutput, DbgCommandBuffer.DebugNumVertices.
  rewrite Hi.
  destruct (DbgCommandBuffer.graphicsPipeline (DbgCommandBuffer.bindings_ s)),
    (DbgCommandBuffer.vertexBuffer (DbgCommandBuffer.bindings_ s)),
    (DbgCommandBuffer.streamOutputBusy s),
    (DbgCommandBuffer.verticesPerPrimitive (DbgCommandBuffer.topology_ s)) as [n|];
    try destruct (numVertices mod n =? 0); reflexivity.
Qed.

(** C8. Every call of the validation layer is forwarded to the wrapped
    command buffer, whatever the snapshot it is checked against and
    whatever is reported; [DrawIndexed] with no index buffer bound adds
    exactly one report that cites the missing index buffer (the only
    report when the rest of the snapshot is in order) and is still
    forwarded. *)
Theorem advisory_forwarding (d : DbgCommandBuffer.State) :
  (forall cmd,
      DbgCommandBuffer.instance (DbgCommandBuffer.call cmd d)
        = DbgCommandBuffer.instance d ++ [cmd]
      /\ exists reports,
           DbgCommandBuffer.debugger (DbgCommandBuffer.call cmd d)
             = DbgCommandBuffer.debugger d ++ reports)
  /\ (forall numVertices firstIndex,
        DbgCommandBuffer.indexBuffer
          (DbgCommandBuffer.bindings_ (DbgCommandBuffer.snapshot d)) = None ->
        let cmd := DbgCommandBuffer.DrawIndexed numVertices firstIndex in
        exists reports,
          DbgCommandBuffer.debugger (DbgCommandBuffer.call cmd d)
            = DbgCommandBuffer.debugger d ++ reports
          /\ DbgCommandBuffer.count_reports DbgCommandBuffer.NoIndexBuffer reports
               = 1%nat
          /\ DbgCommandBuffer.instance (DbgCommandBuffer.call cmd d)
               = DbgCommandBuffer.instance d ++ [cmd]
          /\ (DbgCommandBuffer.DebugDraw (DbgCommandBuffer.snapshot d) numVertices = []
              -> reports = [DbgCommandBuffer.NoIndexBuffer])).
Proof.
  split.
  - intros cmd. split; [reflexivity|]. by eexists.
  - intros numVertices firstIndex Hi cmd.
    exists (DbgCommandBuffer.DebugDrawIndexed (DbgCommandBuffer.snapshot d) numVertices).
    split_and!; try reflexivity.
    + by apply DebugDrawIndexed_missing_index_buffer.
    + unfold DbgCommandBuffer.DebugDraw, DbgCommandBuffer.DebugDrawIndexed.
      unfold DbgCommandBuffer.DebugIndexBufferSet. rewrite Hi.
      intros H.
      apply app_eq_nil in H as [-> H]. apply app_eq_nil in H as [-> H].
      apply app_eq_nil in H as [-> ->]. reflexivity.
Qed.

Lemma advisory_forwarding_witness :
  let start :=
    {| DbgCommandBuffer.instance := [];
       DbgCommandBuffer.debugger := [];
       DbgCommandBuffer.snapshot := DbgCommandBuffer.Snapshot_default |} in
  let pipeline :=
    {| DbgCommandBuffer.pipelineId := 1;
       DbgCommandBuffer.pipelineTopology := DbgCommandBuffer.TriangleList |} in
  let vertices :=
    {| DbgCommandBuffer.bufferId := 2;
       DbgCommandBuffer.bufferType := DbgCommandBuffer.VertexBuffer |} in
  let d :=
    DbgCommandBuffer.call (DbgCommandBuffer.SetVertexBuffer vertices)
      (DbgCommandBuffer.call (DbgCommandBuffer.SetGraphicsPipeline pipeline) start) in
  let cmd := DbgCommandBuffer.DrawIndexed 9 0 in
  DbgCommandBuffer.indexBuffer
    (DbgCommandBuffer.bindings_ (DbgCommandBuffer.snapshot d)) = None
  /\ DbgCommandBuffer.debugger (DbgCommandBuffer.call cmd d)
       = [DbgCommandBuffer.NoIndexBuffer]
  /\ DbgCommandBuffer.instance (DbgCommandBuffer.call cmd d)
       = [DbgCommandBuffer.SetGraphicsPipeline pipeline;
          DbgCommandBuffer.SetVertexBuffer vertices; cmd].
Proof.
  intros start pipeline vertices d cmd.
  assert (Hi : DbgCommandBuffer.indexBuffer
                 (DbgCommandBuffer.bindings_ (DbgCommandBuffer.snapshot d)) = None)
    by reflexivity.
  split; [exact Hi|].
  destruct (advisory_forwarding d) as [_ H].
  destruct (H 9 0 Hi) as (reports & Hr & _ & Hf & Hone).
  split; [|exact Hf].
  rewrite (Hone eq_refl) in Hr. exact Hr.
Defined.

(* ================================================================= *)
(** * Further properties of the manager *)

Lemma GLState_index_inj C C' : GLState_index C = GLState_index C' -> C = C'.
Proof. destruct C, C'; intros H; try reflexivity; discriminate H. Qed.

Lemma mirrored_assign_state_other m C b C' :
  mirrored_state (assign_state m C b) C' =
    if decide (C' = C) then b else mirrored_state m C'.
Proof.
  unfold mirrored_state, assign_state. simpl. case_decide as E.
  - subst. apply vlookup_insert.
  - apply vlookup_insert_ne. intros E'. apply E. symmetry.
    by apply GLState_index_inj.
Qed.

(** The loop of [Reset] over a list of indices. *)
Lemma Reset_loop driver (l : list (fin numStates)) : forall m,
  for_each l (fun i =>
    native (glIsEnabled (stateCapsMap !!! i)) ;;
    modify (fun m =>
      set_values
        (vinsert i (neq (driver (stateCapsMap !!! i)) GL_FALSE)
                 (values (renderState_ m))) m)) m
  = Returns tt
      (set_values
         (foldl (fun v i => vinsert i (driver_enabled driver (stateCapsMap !!! i)) v)
                (values (renderState_ m)) l) m)
      (map (fun i => glIsEnabled (stateCapsMap !!! i)) l).
Proof.
  induction l as [|i l IH]; intros m.
  - simpl. unfold ret. by rewrite set_values_id.
  - simpl. unfold bind at 1. unfold bind at 1. unfold native at 1, modify at 1.
    rewrite IH. simpl. reflexivity.
Qed.

Lemma foldl_vinsert_lookup {A n} (g : fin n -> A) (l : list (fin n)) :
  forall (v : vec A n) j,
    foldl (fun v i => vinsert i (g i) v) v l !!! j =
      if decide (j ∈ l) then g j else v !!! j.
Proof.
  induction l as [|i l IH]; intros v j; cbn [foldl].
  - case_decide as H; [by apply elem_of_nil in H | done].
  - rewrite IH. destruct (decide (j ∈ l)) as [Hin|Hnin].
    + rewrite decide_True; [done | by right].
    + destruct (decide (i = j)) as [->|Hne].
      * rewrite vlookup_insert. rewrite decide_True; [done | by left].
      * rewrite vlookup_insert_ne by done.
        rewrite decide_False; [done|]. intros Hin'.
        apply elem_of_cons in Hin' as [->|?]; done.
Qed.

(** X1. [Reset] asks the driver once for each of the capabilities, in
    table order, and leaves every mirrored value at the driver's answer
    (anything but [GL_FALSE] counts as enabled), whatever the mirror held
    before.  A [Set] that follows is therefore silent exactly when it asks
    for what the driver reported. *)
Theorem Reset_mirrors_driver (driver : GLenum -> GLboolean) (m : GLStateManager) :
  Reset driver m =
    Returns tt (set_values (vmap (driver_enabled driver) stateCapsMap) m)
      (map glIsEnabled (vec_to_list stateCapsMap))
  /\ (forall C,
        mirrored_state (set_values (vmap (driver_enabled driver) stateCapsMap) m) C
          = driver_enabled driver (stateCapsMap !!! GLState_index C))
  /\ (forall C b,
        (Reset driver ;; Set_ C b) m =
          Returns tt
            (assign_state (set_values (vmap (driver_enabled driver) stateCapsMap) m) C b)
            (map glIsEnabled (vec_to_list stateCapsMap)
             ++ if decide (driver_enabled driver (stateCapsMap !!! GLState_index C) = b)
                then [] else [transition C b])).
Proof.
  assert (Hr : Reset driver m =
    Returns tt (set_values (vmap (driver_enabled driver) stateCapsMap) m)
      (map glIsEnabled (vec_to_list stateCapsMap))); [|split_and!; [exact Hr| |]].
  - unfold Reset. rewrite Reset_loop. f_equal; try reflexivity.
    f_equal. apply vec_eq. intros j.
    rewrite foldl_vinsert_lookup, vlookup_map.
    rewrite decide_True; [done|].
    change (j ∈ enum (fin numStates)). apply elem_of_enum.
  - intros C. exact (vlookup_map (driver_enabled driver) stateCapsMap _).
  - intros C b. unfold bind. rewrite Hr, Set_spec.
    assert (Hm : mirrored_state
                   (set_values (vmap (driver_enabled driver) stateCapsMap) m) C
                 = driver_enabled driver (stateCapsMap !!! GLState_index C))
      by exact (vlookup_map (driver_enabled driver) stateCapsMap _).
    rewrite Hm. case_decide as E; [|done].
    f_equal. unfold assign_state. rewrite <- E, <- Hm.
    unfold mirrored_state. rewrite vlookup_insert_self.
    by rewrite set_values_id.
Qed.

(** X2. After [Set(C, b)], [IsEnabled] answers [b] for [C] and what it
    answered before for every other capability; [IsEnabled] issues no
    native call, and [Set] touches neither the stack of saved values nor
    any other part of the manager. *)
Theorem Set_then_IsEnabled (C C' : GLState) (b : bool) (m : GLStateManager) :
  exists m',
    (Set_ C b ;; IsEnabled C') m =
      Returns (if decide (C' = C) then b else mirrored_state m C') m'
        (if decide (mirrored_state m C = b) then [] else [transition C b])
    /\ IsEnabled C' m' = Returns (mirrored_state m' C') m' []
    /\ valueStack (renderState_ m') = valueStack (renderState_ m)
    /\ bufferState_ m' = bufferState_ m
    /\ textureState_ m' = textureState_ m
    /\ shaderState_ m' = shaderState_ m
    /\ commonState_ m' = commonState_ m.
Proof.
  exists (if decide (mirrored_state m C = b) then m else assign_state m C b).
  split; [|split; [reflexivity | by case_decide]].
  unfold bind. rewrite Set_spec. unfold IsEnabled, gets.
  rewrite app_nil_r. f_equal.
  fold (mirrored_state (if decide (mirrored_state m C = b) then m
                        else assign_state m C b) C').
  destruct (decide (mirrored_state m C = b)) as [E|E].
  - case_decide; by subst.
  - apply mirrored_assign_state_other.
Qed.

Lemma scalar_op_spec ext k v m :
  exists m',
    call ext (scalar_op k v) m =
      Returns tt m' (if decide (scalar_mirror k m = v) then [] else [scalar_call k v])
    /\ scalar_mirror k m' = v
    /\ (forall k', k' <> k -> scalar_mirror k' m' = scalar_mirror k' m)
    /\ (scalar_mirror k m = v -> m' = m).
Proof.
  destruct k; simpl;
    unfold SetDepthFunc, SetPolygonMode, SetCullFace, SetFrontFace, SetDepthMask,
      BindShaderProgram; gl_unfold;
    case_bool_decide; case_decide; try congruence; simpl;
    (eexists; split; [reflexivity|]; split; [done|]; split; [|done]);
    intros k' Hk'; by destruct k'.
Qed.

(** X3. Each setter of a scalar state ([SetDepthFunc], [SetPolygonMode],
    [SetCullFace], [SetFrontFace], [SetDepthMask], [BindShaderProgram])
    issues its native call exactly when the value differs from the mirror,
    leaves the mirror at the value, leaves the other scalar mirrors alone,
    and calling it twice in a row costs what calling it once costs. *)
Theorem scalar_setters_idempotent (ext : GLExtensions) (k : ScalarState)
    (v : Z) (m : GLStateManager) :
  exists m',
    let once := if decide (scalar_mirror k m = v) then [] else [scalar_call k v] in
    call ext (scalar_op k v) m = Returns tt m' once
    /\ run ext [scalar_op k v; scalar_op k v] m = Returns tt m' once
    /\ scalar_mirror k m' = v
    /\ (forall k', k' <> k -> scalar_mirror k' m' = scalar_mirror k' m).
Proof.
  destruct (scalar_op_spec ext k v m) as (m' & E & Hm & Hf & _).
  destruct (scalar_op_spec ext k v m') as (m'' & E' & _ & _ & Hid).
  rewrite decide_True in E' by done. rewrite (Hid Hm) in E'.
  exists m'. split_and!; try done.
  unfold run. simpl. unfold bind. rewrite E, E'. simpl.
  by rewrite app_nil_r.
Qed.

(** X4. A forced bind of a buffer or of a texture always issues its one
    native call and leaves the manager exactly as the checked bind of the
    same handle leaves it; a checked bind of that handle afterwards is
    silent. *)
Theorem forced_bind_agrees (m : GLStateManager) :
  (forall target buffer,
      let m' := assign_buffer m target buffer in
      ForcedBindBuffer target buffer m =
        Returns tt m'
          [glBindBuffer (bufferTargetsMap !!! GLBufferTarget_index target) buffer]
      /\ BindBuffer target buffer m =
           Returns tt m'
             (if decide (mirrored_buffer m target = buffer) then []
              else [glBindBuffer (bufferTargetsMap !!! GLBufferTarget_index target)
                      buffer])
      /\ BindBuffer target buffer m' = Returns tt m' [])
  /\ (forall target texture,
        let idx := GLTextureTarget_index target in
        let m' := set_boundTexture (activeTextureLayer_ m) idx texture m in
        ForcedBindTexture target texture m =
          Returns tt m' [glBindTexture (textureTargetsMap !!! idx) texture]
        /\ BindTexture target texture m =
             Returns tt m'
               (if decide (mirrored_texture m (activeTextureLayer_ m) target = texture)
                then [] else [glBindTexture (textureTargetsMap !!! idx) texture])
        /\ BindTexture target texture m' = Returns tt m' []).
Proof.
  split.
  - intros target buffer m'. split_and!.
    + reflexivity.
    + rewrite BindBuffer_spec. case_decide as E; [|done]. f_equal.
      subst m'. unfold assign_buffer. rewrite <- E. unfold mirrored_buffer.
      rewrite vlookup_insert_self. by destruct m as [? [] ? ? ? ? ? ?].
    + rewrite BindBuffer_spec. subst m'.
      by rewrite !decide_True by apply mirrored_assign_buffer.
  - intros target texture idx m'. split_and!.
    + reflexivity.
    + rewrite BindTexture_spec. case_decide as E; [|done]. f_equal.
      subst m' idx. unfold set_boundTexture. rewrite <- E. unfold mirrored_texture.
      rewrite vlookup_insert_self.
      destruct (layers (textureState_ m) !!! activeTextureLayer_ m) as [bt] eqn:El.
      simpl. rewrite <- El, vlookup_insert_self.
      by destruct m as [? ? [] ? ? ? ? ?].
    + rewrite BindTexture_spec. subst m' idx.
      assert (Hm : mirrored_texture
                (set_boundTexture (activeTextureLayer_ m)
                   (GLTextureTarget_index target) texture m)
                (activeTextureLayer_ m) target = texture)
        by apply mirrored_set_boundTexture.
      by rewrite !decide_True by exact Hm.
Qed.

(** X5. After [BindVertexArray], a [BindBuffer] to the array or the
    element-array target is checked against handle 0, not against what was
    bound before the switch: it issues [glBindBuffer] for every handle but
    0.  The other targets are checked against their old mirror. *)
Theorem BindVertexArray_invalidates (array : GLuint) (target : GLBufferTarget)
    (buffer : GLuint) (m : GLStateManager) :
  let mirrored :=
    if decide (target = GLBufferTarget.ARRAY_BUFFER
               \/ target = GLBufferTarget.ELEMENT_ARRAY_BUFFER)
    then 0 else mirrored_buffer m target in
  exists m',
    (BindVertexArray array ;; BindBuffer target buffer) m =
      Returns tt m'
        (glBindVertexArray array ::
         if decide (mirrored = buffer) then []
         else [glBindBuffer (bufferTargetsMap !!! GLBufferTarget_index target) buffer])
    /\ mirrored_buffer m' target = buffer.
Proof.
  intros mirrored.
  set (m1 := assign_buffer (assign_buffer m GLBufferTarget.ARRAY_BUFFER 0)
               GLBufferTarget.ELEMENT_ARRAY_BUFFER 0).
  assert (H1 : BindVertexArray array m = Returns tt m1 [glBindVertexArray array])
    by reflexivity.
  assert (Hm1 : mirrored_buffer m1 target = mirrored).
  { subst m1 mirrored. rewrite !mirrored_assign_buffer_other.
    repeat case_decide; try done; exfalso; intuition congruence. }
  unfold bind. rewrite H1, BindBuffer_spec, Hm1.
  eexists. split; [reflexivity|].
  case_decide as E; [congruence | apply mirrored_assign_buffer].
Qed.

Lemma PopStates_underflow count : forall m,
  (length (valueStack (renderState_ m)) < count)%nat ->
  PopStates count m = Undefined.
Proof.
  induction count as [|n IH]; intros m Hlt; [lia|].
  simpl. unfold bind. rewrite PopState_spec.
  destruct (valueStack (renderState_ m)) as [|e st] eqn:E; [done|].
  cbn beta iota zeta. rewrite IH; [done|]. simpl. simpl in Hlt. lia.
Qed.

Lemma bind_assoc {A B C} (c : GL A) (k : A -> GL B) (h : B -> GL C) m :
  bind (bind c k) h m = bind c (fun a => bind (k a) h) m.
Proof.
  unfold bind. destruct (c m) as [a m1 c1| |]; [|done|done].
  destruct (k a m1) as [b m2 c2| |]; [|done|done].
  destruct (h b m2) as [x m3 c3| |]; by rewrite ?app_assoc.
Qed.

Lemma bind_ext {A B} (c : GL A) (k k' : A -> GL B) m :
  (forall a m1, k a m1 = k' a m1) -> bind c k m = bind c k' m.
Proof.
  intros H. unfold bind. destruct (c m) as [a m1 c1| |]; [|done|done].
  by rewrite H.
Qed.

Lemma PopStates_add a : forall b m,
  PopStates (a + b) m = (PopStates a ;; PopStates b) m.
Proof.
  induction a as [|a IH]; intros b m.
  - simpl. by rewrite bind_ret_l.
  - simpl. rewrite bind_assoc. apply bind_ext. intros _ m1. apply IH.
Qed.

(** X6. [PopStates(count)] returns exactly when the stack of saved
    values holds at least [count] entries, and then removes the top [count]
    entries with at most [count] native calls; on a shorter stack its
    behaviour is undefined.  It is [count] times [PopState], and popping
    [a + b] entries is popping [a] and then [b]. *)
Theorem PopStates_exact (count : nat) (m : GLStateManager) :
  (if decide (count <= length (valueStack (renderState_ m)))%nat
   then exists m' calls,
          PopStates count m = Returns tt m' calls
          /\ valueStack (renderState_ m') = drop count (valueStack (renderState_ m))
          /\ (length calls <= count)%nat
   else PopStates count m = Undefined)
  /\ PopStates count m = run no_extensions (replicate count OpPopState) m
  /\ (forall a b, (a + b = count)%nat ->
        PopStates count m = (PopStates a ;; PopStates b) m).
Proof.
  split_and!.
  - case_decide as Hle.
    + destruct (PopStates_returns count m Hle) as (m' & calls & E).
      exists m', calls. split; [exact E|]. split; [by eapply PopStates_drop|].
      clear Hle. revert m m' calls E.
      induction count as [|n IH]; intros m m' calls E; simpl in E.
      * by inversion E.
      * apply bind_Returns in E as ([] & m1 & c1 & c2 & E1 & E2 & ->).
        apply IH in E2. rewrite PopState_spec in E1.
        destruct (valueStack (renderState_ m)); [done|]. cbn zeta in E1.
        inversion E1; subst. rewrite length_app.
        case_decide; simpl; lia.
    + apply PopStates_underflow. lia.
  - revert m. induction count as [|n IH]; intros m; [done|].
    simpl. unfold run. simpl. unfold bind.
    destruct (PopState m) as [[] m1 c1| |]; [|done|done].
    by rewrite IH.
  - intros a b <-. apply PopStates_add.
Qed.

Lemma run_app ext ops1 : forall ops2 m m1 m2 calls1 calls2,
  run ext ops1 m = Returns tt m1 calls1 ->
  run ext ops2 m1 = Returns tt m2 calls2 ->
  run ext (ops1 ++ ops2) m = Returns tt m2 (calls1 ++ calls2).
Proof.
  induction ops1 as [|op ops1 IH]; intros ops2 m m1 m2 calls1 calls2 H1 H2.
  - by inversion H1; subst.
  - apply run_cons in H1 as (m0 & c0 & c1 & E0 & E1 & ->).
    simpl. rewrite <- app_assoc. eapply run_cons_intro; [exact E0|].
    by eapply IH.
Qed.

Lemma run_app_inv ext ops1 : forall ops2 m m2 calls,
  run ext (ops1 ++ ops2) m = Returns tt m2 calls ->
  exists m1 calls1 calls2,
    run ext ops1 m = Returns tt m1 calls1
    /\ run ext ops2 m1 = Returns tt m2 calls2
    /\ calls = calls1 ++ calls2.
Proof.
  induction ops1 as [|op ops1 IH]; intros ops2 m m2 calls H.
  - exists m, [], calls. by split_and!.
  - simpl in H. apply run_cons in H as (m0 & c0 & c1 & E0 & E1 & ->).
    apply IH in E1 as (m1 & calls1 & calls2 & Ea & Eb & ->).
    exists m1, (c0 ++ calls1), calls2. split_and!; [|done|by rewrite app_assoc].
    by eapply run_cons_intro.
Qed.

Lemma run_pushes ext states : forall m,
  run ext (map OpPushState states) m =
    Returns tt
      (set_valueStack (pushed_entries m states ++ valueStack (renderState_ m)) m) [].
Proof.
  unfold pushed_entries.
  induction states as [|C states IH]; intros m.
  - unfold run. simpl. unfold ret. by destruct m as [[] ? ? ? ? ? ? ?].
  - simpl. erewrite run_cons_intro; [|reflexivity|apply IH]. simpl. f_equal.
    unfold set_valueStack, set_renderState_, mirrored_state. simpl.
    rewrite <- app_assoc. reflexivity.
Qed.

(** Popping a run of entries that all hold the value [v0] of their state. *)
Lemma PopStates_entries (v0 : GLState -> bool) entries : forall st m,
  valueStack (renderState_ m) = entries ++ st ->
  Forall (fun e => RenderStackEntry.enabled e = v0 (RenderStackEntry.state e)) entries ->
  exists m' calls,
    PopStates (length entries) m = Returns tt m' calls
    /\ valueStack (renderState_ m') = st
    /\ forall C,
         mirrored_state m' C =
           if decide (C ∈ map RenderStackEntry.state entries) then v0 C
           else mirrored_state m C.
Proof.
  induction entries as [|e entries IH]; intros st m Hs Hv.
  - exists m, []. split_and!; [done|done|]. intros C.
    case_decide as H; [simpl in H; by apply elem_of_nil in H | done].
  - inversion Hv as [|? ? He Hv']; subst.
    pose proof (PopState_spec m) as Hp. rewrite Hs in Hp. simpl in Hp.
    match type of Hp with _ = Returns _ ?m1 ?c1 =>
      destruct (IH st m1) as (m' & calls & E & Hst & Hm); [done|exact Hv'|];
      exists m', (c1 ++ calls)
    end.
    split_and!; [|done|].
    + simpl. unfold bind. by rewrite Hp, E.
    + intros C. rewrite Hm.
      assert (Hm1 : forall s m0,
                mirrored_state (set_valueStack s m0) C = mirrored_state m0 C)
        by done.
      rewrite Hm1.
      destruct (decide (C ∈ map RenderStackEntry.state entries)) as [Hin|Hnin];
        destruct (decide (C ∈ map RenderStackEntry.state (e :: entries)))
          as [Hin'|Hnin']; simpl in *.
      * done.
      * exfalso. apply Hnin'. apply elem_of_cons. by right.
      * apply elem_of_cons in Hin' as [->|?]; [|done].
        rewrite <- He. case_decide; [done | apply mirrored_assign_state].
      * case_decide; [done|]. rewrite mirrored_assign_state_other.
        rewrite decide_False; [done|]. intros ->. apply Hnin'.
        apply elem_of_cons. by left.
Qed.

(** X7. After pushing a list of capabilities, running a body whose own
    pushes and pops balance, and popping as many entries as were pushed,
    every pushed capability mirrors what it mirrored before the pushes,
    every other capability what the body left, and the stack is the one
    the pushes found. *)
Theorem PopStates_restores_all (ext : GLExtensions) (states : list GLState)
    (ops : list Op) (m m1 : GLStateManager) (calls : list GLCall) :
  balanced state_pushes state_pops ops ->
  run ext (map OpPushState states ++ ops) m = Returns tt m1 calls ->
  exists m2 calls2,
    run ext (map OpPushState states ++ ops ++ [OpPopStates (length states)]) m
      = Returns tt m2 (calls ++ calls2)
    /\ (forall C, C ∈ states -> mirrored_state m2 C = mirrored_state m C)
    /\ (forall C, C ∉ states -> mirrored_state m2 C = mirrored_state m1 C)
    /\ valueStack (renderState_ m2) = valueStack (renderState_ m).
Proof.
  intros Hb Hr.
  apply run_app_inv in Hr as (m0 & c0 & c1 & Hpush & Hops & ->).
  rewrite run_pushes in Hpush. inversion Hpush; subst; clear Hpush.
  pose proof (run_balanced (fun m => valueStack (renderState_ m))
                state_pushes state_pops ext (call_effect_valueStack ext)
                ops _ _ _ Hb Hops) as Hstk.
  simpl in Hstk.
  destruct (PopStates_entries (mirrored_state m) (pushed_entries m states)
              (valueStack (renderState_ m)) m1 Hstk) as (m2 & calls2 & E & Hst & Hm).
  { unfold pushed_entries. apply List.Forall_rev, List.Forall_forall.
    intros e He. apply List.in_map_iff in He as (C & <- & _). done. }
  assert (Hlen : length (pushed_entries m states) = length states).
  { unfold pushed_entries. by rewrite length_rev, length_map. }
  assert (Hst' : forall C,
            C ∈ map RenderStackEntry.state (pushed_entries m states) <-> C ∈ states).
  { intros C. unfold pushed_entries. rewrite <- List.map_rev, List.map_map. simpl.
    rewrite List.map_id. rewrite !list_elem_of_In. symmetry. apply List.in_rev. }
  rewrite Hlen in E.
  exists m2, calls2. split_and!.
  - rewrite app_assoc. simpl.
    eapply run_snoc; [|exact E].
    exact (run_app ext _ _ _ _ _ [] c1 (run_pushes ext states m) Hops).
  - intros C HC. rewrite Hm. rewrite decide_True; [done | by apply Hst'].
  - intros C HC. rewrite Hm. rewrite decide_False; [done|]. by rewrite Hst'.
  - done.
Qed.

Section StackUnderflow.
Context {E : Type} (stk : GLStateManager -> list E).
Context (pushes pops : Op -> nat) (ext : GLExtensions) (allowed : Op -> bool).
Hypothesis effect_of_call : forall op m m' calls,
  call ext op m = Returns tt m' calls ->
  exists new,
    length new = pushes op /\ stk m' = new ++ drop (pops op) (stk m).
Hypothesis allowed_returns : forall op m,
  allowed op = true -> (pops op <= length (stk m))%nat ->
  exists m' calls, call ext op m = Returns tt m' calls.
Hypothesis underflow_undefined : forall op m,
  allowed op = true -> (length (stk m) < pops op)%nat ->
  call ext op m = Undefined.

Lemma run_outcome ops : forall m,
  forallb allowed ops = true ->
  match depth_after pushes pops (length (stk m)) ops with
  | Some d =>
      exists m' calls,
        run ext ops m = Returns tt m' calls /\ length (stk m') = d
  | None => run ext ops m = Undefined
  end.
Proof.
  induction ops as [|op ops IH]; intros m Ha.
  - simpl. by exists m, [].
  - simpl in Ha. apply andb_true_iff in Ha as [Ha1 Ha2]. simpl.
    destruct (pops op <=? length (stk m))%nat eqn:Hle.
    + apply Nat.leb_le in Hle.
      destruct (allowed_returns op m Ha1 Hle) as (m1 & calls1 & E1).
      destruct (effect_of_call _ _ _ _ E1) as (new & Hn & Hs).
      assert (Hl : length (stk m1) = (length (stk m) - pops op + pushes op)%nat).
      { rewrite Hs, length_app, length_drop. lia. }
      specialize (IH m1 Ha2). rewrite Hl in IH.
      destruct (depth_after pushes pops _ ops) as [d|].
      * destruct IH as (m' & calls & E2 & Hd).
        exists m', (calls1 ++ calls). split; [|done]. by eapply run_cons_intro.
      * unfold run in *. simpl. unfold bind. by rewrite E1, IH.
    + apply Nat.leb_gt in Hle. unfold run. simpl. unfold bind.
      by rewrite (underflow_undefined op m Ha1 Hle).
Qed.
End StackUnderflow.

Lemma call_underflow_in_discipline ext s op m :
  in_discipline s op = true ->
  (slot_depth s m < slot_pops s op)%nat ->
  call ext op m = Undefined.
Proof.
  unfold in_discipline. intros Hd Hlt.
  destruct s, op; simpl in *; try lia.
  - rewrite PopState_spec. destruct (valueStack (renderState_ m)); [done|].
    simpl in Hlt. lia.
  - by apply PopStates_underflow.
  - rewrite PopBoundBuffer_spec.
    destruct (boundBufferStack (bufferState_ m)); [done|]. simpl in Hlt. lia.
Qed.

(** X8. A list of calls made of calls that always return and of pops of
    one stack returns exactly when no pop meets an empty stack, counting
    from the depth the stack has at the start; it then leaves the stack at
    the depth the count predicts.  When a pop meets an empty stack the
    behaviour of the whole list is undefined. *)
Theorem pop_underflow (ext : GLExtensions) (s : Slot) (ops : list Op)
    (m : GLStateManager) :
  forallb (in_discipline s) ops = true ->
  match depth_after (slot_pushes s) (slot_pops s) (slot_depth s m) ops with
  | Some d =>
      exists m' calls,
        run ext ops m = Returns tt m' calls /\ slot_depth s m' = d
  | None => run ext ops m = Undefined
  end.
Proof.
  intros Ha. destruct s as [C | t].
  - apply (run_outcome (fun m => valueStack (renderState_ m))
             state_pushes state_pops ext (in_discipline (StateSlot C))
             (call_effect_valueStack ext)
             (fun op m => call_returns_in_discipline ext (StateSlot C) op m)
             (fun op m => call_underflow_in_discipline ext (StateSlot C) op m)
             ops m Ha).
  - apply (run_outcome (fun m => boundBufferStack (bufferState_ m))
             buffer_pushes buffer_pops ext (in_discipline (BufferSlot t))
             (call_effect_boundBufferStack ext)
             (fun op m => call_returns_in_discipline ext (BufferSlot t) op m)
             (fun op m => call_underflow_in_discipline ext (BufferSlot t) op m)
             ops m Ha).
Qed.

Ltac call_preserves_tac :=
  unfold MakeCurrentInfo, Reset, Set_, Enable, Disable, IsEnabled,
    SetViewports, SetDepthRanges, SetScissors, SetBlendStates,
    SetClipControl, SetDepthFunc, SetStencilState, SetStencilState_to,
    SetPolygonMode, SetCullFace, SetFrontFace, SetDepthMask,
    BindBuffer_GLVertexBuffer, BindBuffer_GLIndexBuffer,
    BindBuffer_GLConstantBuffer, BindBuffer, BindBufferBase, BindVertexArray,
    ForcedBindBuffer, PushBoundBuffer, PopBoundBuffer, PushState, PopState,
    PopBoundTexture, PushBoundTexture, ActiveTexture,
    BindTexture_GLTexture, ForcedBindTexture_GLTexture,
    GetTextureTarget, BindTexture, ForcedBindTexture,
    PushShaderProgram, PopShaderProgram, BindShaderProgram,
    AdjustViewport, AdjustScissor, GLint_sub;
  preserves_tac; try apply SetBlendStates_each_preserves;
  unfold SetBlendState; preserves_tac.

Lemma call_preserves_boundProgramStack ext op :
  program_pushes op = 0%nat -> program_pops op = 0%nat ->
  preserves (fun m => boundProgramStack (shaderState_ m)) (call ext op).
Proof.
  destruct op; simpl; intros Hpush Hpop; try discriminate;
    try (by apply PopStates_preserves); call_preserves_tac.
Qed.

Lemma call_preserves_boundTextureStack ext op :
  texture_pushes op = 0%nat -> texture_pops op = 0%nat ->
  preserves (fun m => boundTextureStack (textureState_ m)) (call ext op).
Proof.
  destruct op; simpl; intros Hpush Hpop; try discriminate;
    try (by apply PopStates_preserves); call_preserves_tac.
Qed.

Lemma call_effect_boundProgramStack ext op m m' calls :
  call ext op m = Returns tt m' calls ->
  exists new,
    length new = program_pushes op /\
    boundProgramStack (shaderState_ m') =
      new ++ drop (program_pops op) (boundProgramStack (shaderState_ m)).
Proof.
  intros H.
  destruct (decide (program_pushes op = 0%nat /\ program_pops op = 0%nat))
    as [[Hp Hq]|Hn].
  - exists []. rewrite Hp, Hq. split; [done|].
    apply (call_preserves_boundProgramStack ext op Hp Hq _ _ _ _ H).
  - destruct op; simpl in Hn; try (exfalso; apply Hn; done); simpl in H.
    + inversion H; subst. by eexists [_].
    + exists []. split; [done|]. rewrite PopShaderProgram_spec in H.
      destruct (boundProgramStack (shaderState_ m)); [done|]. inversion H; subst.
      simpl. by rewrite drop_0.
Qed.

Lemma PopBoundTexture_stack m m' calls :
  PopBoundTexture m = Returns tt m' calls ->
  boundTextureStack (textureState_ m') = tail (boundTextureStack (textureState_ m)).
Proof.
  unfold PopBoundTexture. intros H.
  apply bind_Returns in H as (stack & m0 & c0 & c1 & H0 & H1 & ->).
  inversion H0; subst; clear H0.
  destruct (boundTextureStack (textureState_ m0)) as [|e st] eqn:Es; [done|].
  apply bind_Returns in H1 as ([] & m1 & c2 & c3 & H1 & H2 & ->).
  apply bind_Returns in H2 as ([] & m2 & c4 & c5 & H2 & H3 & ->).
  inversion H3; subst; clear H3. simpl.
  assert (Hp1 : preserves (fun m => boundTextureStack (textureState_ m))
                  (ActiveTexture (TextureStackEntry.layer e)))
    by (unfold ActiveTexture; preserves_tac).
  assert (Hp2 : preserves (fun m => boundTextureStack (textureState_ m))
                  (BindTexture (TextureStackEntry.target e)
                     (TextureStackEntry.texture e)))
    by (unfold BindTexture; preserves_tac).
  rewrite (Hp2 _ _ _ _ H2), (Hp1 _ _ _ _ H1). by rewrite Es.
Qed.

Lemma call_effect_boundTextureStack ext op m m' calls :
  call ext op m = Returns tt m' calls ->
  exists new,
    length new = texture_pushes op /\
    boundTextureStack (textureState_ m') =
      new ++ drop (texture_pops op) (boundTextureStack (textureState_ m)).
Proof.
  intros H.
  destruct (decide (texture_pushes op = 0%nat /\ texture_pops op = 0%nat))
    as [[Hp Hq]|Hn].
  - exists []. rewrite Hp, Hq. split; [done|].
    apply (call_preserves_boundTextureStack ext op Hp Hq _ _ _ _ H).
  - destruct op; simpl in Hn; try (exfalso; apply Hn; done); simpl in H.
    + unfold PushBoundTexture in H.
      destruct (layer_index layer); [|done]. inversion H; subst. by eexists [_].
    + exists []. split; [done|]. rewrite (PopBoundTexture_stack _ _ _ H).
      simpl. by destruct (boundTextureStack (textureState_ m)).
Qed.

(** X9. [PushShaderProgram], a body whose program pushes and pops
    balance, and [PopShaderProgram] leave the mirrored program and the
    program stack as they were before the push; the pop issues
    [glUseProgram] exactly when the body left another program bound. *)
Theorem shader_program_push_pop (ext : GLExtensions) (ops : list Op)
    (m m1 : GLStateManager) (calls : list GLCall) :
  balanced program_pushes program_pops ops ->
  run ext (OpPushShaderProgram :: ops) m = Returns tt m1 calls ->
  exists m2,
    run ext (OpPushShaderProgram :: ops ++ [OpPopShaderProgram]) m =
      Returns tt m2
        (calls ++
         if decide (boundProgram (shaderState_ m1) = boundProgram (shaderState_ m))
         then [] else [glUseProgram (boundProgram (shaderState_ m))])
    /\ boundProgram (shaderState_ m2) = boundProgram (shaderState_ m)
    /\ boundProgramStack (shaderState_ m2) = boundProgramStack (shaderState_ m).
Proof.
  intros Hb Hr.
  destruct (run_cons _ _ _ _ _ _ Hr) as (m0 & c0 & c1 & Hpush & Hops & ->).
  simpl in Hpush. inversion Hpush; subst; clear Hpush.
  pose proof (run_balanced (fun m => boundProgramStack (shaderState_ m))
                program_pushes program_pops ext (call_effect_boundProgramStack ext)
                ops _ _ _ Hb Hops) as Hstk.
  simpl in Hstk.
  pose proof (PopShaderProgram_spec m1) as Hpop. rewrite Hstk in Hpop.
  eexists. split; [|split].
  - change (OpPushShaderProgram :: ops ++ [OpPopShaderProgram])
      with ((OpPushShaderProgram :: ops) ++ [OpPopShaderProgram]).
    eapply run_snoc; [exact Hr|]. simpl. exact Hpop.
  - simpl. by case_decide.
  - by case_decide.
Qed.

(** X10. [PushBoundTexture(layer, target)], a body whose texture pushes
    and pops balance, and [PopBoundTexture] leave the texture mirrored for
    [target] on [layer] as it was before the push, make [layer] the active
    layer, leave the texture stack as the push found it, touch no other
    layer, and the pop issues at most one [glBindTexture]. *)
Theorem bound_texture_push_pop (ext : GLExtensions) (layer : GLuint)
    (i : fin numTextureLayers) (target : GLTextureTarget) (ops : list Op)
    (m m1 : GLStateManager) (calls : list GLCall) :
  coherent m ->
  layer_index layer = Some i ->
  balanced texture_pushes texture_pops ops ->
  run ext (OpPushBoundTexture layer target :: ops) m = Returns tt m1 calls ->
  exists m2 calls2,
    run ext (OpPushBoundTexture layer target :: ops ++ [OpPopBoundTexture]) m =
      Returns tt m2 (calls ++ calls2)
    /\ mirrored_texture m2 i target = mirrored_texture m i target
    /\ activeTexture (textureState_ m2) = layer
    /\ activeTextureLayer_ m2 = i
    /\ boundTextureStack (textureState_ m2) = boundTextureStack (textureState_ m)
    /\ (forall l, l <> i ->
          layers (textureState_ m2) !!! l = layers (textureState_ m1) !!! l)
    /\ (count_calls is_glBindTexture calls2 <= 1)%nat.
Proof.
  intros Hc Hi Hb Hr.
  destruct (run_cons _ _ _ _ _ _ Hr) as (m0 & c0 & c1 & Hpush & Hops & ->).
  simpl in Hpush. rewrite (PushBoundTexture_spec layer i target m Hi) in Hpush.
  inversion Hpush; subst; clear Hpush.
  pose proof (run_balanced (fun m => boundTextureStack (textureState_ m))
                texture_pushes texture_pops ext (call_effect_boundTextureStack ext)
                ops _ _ _ Hb Hops) as Hstk.
  simpl in Hstk.
  assert (Hc1 : coherent m1) by (eapply run_preserves_coherent; [|exact Hops]; done).
  destruct (PopBoundTexture_coherent layer i target _ _ m1 Hc1 Hi Hstk)
    as (m2 & calls2 & E & Ha & Hl & Hm & Hs & Ho & Hn).
  exists m2, calls2. split_and!; try done.
  change (OpPushBoundTexture layer target :: ops ++ [OpPopBoundTexture])
    with ((OpPushBoundTexture layer target :: ops) ++ [OpPopBoundTexture]).
  eapply run_snoc; [exact Hr | exact E].
Qed.

Section Tracks.
Context {X : Type} (f : GLStateManager -> X) (upd : X -> GLCall -> X).

Lemma tracks_ret {A} (a : A) : tracks f upd (ret a).
Proof. intros m a' m' calls H. by inversion H. Qed.

Lemma tracks_gets {A} (g : GLStateManager -> A) : tracks f upd (gets g).
Proof. intros m a' m' calls H. by inversion H. Qed.

Lemma tracks_native c : (forall x, upd x c = x) -> tracks f upd (native c).
Proof. intros Hc m a' m' calls H. inversion H; subst. simpl. by rewrite Hc. Qed.

Lemma tracks_undefined {A} : tracks f upd (@undefined A).
Proof. intros m a' m' calls H. inversion H. Qed.

Lemma tracks_throw {A} e : tracks f upd (@throw A e).
Proof. intros m a' m' calls H. inversion H. Qed.

Lemma tracks_modify g : (forall m, f (g m) = f m) -> tracks f upd (modify g).
Proof. intros Hg m a' m' calls H. inversion H. apply Hg. Qed.

Lemma tracks_update g c :
  (forall m, f (g m) = upd (f m) c) -> tracks f upd (modify g ;; native c).
Proof. intros Hg m a' m' calls H. inversion H; subst. apply Hg. Qed.

Lemma tracks_bind {A B} (c : GL A) (k : A -> GL B) :
  tracks f upd c -> (forall a, tracks f upd (k a)) -> tracks f upd (bind c k).
Proof.
  intros Hc Hk m b m' calls H.
  apply bind_Returns in H as (a & m1 & c1 & c2 & H1 & H2 & ->).
  rewrite foldl_app, <- (Hc _ _ _ _ H1). apply (Hk _ _ _ _ _ H2).
Qed.

Lemma tracks_when (c : bool) body : tracks f upd body -> tracks f upd (when c body).
Proof. destruct c; simpl; [done | intros _; apply tracks_ret]. Qed.

Lemma tracks_for_each {A} (l : list A) body :
  (forall x, tracks f upd (body x)) -> tracks f upd (for_each l body).
Proof.
  intros Hb. induction l as [|x l IH]; simpl.
  - apply tracks_ret.
  - apply tracks_bind; [apply Hb | intros _; apply IH].
Qed.

Lemma tracks_for_each_ref {A} (l : list A) body :
  (forall x, tracks f upd (body x)) -> tracks f upd (for_each_ref l body).
Proof.
  intros Hb. induction l as [|x l IH]; simpl.
  - apply tracks_ret.
  - apply tracks_bind; [apply Hb | intros x'].
    apply tracks_bind; [apply IH | intros l'; apply tracks_ret].
Qed.
End Tracks.

Ltac tracks_step :=
  first
    [ apply tracks_ret
    | apply tracks_gets
    | apply tracks_undefined
    | apply tracks_throw
    | apply tracks_update; intros; reflexivity
    | apply tracks_native; intros; reflexivity
    | apply tracks_modify; intros; reflexivity
    | apply tracks_when
    | apply tracks_for_each; intros
    | apply tracks_for_each_ref; intros
    | apply tracks_bind; [| intros]
    | match goal with
      | |- tracks _ _ (if ?c then _ else _) => destruct c
      | |- tracks _ _ (match ?x with _ => _ end) => destruct x
      | |- tracks _ _ (let _ := _ in _) => cbv zeta
      end ].

Ltac tracks_tac := repeat tracks_step.

Ltac unfold_members :=
  unfold MakeCurrentInfo, Enable, Disable, IsEnabled,
    SetViewports, SetDepthRanges, SetScissors, SetBlendStates,
    SetClipControl, SetDepthFunc, SetStencilState, SetStencilState_to,
    SetPolygonMode, SetCullFace, SetFrontFace, SetDepthMask,
    BindBuffer_GLVertexBuffer, BindBuffer_GLIndexBuffer,
    BindBuffer_GLConstantBuffer, BindBuffer, BindBufferBase, BindVertexArray,
    ForcedBindBuffer, PushBoundBuffer, PopBoundBuffer, PushState,
    PopBoundTexture, PushBoundTexture, ActiveTexture,
    BindTexture_GLTexture, ForcedBindTexture_GLTexture,
    GetTextureTarget, BindTexture, ForcedBindTexture,
    PushShaderProgram, PopShaderProgram, BindShaderProgram,
    AdjustViewport, AdjustScissor, GLint_sub.

Lemma SetBlendStates_each_tracks {X} (f : GLStateManager -> X) upd ext l :
  (forall x buf r g b a, upd x (glColorMaski buf r g b a) = x) ->
  (forall x buf s d sa da, upd x (glBlendFuncSeparatei buf s d sa da) = x) ->
  (forall x buf, upd x (glDrawBuffer buf) = x) ->
  (forall x r g b a, upd x (glColorMask r g b a) = x) ->
  (forall x s d sa da, upd x (glBlendFuncSeparate s d sa da) = x) ->
  forall drawBuffer blendEnabled,
    tracks f upd (SetBlendStates_each ext drawBuffer l blendEnabled).
Proof.
  intros H1 H2 H3 H4 H5.
  induction l as [|st l IH]; intros; simpl.
  - apply tracks_ret.
  - apply tracks_bind; [| intros; apply IH].
    unfold SetBlendState.
    repeat first [ apply tracks_native; intros; auto | tracks_step ].
Qed.

Lemma stateCapsMap_inj (i j : fin numStates) :
  stateCapsMap !!! i = stateCapsMap !!! j -> i = j.
Proof.
  intros H.
  assert (Hnd : NoDup (vec_to_list stateCapsMap))
    by (apply (bool_decide_unpack _); vm_compute; exact I).
  apply fin_to_nat_inj.
  eapply NoDup_lookup; [exact Hnd| |].
  - apply vlookup_lookup. reflexivity.
  - apply vlookup_lookup. symmetry. exact H.
Qed.

Lemma Set_tracks C state value :
  tracks (fun m => mirrored_state m C)
    (toggle (stateCapsMap !!! GLState_index C)) (Set_ state value).
Proof.
  intros m a m' calls H. rewrite Set_spec in H.
  case_decide as E; inversion H; subst; clear H; [done|].
  rewrite mirrored_assign_state_other. unfold transition.
  destruct (decide (C = state)) as [->|Hn].
  - destruct value; simpl; by rewrite decide_True.
  - destruct value; simpl; rewrite decide_False; try done;
      intros Hc; apply stateCapsMap_inj, GLState_index_inj in Hc; done.
Qed.

Lemma Enable_Set state m : Enable state m = Set_ state true m.
Proof.
  unfold Enable, Set_. gl_unfold.
  by destruct (values (renderState_ m) !!! GLState_index state).
Qed.

Lemma Disable_Set state m : Disable state m = Set_ state false m.
Proof.
  unfold Disable, Set_. gl_unfold.
  by destruct (values (renderState_ m) !!! GLState_index state).
Qed.

Lemma PopState_tracks C :
  tracks (fun m => mirrored_state m C)
    (toggle (stateCapsMap !!! GLState_index C)) PopState.
Proof.
  unfold PopState. apply tracks_bind; [apply tracks_gets|].
  intros [|e st]; [apply tracks_undefined|].
  apply tracks_bind; [apply Set_tracks|]. intros _.
  apply tracks_modify. reflexivity.
Qed.

Lemma PopStates_tracks C count :
  tracks (fun m => mirrored_state m C)
    (toggle (stateCapsMap !!! GLState_index C)) (PopStates count).
Proof.
  induction count as [|n IH]; simpl; [apply tracks_ret|].
  apply tracks_bind; [apply PopState_tracks | intros _; apply IH].
Qed.

Lemma call_tracks_capability ext op C :
  is_reset op = false ->
  tracks (fun m => mirrored_state m C)
    (toggle (stateCapsMap !!! GLState_index C)) (call ext op).
Proof.
  destruct op; simpl; intros Hr; try discriminate;
    try apply Set_tracks; try apply PopState_tracks; try apply PopStates_tracks.
  all: try (intros m a m' calls H; rewrite Enable_Set in H; revert H;
            apply Set_tracks).
  all: try (intros m a m' calls H; rewrite Disable_Set in H; revert H;
            apply Set_tracks).
  all: unfold_members; tracks_tac.
  all: try (apply SetBlendStates_each_tracks; intros; reflexivity).
  all: unfold SetBlendState; tracks_tac.
Qed.

Lemma run_tracks {X} (f : GLStateManager -> X) upd ext ops :
  (forall op, op ∈ ops -> tracks f upd (call ext op)) ->
  tracks f upd (run ext ops).
Proof.
  unfold run. induction ops as [|op ops IH]; intros H; simpl.
  - apply tracks_ret.
  - apply tracks_bind; [apply H; left | intros _; apply IH].
    intros op' Hop. apply H. by right.
Qed.

(** X11. Over any list of calls without [Reset], the mirror of every
    capability follows the driver: if it agreed with the driver before, it
    agrees after the native calls the list issued, where [glEnable] and
    [glDisable] of the capability set the driver's value and no other call
    touches it. *)
Theorem capability_mirror_tracks_driver (ext : GLExtensions) (ops : list Op)
    (m m' : GLStateManager) (calls : list GLCall) (C : GLState) :
  existsb is_reset ops = false ->
  run ext ops m = Returns tt m' calls ->
  mirrored_state m' C =
    capability_after (stateCapsMap !!! GLState_index C) (mirrored_state m C) calls.
Proof.
  intros Hr H.
  refine (run_tracks (fun m => mirrored_state m C) _ ext ops _ m tt m' calls H).
  intros op Hop. apply call_tracks_capability.
  destruct (is_reset op) eqn:E; [|done].
  assert (existsb is_reset ops = true); [|congruence].
  apply existsb_exists. exists op. split; [|done]. by apply list_elem_of_In.
Qed.

Lemma call_tracks_scalar ext op k :
  tracks (scalar_mirror k) (scalar_sent k) (call ext op).
Proof.
  destruct k; destruct op; simpl.
  all: try (induction count as [|n IH]; simpl;
            [apply tracks_ret | apply tracks_bind; [|intros _; apply IH]]).
  all: unfold_members; unfold Reset, Set_, PopState, Set_; tracks_tac.
  all: try (apply SetBlendStates_each_tracks; intros; reflexivity).
  all: unfold SetBlendState; tracks_tac.
  all: match goal with |- ?G => idtac G end.
Qed.

Lemma textureLayersMap_inj (i j : fin numTextureLayers) :
  textureLayersMap !!! i = textureLayersMap !!! j -> i = j.
Proof.
  intros H.
  assert (Hnd : NoDup (vec_to_list textureLayersMap))
    by (apply (bool_decide_unpack _); vm_compute; exact I).
  apply fin_to_nat_inj.
  eapply NoDup_lookup; [exact Hnd| |].
  - apply vlookup_lookup. reflexivity.
  - apply vlookup_lookup. symmetry. exact H.
Qed.

Lemma textureTargetsMap_inj (i j : fin numTextureTargets) :
  textureTargetsMap !!! i = textureTargetsMap !!! j -> i = j.
Proof.
  intros H.
  assert (Hnd : NoDup (vec_to_list textureTargetsMap))
    by (apply (bool_decide_unpack _); vm_compute; exact I).
  apply fin_to_nat_inj.
  eapply NoDup_lookup; [exact Hnd| |].
  - apply vlookup_lookup. reflexivity.
  - apply vlookup_lookup. symmetry. exact H.
Qed.

Lemma GLTextureTarget_index_inj t t' :
  GLTextureTarget_index t = GLTextureTarget_index t' -> t = t'.
Proof. destruct t, t'; intros H; try reflexivity; discriminate H. Qed.

Lemma mirrored_set_boundTexture_other m l t h l' t' :
  mirrored_texture (set_boundTexture l (GLTextureTarget_index t) h m) l' t' =
    if decide (l' = l /\ t' = t) then h else mirrored_texture m l' t'.
Proof.
  unfold mirrored_texture, set_boundTexture. simpl.
  destruct (decide (l' = l)) as [->|Hl].
  - rewrite vlookup_insert. simpl.
    destruct (decide (t' = t)) as [->|Ht].
    + rewrite decide_True by done. apply vlookup_insert.
    + rewrite decide_False by (intros [_ E]; done).
      apply vlookup_insert_ne. intros E. apply Ht. symmetry.
      by apply GLTextureTarget_index_inj.
  - rewrite decide_False by (intros [E _]; done).
    by rewrite vlookup_insert_ne.
Qed.

Section TextureTracks.
Context (l : fin numTextureLayers) (target : GLTextureTarget).

Lemma ActiveTexture_tracks layer :
  tracks (texture_mirror l target) (texture_sent (textureLayersMap !!! l)
       (textureTargetsMap !!! GLTextureTarget_index target)) (ActiveTexture layer).
Proof.
  intros m a m' calls H. unfold ActiveTexture in H. revert H. gl_unfold.
  case_bool_decide as E; simpl.
  - destruct (layer_index layer) as [i|] eqn:Hi; [|done].
    intros H. inversion H; subst; clear H. reflexivity.
  - intros H. inversion H; subst; clear H. reflexivity.
Qed.

Lemma set_boundTexture_tracks t h :
  tracks (texture_mirror l target) (texture_sent (textureLayersMap !!! l)
       (textureTargetsMap !!! GLTextureTarget_index target))
    (modify (fun m => set_boundTexture (activeTextureLayer_ m)
                        (GLTextureTarget_index t) h m) ;;
     native (glBindTexture (textureTargetsMap !!! GLTextureTarget_index t) h)).
Proof.
  apply tracks_update. intros m. unfold texture_mirror, texture_sent. simpl.
  rewrite mirrored_set_boundTexture_other. f_equal.
  destruct (decide (l = activeTextureLayer_ m /\ target = t)) as [[-> ->]|Hn].
  - by rewrite decide_True.
  - rewrite decide_False; [done|]. intros [E1 E2]. apply Hn.
    apply textureLayersMap_inj in E1.
    apply textureTargetsMap_inj, GLTextureTarget_index_inj in E2. done.
Qed.

Lemma BindTexture_tracks t h :
  tracks (texture_mirror l target) (texture_sent (textureLayersMap !!! l)
       (textureTargetsMap !!! GLTextureTarget_index target)) (BindTexture t h).
Proof.
  unfold BindTexture. cbv zeta. apply tracks_bind; [apply tracks_gets|].
  intros cur. apply tracks_when. apply set_boundTexture_tracks.
Qed.

Lemma call_tracks_texture ext op :
  tracks (texture_mirror l target) (texture_sent (textureLayersMap !!! l)
       (textureTargetsMap !!! GLTextureTarget_index target)) (call ext op).
Proof.
  destruct op; simpl.
  all: try apply ActiveTexture_tracks; try apply BindTexture_tracks;
    try apply set_boundTexture_tracks.
  all: try (induction count as [|n IH]; simpl;
            [apply tracks_ret | apply tracks_bind; [|intros _; apply IH]]).
  all: unfold BindTexture_GLTexture, ForcedBindTexture_GLTexture, ForcedBindTexture,
         PopBoundTexture.
  all: repeat first
         [ apply ActiveTexture_tracks | apply BindTexture_tracks
         | apply set_boundTexture_tracks
         | apply tracks_bind; [| intros]
         | progress (unfold GetTextureTarget)
         | match goal with
           | |- tracks _ _ (match ?x with _ => _ end) => destruct x
           end
         | apply tracks_ret | apply tracks_throw | apply tracks_undefined
         | apply tracks_gets | apply tracks_modify; intros; reflexivity ].
  all: unfold_members; unfold Reset, Set_, PopState, Set_; tracks_tac.
  all: try (apply SetBlendStates_each_tracks; intros; reflexivity).
  all: unfold SetBlendState; tracks_tac.
Qed.

End TextureTracks.

(** X12. Over any list of calls, the unit the manager takes to be
    selected and the texture it mirrors for a layer and a target follow the
    native calls issued: [glActiveTexture] selects a unit and
    [glBindTexture] binds on the selected unit. *)
Theorem texture_mirror_tracks_driver (ext : GLExtensions) (ops : list Op)
    (m m' : GLStateManager) (calls : list GLCall)
    (l : fin numTextureLayers) (target : GLTextureTarget) :
  run ext ops m = Returns tt m' calls ->
  texture_mirror l target m' =
    texture_after (textureLayersMap !!! l)
      (textureTargetsMap !!! GLTextureTarget_index target)
      (texture_mirror l target m) calls.
Proof.
  intros H. refine (run_tracks _ _ ext ops _ m tt m' calls H).
  intros op _. apply call_tracks_texture.
Qed.

(** X13. Over any list of calls, the mirror of each scalar state (depth
    function, polygon mode, cull face, front face, depth mask, shader
    program) is the value the last native call of its entry point carried,
    or the starting mirror if the list issued none. *)
Theorem scalar_mirror_tracks_driver (ext : GLExtensions) (ops : list Op)
    (m m' : GLStateManager) (calls : list GLCall) (k : ScalarState) :
  run ext ops m = Returns tt m' calls ->
  scalar_mirror k m' = scalar_after k (scalar_mirror k m) calls.
Proof.
  intros H. refine (run_tracks _ _ ext ops _ m tt m' calls H).
  intros op _. apply call_tracks_scalar.
Qed.

Lemma bufferTargetsMap_inj (i j : fin numBufferTargets) :
  bufferTargetsMap !!! i = bufferTargetsMap !!! j -> i = j.
Proof.
  intros H.
  assert (Hnd : NoDup (vec_to_list bufferTargetsMap))
    by (apply (bool_decide_unpack _); vm_compute; exact I).
  apply fin_to_nat_inj.
  eapply NoDup_lookup; [exact Hnd| |].
  - apply vlookup_lookup. reflexivity.
  - apply vlookup_lookup. symmetry. exact H.
Qed.

Lemma buffer_sent_bind (target t : GLBufferTarget) (b cur : GLuint) :
  (if decide (target = t) then b else cur) =
  (if decide (bufferTargetsMap !!! GLBufferTarget_index t
              = bufferTargetsMap !!! GLBufferTarget_index target)
   then b else cur).
Proof.
  destruct (decide (target = t)) as [->|Hn].
  - by rewrite decide_True.
  - rewrite decide_False; [done|]. intros E.
    apply bufferTargetsMap_inj, GLBufferTarget_index_inj in E. done.
Qed.

Lemma assign_buffer_tracks target t b :
  tracks (fun m => mirrored_buffer m target)
    (buffer_sent (bufferTargetsMap !!! GLBufferTarget_index target))
    (modify (fun m => set_boundBuffers
               (vinsert (GLBufferTarget_index t) b (boundBuffers (bufferState_ m))) m) ;;
     native (glBindBuffer (bufferTargetsMap !!! GLBufferTarget_index t) b)).
Proof.
  apply tracks_update. intros m.
  pose proof (mirrored_assign_buffer_other m t b target) as E.
  unfold assign_buffer in E. rewrite E. apply buffer_sent_bind.
Qed.

Lemma BindBuffer_tracks target t b :
  tracks (fun m => mirrored_buffer m target)
    (buffer_sent (bufferTargetsMap !!! GLBufferTarget_index target))
    (BindBuffer t b).
Proof.
  unfold BindBuffer. cbv zeta. apply tracks_bind; [apply tracks_gets|].
  intros cur. apply tracks_when. apply assign_buffer_tracks.
Qed.

Lemma BindBufferBase_tracks target t index b :
  tracks (fun m => mirrored_buffer m target)
    (buffer_sent (bufferTargetsMap !!! GLBufferTarget_index target))
    (BindBufferBase t index b).
Proof.
  unfold BindBufferBase. cbv zeta.
  apply tracks_update. intros m.
  pose proof (mirrored_assign_buffer_other m t b target) as E.
  unfold assign_buffer in E. rewrite E. apply buffer_sent_bind.
Qed.

Lemma call_tracks_buffer ext op target :
  is_bind_vertex_array op = false ->
  tracks (fun m => mirrored_buffer m target)
    (buffer_sent (bufferTargetsMap !!! GLBufferTarget_index target))
    (call ext op).
Proof.
  destruct op; simpl; intros Hv; try discriminate.
  all: try apply BindBuffer_tracks; try apply BindBufferBase_tracks;
    try apply assign_buffer_tracks.
  all: try (induction count as [|n IH]; simpl;
            [apply tracks_ret | apply tracks_bind; [|intros _; apply IH]]).
  all: unfold BindBuffer_GLVertexBuffer, BindBuffer_GLIndexBuffer,
         BindBuffer_GLConstantBuffer, PopBoundBuffer.
  all: repeat first
         [ apply BindBuffer_tracks
         | apply tracks_bind; [| intros]
         | match goal with
           | |- tracks _ _ (match ?x with _ => _ end) => destruct x
           end
         | apply tracks_ret | apply tracks_throw | apply tracks_undefined
         | apply tracks_gets | apply tracks_modify; intros; reflexivity ].
  all: unfold_members; unfold Reset, Set_, PopState, Set_; tracks_tac.
  all: try (apply SetBlendStates_each_tracks; intros; reflexivity).
  all: unfold SetBlendState; tracks_tac.
Qed.

(** X14. Over any list of calls without [BindVertexArray], the mirror of
    every buffer target is the handle the last [glBindBuffer] or
    [glBindBufferBase] for that target carried, or the starting mirror if
    the list issued none. *)
Theorem buffer_mirror_tracks_driver (ext : GLExtensions) (ops : list Op)
    (m m' : GLStateManager) (calls : list GLCall) (target : GLBufferTarget) :
  existsb is_bind_vertex_array ops = false ->
  run ext ops m = Returns tt m' calls ->
  mirrored_buffer m' target =
    buffer_after (bufferTargetsMap !!! GLBufferTarget_index target)
      (mirrored_buffer m target) calls.
Proof.
  intros Hv H.
  refine (run_tracks (fun m => mirrored_buffer m target) _ ext ops _ m tt m' calls H).
  intros op Hop. apply call_tracks_buffer.
  destruct (is_bind_vertex_array op) eqn:E; [|done].
  assert (existsb is_bind_vertex_array ops = true); [|congruence].
  apply existsb_exists. exists op. split; [|done]. by apply list_elem_of_In.
Qed.

Lemma AdjustScissor_inv sc m sc' m' calls :
  GLint_range (GLScissor.y sc) ->
  AdjustScissor sc m = Returns sc' m' calls ->
  m' = m /\ calls = [] /\ AdjustScissor sc' m = Returns sc m [].
Proof.
  unfold GLint_range, AdjustScissor, GLint_sub. gl_unfold. intros Hy.
  destruct ((GLint_min <=? currentContextHeight_ m - GLScissor.height sc)
            && (currentContextHeight_ m - GLScissor.height sc <=? GLint_max)) eqn:E1;
    simpl; [|done].
  destruct ((GLint_min <=? currentContextHeight_ m - GLScissor.height sc - GLScissor.y sc)
            && (currentContextHeight_ m - GLScissor.height sc - GLScissor.y sc
                <=? GLint_max)) eqn:E2;
    simpl; [|done].
  intros H. inversion H; subst; clear H. split_and!; try done. simpl.
  rewrite E1. simpl.
  replace (currentContextHeight_ m' - GLScissor.height sc -
           (currentContextHeight_ m' - GLScissor.height sc - GLScissor.y sc))
    with (GLScissor.y sc) by lia.
  assert ((GLint_min <=? GLScissor.y sc) && (GLScissor.y sc <=? GLint_max) = true) as ->
    by (apply andb_true_iff; split; apply Z.leb_le; lia).
  simpl. by destruct sc.
Qed.

Lemma for_each_ref_AdjustScissor_inv scissors : forall m scissors' m' calls,
  Forall (fun sc => GLint_range (GLScissor.y sc)) scissors ->
  for_each_ref scissors AdjustScissor m = Returns scissors' m' calls ->
  m' = m /\ calls = []
  /\ for_each_ref scissors' AdjustScissor m = Returns scissors m []
  /\ length scissors' = length scissors.
Proof.
  induction scissors as [|sc l IH]; intros m scissors' m' calls Hr H.
  - inversion H; subst. done.
  - inversion Hr as [|? ? Hy Hl]; subst. simpl in H.
    apply bind_Returns in H as (sc' & m1 & c1 & c2 & H1 & H2 & ->).
    apply bind_Returns in H2 as (l' & m2 & c3 & c4 & H2 & H3 & ->).
    inversion H3; subst; clear H3.
    destruct (AdjustScissor_inv _ _ _ _ _ Hy H1) as (-> & -> & E1).
    destruct (IH _ _ _ _ Hl H2) as (-> & -> & E2 & Hlen).
    split_and!; try done.
    + simpl. unfold bind. rewrite E1, E2. done.
    + simpl. by rewrite Hlen.
Qed.

(** X15. [SetScissors] leaves the manager as it was and issues at most
    one native call.  It adjusts the caller's rectangles in place only
    under the emulated clip control, and the adjustment undoes itself:
    handing the adjusted rectangles to [SetScissors] again gives the
    original rectangles back. *)
Theorem SetScissors_round_trip (ext : GLExtensions) (scissors scissors' : list GLScissor)
    (m m' : GLStateManager) (calls : list GLCall) :
  Forall (fun sc => GLint_range (GLScissor.y sc)) scissors ->
  SetScissors ext scissors m = Returns scissors' m' calls ->
  m' = m
  /\ (length calls <= 1)%nat
  /\ (emulateClipControl_ m = false -> scissors' = scissors)
  /\ exists calls', SetScissors ext scissors' m = Returns scissors m calls'.
Proof.
  intros Hr H. unfold SetScissors in H.
  destruct scissors as [|sc [|sc2 rest]].
  - inversion H; subst. split_and!; try done; try (simpl; lia). by eexists.
  - revert H. gl_unfold. destruct (emulateClipControl_ m) eqn:Ee.
    + inversion Hr as [|? ? Hy _]; subst.
      destruct (AdjustScissor sc m) as [sc' m1 c1| |] eqn:E1; try done.
      destruct (AdjustScissor_inv _ _ _ _ _ Hy E1) as (-> & -> & E2).
      simpl. intros H. inversion H; subst; clear H.
      split_and!; try done; try (simpl; lia).
      unfold SetScissors. gl_unfold. rewrite Ee, E2. simpl. by eexists.
    + simpl. intros H. inversion H; subst; clear H.
      split_and!; try done; try (simpl; lia).
      unfold SetScissors. gl_unfold. rewrite Ee. simpl. by eexists.
  - destruct (has_glScissorArrayv ext) eqn:Ex.
    + revert H. gl_unfold. destruct (emulateClipControl_ m) eqn:Ee.
      * destruct (for_each_ref (sc :: sc2 :: rest) AdjustScissor m)
          as [l' m1 c1| |] eqn:E1; try done.
        destruct (for_each_ref_AdjustScissor_inv _ _ _ _ _ Hr E1)
          as (-> & -> & E2 & Hlen).
        simpl. intros H. inversion H; subst; clear H.
        split_and!; try done; try (simpl; lia).
        destruct scissors' as [|a [|a2 r']]; try discriminate Hlen.
        unfold SetScissors. rewrite Ex. gl_unfold. rewrite Ee, E2. simpl.
        by eexists.
      * simpl. intros H. inversion H; subst; clear H.
        split_and!; try done; try (simpl; lia).
        unfold SetScissors. rewrite Ex. gl_unfold. rewrite Ee. simpl. by eexists.
    + inversion H; subst. split_and!; try done; try (simpl; lia).
      unfold SetScissors. rewrite Ex. by eexists.
Qed.

Lemma SetBlendStates_each_spec ext blendEnabled l : forall drawBuffer m,
  exists calls,
    SetBlendStates_each ext drawBuffer l blendEnabled m = Returns tt m calls
    /\ length calls = (length l * blend_cost ext blendEnabled)%nat
    /\ (has_glBlendFuncSeparatei ext && has_glColorMaski ext = false ->
        forall st, st ∈ l -> sends_mask st ∈ calls).
Proof.
  induction l as [|st l IH]; intros drawBuffer m.
  - exists []. split_and!; try done. intros _ st Hst. by apply elem_of_nil in Hst.
  - destruct (IH (GLuint_wrap (drawBuffer + 1)) m) as (calls & E & Hlen & Hin).
    simpl. unfold bind, SetBlendState, blend_cost in *.
    destruct (has_glBlendFuncSeparatei ext && has_glColorMaski ext) eqn:Ex;
      destruct blendEnabled; gl_unfold; rewrite E; simpl;
      eexists; (split; [reflexivity|]); (split; [simpl; lia|]);
      intros Hf; try discriminate Hf; intros st' Hst;
      apply elem_of_cons in Hst as [->|Hst];
      unfold sends_mask; simpl;
      repeat first [ by left | by (right; apply (Hin eq_refl)) | right ].
Qed.

(** X16. [SetBlendStates] with two or more blend states returns, leaves
    the manager as it was, and issues a fixed number of native calls per
    state.  Without the indexed entry points it sends every state's colour
    mask with [glColorMask] and still leaves the mirrored colour mask at
    its old value, so that a single blend state with the old mask sends no
    colour mask afterwards. *)
Theorem SetBlendStates_multi (ext : GLExtensions) (s1 s2 : GLBlend)
    (rest : list GLBlend) (blendEnabled : bool) (m : GLStateManager) :
  let states := s1 :: s2 :: rest in
  exists calls,
    SetBlendStates ext states blendEnabled m = Returns tt m calls
    /\ length calls = (length states * blend_cost ext blendEnabled)%nat
    /\ (has_glBlendFuncSeparatei ext && has_glColorMaski ext = false ->
        forall st, st ∈ states -> sends_mask st ∈ calls)
    /\ (forall st, colorMask (commonState_ m) = GLBlend.colorMask st ->
        (SetBlendStates ext states blendEnabled ;; SetBlendStates ext [st] false) m
          = Returns tt m calls).
Proof.
  intros states.
  destruct (SetBlendStates_each_spec ext blendEnabled states GL_COLOR_ATTACHMENT0 m)
    as (calls & E & Hlen & Hin).
  exists calls. split_and!; try done.
  intros st Hst. unfold bind.
  change (SetBlendStates ext states blendEnabled m)
    with (SetBlendStates_each ext GL_COLOR_ATTACHMENT0 states blendEnabled m).
  rewrite E. unfold SetBlendStates. gl_unfold.
  rewrite bool_decide_false by (intros Hn; by apply Hn). simpl.
  by rewrite app_nil_r.
Qed.

Lemma AdjustViewport_inv vp m vp' m' calls :
  AdjustViewport vp m = Returns vp' m' calls ->
  m' = m /\ calls = []
  /\ GLViewport.x vp' = GLViewport.x vp
  /\ GLViewport.width vp' = GLViewport.width vp
  /\ GLViewport.height vp' = GLViewport.height vp.
Proof. unfold AdjustViewport. gl_unfold. intros H. by inversion H. Qed.

Lemma for_each_ref_AdjustViewport_inv viewports : forall m viewports' m' calls,
  for_each_ref viewports AdjustViewport m = Returns viewports' m' calls ->
  m' = m /\ calls = [] /\ Forall2 (same_extent true) viewports viewports'.
Proof.
  induction viewports as [|vp l IH]; intros m viewports' m' calls H.
  - inversion H; subst. split_and!; try done.
  - simpl in H.
    apply bind_Returns in H as (vp' & m1 & c1 & c2 & H1 & H2 & ->).
    apply bind_Returns in H2 as (l' & m2 & c3 & c4 & H2 & H3 & ->).
    inversion H3; subst; clear H3.
    destruct (AdjustViewport_inv _ _ _ _ _ H1) as (-> & -> & Hx & Hw & Hh).
    destruct (IH _ _ _ _ H2) as (-> & -> & Hl).
    split_and!; try done. constructor; [|done]. by split_and!.
Qed.

Lemma same_extent_refl emulate l : Forall2 (same_extent emulate) l l.
Proof. induction l; constructor; [by split_and! | done]. Qed.

(** X17. [SetViewports] leaves the manager as it was and issues at most
    one native call; it issues none exactly for an empty list and for
    several viewports on a driver without [glViewportArrayv].  It never
    alters the origin's [x], the width or the height of a viewport, and
    alters nothing at all unless the clip control is emulated. *)
Theorem SetViewports_frame (ext : GLExtensions) (viewports viewports' : list GLViewport)
    (m m' : GLStateManager) (calls : list GLCall) :
  SetViewports ext viewports m = Returns viewports' m' calls ->
  m' = m
  /\ (length calls <= 1)%nat
  /\ (calls = [] <->
        viewports = [] \/
        ((2 <= length viewports)%nat /\ has_glViewportArrayv ext = false))
  /\ Forall2 (same_extent (emulateClipControl_ m)) viewports viewports'.
Proof.
  intros H. unfold SetViewports in H.
  destruct viewports as [|vp [|vp2 rest]].
  - inversion H; subst. split_and!; try done; try (simpl; lia).
    split; [by left | done].
  - revert H. gl_unfold.
    assert (Hne : forall c : GLCall, [c] = [] <->
              [vp] = [] \/ (2 <= length [vp])%nat /\ has_glViewportArrayv ext = false).
    { intros c. split; [done|]. intros [?|[? _]]; [done | simpl in *; lia]. }
    destruct (emulateClipControl_ m) eqn:Ee.
    + destruct (AdjustViewport vp m) as [vp' m1 c1| |] eqn:E1; try done.
      destruct (AdjustViewport_inv _ _ _ _ _ E1) as (-> & -> & Hx & Hw & Hh).
      simpl.
      destruct (GLint_of_GLfloat (GLViewport.x vp')); try done.
      destruct (GLint_of_GLfloat (GLViewport.y vp')); try done.
      destruct (GLint_of_GLfloat (GLViewport.width vp')); try done.
      destruct (GLint_of_GLfloat (GLViewport.height vp')); try done.
      simpl. intros H. inversion H; subst; clear H.
      split_and!; [done | simpl; lia | apply Hne |].
      constructor; [by split_and! | constructor].
    + simpl.
      destruct (GLint_of_GLfloat (GLViewport.x vp)); try done.
      destruct (GLint_of_GLfloat (GLViewport.y vp)); try done.
      destruct (GLint_of_GLfloat (GLViewport.width vp)); try done.
      destruct (GLint_of_GLfloat (GLViewport.height vp)); try done.
      simpl. intros H. inversion H; subst; clear H.
      split_and!; [done | simpl; lia | apply Hne | apply same_extent_refl].
  - destruct (has_glViewportArrayv ext) eqn:Ex.
    + revert H. gl_unfold.
      assert (Hne : forall c : GLCall, [c] = [] <->
                vp :: vp2 :: rest = [] \/
                (2 <= length (vp :: vp2 :: rest))%nat /\ true = false).
      { intros c. split; [done|]. intros [?|[_ ?]]; done. }
      destruct (emulateClipControl_ m) eqn:Ee.
      * destruct (for_each_ref (vp :: vp2 :: rest) AdjustViewport m)
          as [l' m1 c1| |] eqn:E1; try done.
        destruct (for_each_ref_AdjustViewport_inv _ _ _ _ _ E1) as (-> & -> & Hl).
        simpl. intros H. inversion H; subst; clear H.
        split_and!; [done | simpl; lia | apply Hne | done].
      * simpl. intros H. inversion H; subst; clear H.
        split_and!; [done | simpl; lia | apply Hne | apply same_extent_refl].
    + inversion H; subst.
      split_and!; [done | simpl; lia | | apply same_extent_refl].
      split; [intros _; right; split; [simpl; lia | done] | done].
Qed.

(** X18. In every manager reached from the constructor by any list of
    calls, the active-layer pointer addresses the layer numbered
    [activeTexture], that number is below the number of layers, and a
    [BindTexture] records its handle on that layer and keeps the pointer
    there. *)
Theorem active_layer_pointer_invariant (ext : GLExtensions) (init : GLStateManager)
    (ops : list Op) (m : GLStateManager) (calls : list GLCall) :
  activeTexture (textureState_ init) = 0 ->
  (GLStateManager_ctor ;; run ext ops) init = Returns tt m calls ->
  layer_index (activeTexture (textureState_ m)) = Some (activeTextureLayer_ m)
  /\ 0 <= activeTexture (textureState_ m) < Z.of_nat numTextureLayers
  /\ forall target texture, exists m' calls',
       BindTexture target texture m = Returns tt m' calls'
       /\ (forall i, layer_index (activeTexture (textureState_ m)) = Some i ->
             mirrored_texture m' i target = texture)
       /\ layer_index (activeTexture (textureState_ m')) = Some (activeTextureLayer_ m').
Proof.
  intros H0 H. pose proof (reachable_coherent ext init ops m calls H0 H) as Hc.
  split; [exact Hc|]. split.
  - unfold coherent, layer_index in Hc.
    destruct (Z.leb_spec 0 (activeTexture (textureState_ m))); [|done].
    apply fin_of_nat_Some in Hc.
    pose proof (fin_to_nat_lt (activeTextureLayer_ m)).
    unfold numTextureLayers in *. lia.
  - intros target texture.
    destruct (BindTexture_layers target texture m)
      as (m' & E & Ha & Hl & _ & Hm & _).
    eexists m', _. split; [exact E|]. split.
    + intros i Hi. unfold coherent in Hc. rewrite Hc in Hi. by inversion Hi; subst.
    + rewrite Ha, Hl. exact Hc.
Qed.

Lemma active_layer_pointer_invariant_witness :
  activeTexture (textureState_ zero_object) = 0
  /\ exists m calls,
       (GLStateManager_ctor ;; run no_extensions end_to_end) zero_object
         = Returns tt m calls
       /\ layer_index (activeTexture (textureState_ m)) = Some (activeTextureLayer_ m).
Proof.
  split; [reflexivity|]. eexists _, _. split; [vm_compute; reflexivity|].
  exact (proj1 (active_layer_pointer_invariant no_extensions zero_object end_to_end
                  _ _ eq_refl ltac:(vm_compute; reflexivity))).
Defined.

Lemma PopStates_restores_all_witness :
  let states := [GLState.BLEND; GLState.DEPTH_TEST] in
  let ops := [OpEnable GLState.BLEND; OpEnable GLState.DEPTH_TEST;
              OpEnable GLState.CULL_FACE] in
  balanced state_pushes state_pops ops
  /\ exists m1 calls m2 calls2,
       run no_extensions (map OpPushState states ++ ops) fresh_manager
         = Returns tt m1 calls
       /\ run no_extensions
            (map OpPushState states ++ ops ++ [OpPopStates (length states)])
            fresh_manager = Returns tt m2 (calls ++ calls2)
       /\ mirrored_state m2 GLState.BLEND = mirrored_state fresh_manager GLState.BLEND
       /\ mirrored_state m2 GLState.CULL_FACE = mirrored_state m1 GLState.CULL_FACE.
Proof.
  intros states ops.
  assert (Hb : balanced state_pushes state_pops ops) by reflexivity.
  split; [exact Hb|]. eexists _, _.
  destruct (PopStates_restores_all no_extensions states ops fresh_manager _ _ Hb
              ltac:(vm_compute; reflexivity)) as (m2 & calls2 & E & Hin & Hout & _).
  exists m2, calls2. split; [reflexivity|]. split; [exact E|]. split.
  - apply Hin. left.
  - apply Hout. intros Hc. apply elem_of_cons in Hc as [Hc|Hc]; [discriminate Hc|].
    apply elem_of_cons in Hc as [Hc|Hc]; [discriminate Hc|].
    by apply elem_of_nil in Hc.
Defined.

Lemma pop_underflow_witness :
  let s := StateSlot GLState.BLEND in
  let ops := [OpPushState GLState.BLEND; OpPopState; OpPopState] in
  forallb (in_discipline s) ops = true
  /\ run no_extensions ops fresh_manager = Undefined.
Proof.
  intros s ops. split; [reflexivity|].
  exact (pop_underflow no_extensions s ops fresh_manager eq_refl).
Defined.

Lemma shader_program_push_pop_witness :
  let ops := [OpBindShaderProgram 5] in
  balanced program_pushes program_pops ops
  /\ exists m1 calls m2,
       run no_extensions (OpPushShaderProgram :: ops) fresh_manager
         = Returns tt m1 calls
       /\ run no_extensions (OpPushShaderProgram :: ops ++ [OpPopShaderProgram])
            fresh_manager = Returns tt m2 (calls ++ [glUseProgram 0])
       /\ boundProgram (shaderState_ m2) = 0.
Proof.
  intros ops.
  assert (Hb : balanced program_pushes program_pops ops) by reflexivity.
  split; [exact Hb|]. eexists _, _.
  destruct (shader_program_push_pop no_extensions ops fresh_manager _ _ Hb
              ltac:(vm_compute; reflexivity)) as (m2 & E & Hp & _).
  exists m2. split; [reflexivity|]. split; [exact E | exact Hp].
Defined.

Lemma bound_texture_push_pop_witness :
  let ops := [OpActiveTexture 3; OpBindTexture GLTextureTarget.TEXTURE_2D 9;
              OpActiveTexture 1; OpBindTexture GLTextureTarget.TEXTURE_2D 4] in
  coherent fresh_manager
  /\ layer_index 1 = Some 1%fin
  /\ balanced texture_pushes texture_pops ops
  /\ exists m1 calls m2 calls2,
       run no_extensions (OpPushBoundTexture 1 GLTextureTarget.TEXTURE_2D :: ops)
         fresh_manager = Returns tt m1 calls
       /\ run no_extensions
            (OpPushBoundTexture 1 GLTextureTarget.TEXTURE_2D :: ops ++ [OpPopBoundTexture])
            fresh_manager = Returns tt m2 (calls ++ calls2)
       /\ mirrored_texture m2 1%fin GLTextureTarget.TEXTURE_2D
          = mirrored_texture fresh_manager 1%fin GLTextureTarget.TEXTURE_2D.
Proof.
  intros ops.
  assert (Hc : coherent fresh_manager) by reflexivity.
  assert (Hb : balanced texture_pushes texture_pops ops) by reflexivity.
  split; [exact Hc|]. split; [reflexivity|]. split; [exact Hb|]. eexists _, _.
  destruct (bound_texture_push_pop no_extensions 1 1%fin GLTextureTarget.TEXTURE_2D
              ops fresh_manager _ _ Hc eq_refl Hb ltac:(vm_compute; reflexivity))
    as (m2 & calls2 & E & Hm & _).
  exists m2, calls2. split; [reflexivity|]. split; [exact E | exact Hm].
Defined.

Lemma capability_mirror_tracks_driver_witness :
  let ops := [OpEnable GLState.BLEND; OpPushState GLState.BLEND;
              OpDisable GLState.BLEND; OpSetDepthFunc 513; OpPopState] in
  existsb is_reset ops = false
  /\ exists m' calls,
       run no_extensions ops fresh_manager = Returns tt m' calls
       /\ mirrored_state m' GLState.BLEND =
            capability_after GL_BLEND (mirrored_state fresh_manager GLState.BLEND) calls.
Proof.
  intros ops. split; [reflexivity|]. eexists _, _. split; [vm_compute; reflexivity|].
  exact (capability_mirror_tracks_driver no_extensions ops fresh_manager _ _
           GLState.BLEND eq_refl ltac:(vm_compute; reflexivity)).
Defined.

Lemma scalar_mirror_tracks_driver_witness :
  let ops := [OpSetDepthFunc 513; OpSetCullFace GL_BACK; OpSetDepthFunc 515;
              OpBindShaderProgram 4] in
  exists m' calls,
    run no_extensions ops fresh_manager = Returns tt m' calls
    /\ scalar_mirror DepthFunc m' =
         scalar_after DepthFunc (scalar_mirror DepthFunc fresh_manager) calls.
Proof.
  intros ops. eexists _, _. split; [vm_compute; reflexivity|].
  exact (scalar_mirror_tracks_driver no_extensions ops fresh_manager _ _
           DepthFunc ltac:(vm_compute; reflexivity)).
Defined.

Lemma texture_mirror_tracks_driver_witness :
  exists m' calls,
    run no_extensions end_to_end fresh_manager = Returns tt m' calls
    /\ texture_mirror 2%fin GLTextureTarget.TEXTURE_2D m' =
         texture_after GL_TEXTURE2 GL_TEXTURE_2D
           (texture_mirror 2%fin GLTextureTarget.TEXTURE_2D fresh_manager) calls.
Proof.
  eexists _, _. split; [vm_compute; reflexivity|].
  exact (texture_mirror_tracks_driver no_extensions end_to_end fresh_manager _ _
           2%fin GLTextureTarget.TEXTURE_2D ltac:(vm_compute; reflexivity)).
Defined.

Lemma buffer_mirror_tracks_driver_witness :
  let ops := [OpBindBuffer GLBufferTarget.ARRAY_BUFFER 3;
              OpPushBoundBuffer GLBufferTarget.ARRAY_BUFFER;
              OpBindBufferBase GLBufferTarget.UNIFORM_BUFFER 0 8;
              OpForcedBindBuffer GLBufferTarget.ARRAY_BUFFER 5;
              OpPopBoundBuffer] in
  existsb is_bind_vertex_array ops = false
  /\ exists m' calls,
       run no_extensions ops fresh_manager = Returns tt m' calls
       /\ mirrored_buffer m' GLBufferTarget.ARRAY_BUFFER =
            buffer_after GL_ARRAY_BUFFER
              (mirrored_buffer fresh_manager GLBufferTarget.ARRAY_BUFFER) calls.
Proof.
  intros ops. split; [reflexivity|]. eexists _, _. split; [vm_compute; reflexivity|].
  exact (buffer_mirror_tracks_driver no_extensions ops fresh_manager _ _
           GLBufferTarget.ARRAY_BUFFER eq_refl ltac:(vm_compute; reflexivity)).
Defined.

Lemma SetScissors_round_trip_witness :
  let m := set_emulateClipControl_ true (set_currentContextHeight_ 600 fresh_manager) in
  let scissors := [GLScissor.Build 0 50 800 400] in
  Forall (fun sc => GLint_range (GLScissor.y sc)) scissors
  /\ SetScissors no_extensions scissors m
       = Returns [GLScissor.Build 0 150 800 400] m [glScissor 0 150 800 400]
  /\ exists calls',
       SetScissors no_extensions [GLScissor.Build 0 150 800 400] m
         = Returns scissors m calls'.
Proof.
  intros m scissors.
  assert (Hr : Forall (fun sc => GLint_range (GLScissor.y sc)) scissors).
  { constructor; [|constructor]. unfold GLint_range, GLint_min, GLint_max. simpl. lia. }
  assert (E : SetScissors no_extensions scissors m
              = Returns [GLScissor.Build 0 150 800 400] m [glScissor 0 150 800 400])
    by reflexivity.
  split; [exact Hr|]. split; [exact E|].
  destruct (SetScissors_round_trip no_extensions scissors _ m m _ Hr E) as (_ & _ & _ & H).
  exact H.
Defined.

Lemma SetViewports_frame_witness :
  let vp :=
    GLViewport.Build (GLfloat_of_GLint 0) (GLfloat_of_GLint 100)
      (GLfloat_of_GLint 800) (GLfloat_of_GLint 400) in
  SetViewports no_extensions [vp; vp] fresh_manager = Returns [vp; vp] fresh_manager []
  /\ (@nil GLCall = [] <->
        [vp; vp] = [] \/
        ((2 <= length [vp; vp])%nat /\ has_glViewportArrayv no_extensions = false)).
Proof.
  intros vp.
  assert (E : SetViewports no_extensions [vp; vp] fresh_manager
              = Returns [vp; vp] fresh_manager []) by reflexivity.
  split; [exact E|].
  destruct (SetViewports_frame no_extensions [vp; vp] _ fresh_manager _ _ E)
    as (_ & _ & H & _).
  exact H.
Defined.

Lemma scalar_setters_idempotent_witness :
  CullFace <> DepthFunc
  /\ exists m',
       call no_extensions (scalar_op DepthFunc 513) fresh_manager
         = Returns tt m' [glDepthFunc 513]
       /\ run no_extensions [scalar_op DepthFunc 513; scalar_op DepthFunc 513]
            fresh_manager = Returns tt m' [glDepthFunc 513]
       /\ scalar_mirror CullFace m' = scalar_mirror CullFace fresh_manager.
Proof.
  assert (Hk : CullFace <> DepthFunc) by discriminate.
  split; [exact Hk|].
  destruct (scalar_setters_idempotent no_extensions DepthFunc 513 fresh_manager)
    as (m' & E & E2 & _ & Hf).
  exists m'. split; [exact E|]. split; [exact E2 | exact (Hf CullFace Hk)].
Defined.

Lemma PopStates_exact_witness :
  (1 + 2 = 3)%nat
  /\ PopStates 3 fresh_manager = (PopStates 1 ;; PopStates 2) fresh_manager.
Proof.
  split; [reflexivity|].
  destruct (PopStates_exact 3 fresh_manager) as (_ & _ & H).
  exact (H 1%nat 2%nat eq_refl).
Defined.

Lemma SetBlendStates_multi_witness :
  let opaque := {| r := 1; g := 1; b := 1; a := 1 |} in
  let none := {| r := 0; g := 0; b := 0; a := 0 |} in
  let s1 := GLBlend.Build opaque 1 0 1 0 in
  let s2 := GLBlend.Build none 1 0 1 0 in
  has_glBlendFuncSeparatei no_extensions && has_glColorMaski no_extensions = false
  /\ colorMask (commonState_ fresh_manager) = GLBlend.colorMask s2
  /\ exists calls,
       SetBlendStates no_extensions [s1; s2] false fresh_manager
         = Returns tt fresh_manager calls
       /\ sends_mask s1 ∈ calls
       /\ (SetBlendStates no_extensions [s1; s2] false ;;
           SetBlendStates no_extensions [s2] false) fresh_manager
          = Returns tt fresh_manager calls.
Proof.
  intros opaque none s1 s2.
  assert (Hx : has_glBlendFuncSeparatei no_extensions
               && has_glColorMaski no_extensions = false) by reflexivity.
  assert (Hm : colorMask (commonState_ fresh_manager) = GLBlend.colorMask s2)
    by reflexivity.
  split; [exact Hx|]. split; [exact Hm|].
  destruct (SetBlendStates_multi no_extensions s1 s2 [] false fresh_manager)
    as (calls & E & _ & Hin & Hstale).
  exists calls. split; [exact E|]. split; [|exact (Hstale s2 Hm)].
  apply (Hin Hx). left.
Defined.
